(** * ZOQQ website scripts: counters, one-shot observers and timed sequences

    A shallow embedding of [src/assets/js/main.js].  The file holds two
    variants of the same script: the instrumented one (objects
    [StatsCounter], [AnimationModule], [SearchInterface], [ZOQQApp]) and the
    "Production Build" (closures [StatsCounter], [Animations], [SearchUI],
    [ZOQQApp]).  They are embedded as the modules [Verbose] and
    [Production].

    Conventions of the embedding.
    - A script function is a computation of the monad [js]: it threads the
      mutable script state, appends to a trace of host calls (timers,
      animation frames, DOM writes, console) and ends normally or by a
      thrown error.
    - The closures handed to [setTimeout], [setInterval] and
      [requestAnimationFrame] are defunctionalised: one constructor per
      closure, carrying the variables it captures.
    - A number is [NaN], an infinity, or a finite binary64 value written as
      the rational it denotes.  Every arithmetic operation rounds its exact
      result to the nearest binary64 value, ties to even ([round64]), and
      overflows to an infinity.  The two zeros are identified: the script
      never divides by zero and never raises zero to a negative power, the
      operations that tell them apart, and both zeros print as "0".
    - [Math.pow] of a finite non-zero base to a finite non-zero exponent is
      implementation-approximated in ECMAScript; that part is a function
      the host provides ([pow_approximated]).
    - A string is a sequence of code units below 256. *)

From Stdlib Require Import ZArith QArith Qround Qabs Qminmax Qpower Lia Lqa.
From Stdlib Require Import String Ascii List Sorted DecimalString.
From stdpp Require Import base gmap strings list.

Local Open Scope Z_scope.

(** ** Numbers *)

Inductive ext (A : Type) : Type :=
| NaN
| Infinity (negative : bool)
| Fin (a : A).
Arguments NaN {A}.
Arguments Infinity {A} negative.
Arguments Fin {A} a.

(** A JavaScript number, and an integral one (the result of [Math.floor]
    or [parseInt]). *)
Definition number : Type := ext Q.
Definition integer : Type := ext Z.

Definition isNaN {A} (x : ext A) : bool :=
  match x with NaN => true | _ => false end.

Definition of_integer (x : integer) : number :=
  match x with
  | NaN => NaN
  | Infinity s => Infinity s
  | Fin z => Fin (inject_Z z)
  end.

Definition Qneg (q : Q) : bool := negb (Qle_bool 0 q).
Definition Qzero (q : Q) : bool := Qeq_bool q 0.

(** *** Rounding to binary64 *)

(** The exponent of a positive rational [a]: [2^e <= a < 2^(e+1)]. *)
Definition binade (a : Q) : Z :=
  let k := Z.log2 (Qnum a) - Z.log2 (Zpos (Qden a)) in
  if Qle_bool (2 ^ k) a then k else k - 1.

(** The nearest integer, the even one of two that are equally near. *)
Definition round_half_even (a : Q) : Z :=
  let f := Qfloor a in
  match (a - inject_Z f ?= 1 # 2)%Q with
  | Lt => f
  | Gt => f + 1
  | Eq => if Z.even f then f else f + 1
  end.

(** The exponent of the step between the binary64 values around [a > 0]:
    53 bits in the binade of [a], and never below [2^-1074]. *)
Definition ulp_exponent (a : Q) : Z := Z.max (binade a - 52) (-1074).

(** The binary64 value nearest to [a > 0], not yet cut off at [2^1024]. *)
Definition nearest64 (a : Q) : Q :=
  (inject_Z (round_half_even (a / 2 ^ ulp_exponent a)) * 2 ^ ulp_exponent a)%Q.

(** The Number value for a rational: round to nearest, ties to even;
    from [2^1024] on the result is an infinity. *)
Definition round64 (q : Q) : number :=
  if Qzero q then Fin 0%Q
  else
    let r := nearest64 (Qabs q) in
    if Qle_bool (2 ^ 1024) r then Infinity (Qneg q)
    else Fin (Qred (if Qneg q then (- r)%Q else r)).

(** *** Arithmetic *)

Definition number_sub (x y : number) : number :=
  match x, y with
  | NaN, _ | _, NaN => NaN
  | Infinity a, Infinity b => if Bool.eqb a b then NaN else Infinity a
  | Infinity a, Fin _ => Infinity a
  | Fin _, Infinity b => Infinity (negb b)
  | Fin p, Fin q => round64 (p - q)
  end.

Definition number_add (x y : number) : number :=
  match x, y with
  | NaN, _ | _, NaN => NaN
  | Infinity a, Infinity b => if Bool.eqb a b then Infinity a else NaN
  | Infinity a, Fin _ => Infinity a
  | Fin _, Infinity b => Infinity b
  | Fin p, Fin q => round64 (p + q)
  end.

Definition number_mul (x y : number) : number :=
  match x, y with
  | NaN, _ | _, NaN => NaN
  | Infinity a, Infinity b => Infinity (xorb a b)
  | Infinity a, Fin q | Fin q, Infinity a =>
      if Qzero q then NaN else Infinity (xorb a (Qneg q))
  | Fin p, Fin q => round64 (p * q)
  end.

(** The divisor of the script, [duration], is never zero; a zero divisor
    is taken as [+0]. *)
Definition number_div (x y : number) : number :=
  match x, y with
  | NaN, _ | _, NaN => NaN
  | Infinity _, Infinity _ => NaN
  | Infinity a, Fin q => Infinity (xorb a (Qneg q))
  | Fin _, Infinity _ => Fin 0%Q
  | Fin p, Fin q =>
      if Qzero q then (if Qzero p then NaN else Infinity (Qneg p))
      else round64 (p / q)
  end.

(** [x < y] *)
Definition number_lt (x y : number) : bool :=
  match x, y with
  | NaN, _ | _, NaN => false
  | Infinity a, Infinity b => a && negb b
  | Infinity a, Fin _ => a
  | Fin _, Infinity b => negb b
  | Fin p, Fin q => negb (Qle_bool q p)
  end.

Definition Math_min (x y : number) : number :=
  match x, y with
  | NaN, _ | _, NaN => NaN
  | _, _ => if number_lt y x then y else x
  end.

Definition Math_max (x y : number) : number :=
  match x, y with
  | NaN, _ | _, NaN => NaN
  | _, _ => if number_lt x y then y else x
  end.

Definition is_integral (q : Q) : bool := Qeq_bool q (inject_Z (Qfloor q)).
Definition is_odd (q : Q) : bool := is_integral q && Z.odd (Qfloor q).

(** [Math.pow(base, exponent)] as [Number::exponentiate] defines it;
    [approximated] is the host's result for a finite non-zero base and a
    finite non-zero exponent. *)
Definition Math_pow (approximated : Q → Q → number) (base exponent : number) : number :=
  match exponent, base with
  | NaN, _ => NaN
  | Fin e, _ =>
      if Qzero e then Fin 1%Q
      else
        match base with
        | NaN => NaN
        | Infinity s =>
            if Qneg e then Fin 0%Q else Infinity (s && is_odd e)
        | Fin b =>
            if Qzero b then (if Qneg e then Infinity false else Fin 0%Q)
            else if Qneg b && negb (is_integral e) then NaN
            else approximated b e
        end
  | Infinity s, NaN => NaN
  | Infinity s, Infinity _ => if s then Fin 0%Q else Infinity false
  | Infinity s, Fin b =>
      match (Qabs b ?= 1)%Q with
      | Gt => if s then Fin 0%Q else Infinity false
      | Eq => NaN
      | Lt => if s then Infinity false else Fin 0%Q
      end
  end.

Definition Math_floor (x : number) : integer :=
  match x with
  | NaN => NaN
  | Infinity s => Infinity s
  | Fin q => Fin (Qfloor q)
  end.

(** ** Number to string *)

Definition digits (n : N) : string := NilZero.string_of_uint (N.to_uint n).

Fixpoint zeros (n : nat) : string :=
  match n with O => EmptyString | S k => String "0" (zeros k) end.

(** [z] reads back from [s * 10^p]: that product rounds to [z]. *)
Definition reads_back (z s p : Z) : bool :=
  match round64 (inject_Z (s * 10 ^ p)) with
  | Fin r => Qeq_bool r (inject_Z z)
  | _ => false
  end.

(** The decimal digits [Number::toString] prints for the positive integer
    [z] that has [n] digits, looking for [k] digits, [k] from [17 - fuel]
    on: the fewest digits [s] for which [s * 10^(n-k)] reads back as [z],
    the nearest to [z] of two such [s], the even one of two equally near.
    The second component is the number of digits before the point, which
    is [n + 1] when the digits are those of [10^n]. *)
Fixpoint shortest_digits (fuel : nat) (z : Z) (n k : nat) : string * nat :=
  match fuel with
  | O => (digits (Z.to_N z), n)
  | S fuel' =>
      let p := Z.of_nat (n - k) in
      let lo := z / 10 ^ p in
      let hi := lo + 1 in
      let ok_lo := (10 ^ Z.of_nat (k - 1) <=? lo) && reads_back z lo p in
      let ok_hi := reads_back z hi p in
      let carried := hi =? 10 ^ Z.of_nat k in
      let lower := (digits (Z.to_N lo), n) in
      let upper := if carried then ("1", S n) else (digits (Z.to_N hi), n) in
      if (n <? k)%nat then (digits (Z.to_N z), n)
      else if ok_lo && ok_hi then
        match (z - lo * 10 ^ p ?= hi * 10 ^ p - z) with
        | Lt => lower
        | Gt => upper
        | Eq => if Z.even lo then lower else upper
        end
      else if ok_lo then lower
      else if ok_hi then upper
      else shortest_digits fuel' z n (S k)
  end.

(** [Number::toString] of a positive integer: the digits followed by
    zeros up to 21 places, exponent notation [d.ddde+n] beyond. *)
Definition toString_pos (z : N) : string :=
  let '(d, n) := shortest_digits 17 (Z.of_N z) (String.length (digits z)) 1 in
  let k := String.length d in
  if (n <=? 21)%nat then d +:+ zeros (n - k)
  else
    match d with
    | String c EmptyString => String c EmptyString +:+ "e+" +:+ digits (N.of_nat (n - 1))
    | String c r => String c ("." +:+ r) +:+ "e+" +:+ digits (N.of_nat (n - 1))
    | EmptyString => d
    end.

Definition toString (x : integer) : string :=
  match x with
  | NaN => "NaN"
  | Infinity false => "Infinity"
  | Infinity true => "-Infinity"
  | Fin 0 => "0"
  | Fin (Zpos p) => toString_pos (Npos p)
  | Fin (Zneg p) => "-" +:+ toString_pos (Npos p)
  end.

Inductive error : Type := TypeError | RangeError.

(** [Number.prototype.toFixed]: a [fractionDigits] that is not finite or
    is outside 0..100 is a [RangeError]; otherwise the magnitude is rounded
    to [f] decimals, ties upwards, and the sign is that of the unrounded
    value.  Magnitudes from 10^21 on are printed as by [toString] (every
    such binary64 value is an integer). *)
Definition toFixed_fin (q : Q) (f : nat) : string :=
  let s := if Qneg q then "-" else "" in
  let a := Qabs q in
  if Qle_bool (10 ^ 21) a then s +:+ toString (Fin (Qfloor a))
  else
    let n := Qfloor (a * 10 ^ Z.of_nat f + (1 # 2)) in
    let m := digits (Z.to_N n) in
    if (f =? 0)%nat then s +:+ m
    else
      let m := if (String.length m <=? f)%nat
               then zeros (f + 1 - String.length m) +:+ m else m in
      let k := String.length m in
      s +:+ substring 0 (k - f) m +:+ "." +:+ substring (k - f) f m.

Definition toFixed (x : number) (fractionDigits : integer) : error + string :=
  match fractionDigits with
  | Infinity _ => inl RangeError
  | NaN | Fin _ =>
      let f := match fractionDigits with Fin f => f | _ => 0 end in
      if (f <? 0) || (100 <? f) then inl RangeError
      else
        match x with
        | NaN => inr "NaN"
        | Infinity false => inr "Infinity"
        | Infinity true => inr "-Infinity"
        | Fin q => inr (toFixed_fin q (Z.to_nat f))
        end
  end.

(** ** String to number *)

(** The white space and line terminators below 256: TAB, LF, VT, FF, CR,
    SP and NBSP. *)
Definition is_space (c : ascii) : bool :=
  let n := nat_of_ascii c in
  (((9 <=? n) && (n <=? 13)) || (n =? 32) || (n =? 160))%nat.

Fixpoint trim_start (s : string) : string :=
  match s with
  | String c r => if is_space c then trim_start r else s
  | EmptyString => s
  end.

Definition digit_of (radix : N) (c : ascii) : option N :=
  let n := N_of_ascii c in
  let v := if ((48 <=? n) && (n <=? 57))%N then Some (n - 48)%N
           else if ((97 <=? n) && (n <=? 122))%N then Some (n - 87)%N
           else if ((65 <=? n) && (n <=? 90))%N then Some (n - 55)%N
           else None in
  match v with
  | Some d => if (d <? radix)%N then Some d else None
  | None => None
  end.

(** The longest run of digits at the head of [s]: its value (continuing
    [acc]), how many digits were read, and what follows. *)
Fixpoint span_digits (radix acc : N) (count : nat) (s : string) : N * nat * string :=
  match s with
  | String c r =>
      match digit_of radix c with
      | Some d => span_digits radix (acc * radix + d)%N (S count) r
      | None => (acc, count, s)
      end
  | EmptyString => (acc, count, s)
  end.

Definition sign_of (s : string) : bool * string :=
  match s with
  | String "-" r => (true, r)
  | String "+" r => (false, r)
  | _ => (false, s)
  end.

(** [parseInt(string)] without a radix: the Number value for the integer
    read. *)
Definition parseInt (input : string) : integer :=
  let '(neg, s) := sign_of (trim_start input) in
  let '(radix, s) :=
    match s with
    | String "0" (String "x" r) | String "0" (String "X" r) => (16%N, r)
    | _ => (10%N, s)
    end in
  match span_digits radix 0 0 s with
  | (_, O, _) => NaN
  | (v, _, _) =>
      Math_floor (round64 (inject_Z (if neg then - Z.of_N v else Z.of_N v)))
  end.

Definition exponent_part (s : string) : Z :=
  match s with
  | String c r =>
      if Ascii.eqb c "e" || Ascii.eqb c "E" then
        let '(neg, r) := sign_of r in
        match span_digits 10 0 0 r with
        | (_, O, _) => 0
        | (v, _, _) => if neg then - Z.of_N v else Z.of_N v
        end
      else 0
  | EmptyString => 0
  end.

(** [parseFloat(string)]: the Number value for the longest prefix that is
    a decimal literal. *)
Definition parseFloat (input : string) : number :=
  let '(neg, s) := sign_of (trim_start input) in
  if String.prefix "Infinity" s then Infinity neg
  else
    let '(ip, ni, s1) := span_digits 10 0 0 s in
    let '(fp, nf, s2) :=
      match s1 with
      | String "." r => span_digits 10 0 0 r
      | _ => (0%N, O, s1)
      end in
    if (ni + nf =? 0)%nat then NaN
    else
      let m := inject_Z (Z.of_N (ip * 10 ^ N.of_nat nf + fp)) in
      let q := (m * 10 ^ (exponent_part s2 - Z.of_nat nf))%Q in
      round64 (if neg then (- q)%Q else q).

(** An attribute that is not set reads as [undefined], which the parsers
    first turn into the string "undefined". *)
Definition ToString (v : option string) : string := default "undefined" v.

(** [x || d] for an integral number [x]: [NaN] and 0 give [d]. *)
Definition or_number (x : integer) (d : Z) : integer :=
  match x with
  | NaN | Fin 0 => Fin d
  | _ => x
  end.

(** [x > 0] and the truth value of [x], for an integral number. *)
Definition positive_integer (x : integer) : bool :=
  match x with
  | NaN => false
  | Infinity s => negb s
  | Fin z => 0 <? z
  end.
Definition truthy (x : integer) : bool :=
  match x with
  | NaN | Fin 0 => false
  | _ => true
  end.

(** [s || ''] for an attribute. *)
Definition or_empty (v : option string) : string := default "" v.

(** ** The host: document, effects, computations *)

Abbreviation Element := nat (only parsing).

(** What the script can read from the page and its window.  Reads answer
    from the page as it was loaded.  [IntersectionObserver_supported] stands
    for both tests the script makes, ['IntersectionObserver' in window] and
    [window.IntersectionObserver]; [style_readback] is the text a style
    property reads back as after it was assigned; [pow_approximated] is
    the host's [Math.pow] where ECMAScript leaves the result to the
    implementation. *)
Record Document : Type := {
  pow_approximated : Q → Q → number;
  IntersectionObserver_supported : bool;
  requestIdleCallback_supported : bool;
  reportError_supported : bool;
  style_readback : string → string;
  querySelectorAll : string → list Element;
  getElementById : string → option Element;
  dataset : Element → string → option string;
  classList_contains : Element → string → bool
}.

Definition querySelector (doc : Document) (selector : string) : option Element :=
  head (querySelectorAll doc selector).

(** Calls into the host, in the order they are made.  [C] is the type of
    the script's closures.  [enter] is a ghost mark left at the start of
    the functions whose invocations are counted. *)
Inductive effect (C : Type) : Type :=
| requestAnimationFrame (cb : C)
| setTimeout (cb : C) (delay : Z)
| setInterval (cb : C) (delay : Z)
| clearInterval (cb : C)
| requestIdleCallback (cb : C)
| reportError (e : error)
| set_textContent (el : Element) (text : string)
| set_value (el : Element) (text : string)
| classList_add (el : Element) (cls : string)
| classList_remove (el : Element) (cls : string)
| set_style (el : Element) (property value : string)
| append_style (el : Element) (property value : string)
| addEventListener (el : Element) (event : string)
| new_IntersectionObserver (name : string)
| observe (name : string) (el : Element)
| unobserve (name : string) (el : Element)
| console (level : string)
| enter (function : string) (arg : option Element).
Arguments requestAnimationFrame {C} cb.
Arguments setTimeout {C} cb delay.
Arguments setInterval {C} cb delay.
Arguments clearInterval {C} cb.
Arguments requestIdleCallback {C} cb.
Arguments reportError {C} e.
Arguments set_textContent {C} el text.
Arguments set_value {C} el text.
Arguments classList_add {C} el cls.
Arguments classList_remove {C} el cls.
Arguments set_style {C} el property value.
Arguments append_style {C} el property value.
Arguments addEventListener {C} el event.
Arguments new_IntersectionObserver {C} name.
Arguments observe {C} name el.
Arguments unobserve {C} name el.
Arguments console {C} level.
Arguments enter {C} function arg.

Inductive completion (A : Type) : Type :=
| Normal (a : A)
| Throw (e : error).
Arguments Normal {A} a.
Arguments Throw {A} e.

(** A computation over the script state [W]: the final state, the host
    calls made, and how it ended.  State changes and host calls made before
    a throw persist. *)
Definition js (W C A : Type) : Type := W → W * list (effect C) * completion A.

Section Computations.
Context {W C : Type}.

Definition ret {A} (a : A) : js W C A := λ w, (w, [], Normal a).

Definition bind {A B} (m : js W C A) (k : A → js W C B) : js W C B :=
  λ w,
    match m w with
    | (w1, t1, Normal a) =>
        match k a w1 with (w2, t2, r) => (w2, t1 ++ t2, r) end
    | (w1, t1, Throw e) => (w1, t1, Throw e)
    end.

Definition emit (e : effect C) : js W C unit := λ w, (w, [e], Normal tt).
Definition get : js W C W := λ w, (w, [], Normal w).
Definition modify (f : W → W) : js W C unit := λ w, (f w, [], Normal tt).
Definition throw {A} (e : error) : js W C A := λ w, (w, [], Throw e).
Definition skip : js W C unit := ret tt.

(** [try { body } catch (error) { handler }] *)
Definition try_catch (body : js W C unit) (handler : error → js W C unit)
  : js W C unit :=
  λ w,
    match body w with
    | (w1, t1, Normal a) => (w1, t1, Normal a)
    | (w1, t1, Throw e) =>
        match handler e w1 with (w2, t2, r) => (w2, t1 ++ t2, r) end
    end.

(** [list.forEach((item, index) => f)] *)
Fixpoint forEach_from {A} (i : nat) (l : list A) (f : A → nat → js W C unit)
  : js W C unit :=
  match l with
  | [] => ret tt
  | x :: r => bind (f x i) (λ _, forEach_from (S i) r f)
  end.
Definition forEach {A} (l : list A) (f : A → nat → js W C unit) : js W C unit :=
  forEach_from 0 l f.

Definition when (b : bool) (m : js W C unit) : js W C unit :=
  if b then m else ret tt.

Definition state_of {A} (r : W * list (effect C) * completion A) : W := r.1.1.
Definition trace_of {A} (r : W * list (effect C) * completion A) : list (effect C) := r.1.2.
Definition result_of {A} (r : W * list (effect C) * completion A) : completion A := r.2.
End Computations.

Notation "x <- m ;; k" := (bind m (λ x, k))
  (at level 100, m at next level, right associativity).
Notation "m ;;; k" := (bind m (λ _, k))
  (at level 100, right associativity).

(** An entry delivered to an [IntersectionObserver] callback. *)
Record IntersectionObserverEntry : Type := {
  entry_target : Element;
  isIntersecting : bool
}.

Definition STAGGER_DELAY : Z := 100.
Definition animateElements : string := ".hero-title, .hero-description, .hero-icon".

(** [`${n}ms`] for an index-derived delay. *)
Definition ms (n : Z) : string := toString (Fin n) +:+ "ms".

(** * The instrumented variant *)

Module Verbose.

(** The closures given to timers and animation frames. *)
Inductive callback : Type :=
| updateCounter (element : Element) (target : number) (duration decimals : integer)
    (prefix suffix : string) (startTime startValue : Q)
| removeCompleted (element : Element)
| fallbackCounter (stat : Element)
| itemAppear (item : Element)
| itemPulse (item : Element)
| itemSettle (item : Element)
| circlesStart
| scrollStart
| circleAppear (circle : Element) (index : nat)
| circleGlow (circle : Element)
| fallbackAnimateIn (element : Element)
| fallbackTransaction
| phaseInput
| phaseProcessing
| phaseResults
| hideNow (phase : Element)
| typeTick (searchInput : Element)
| suggestionReveal (item : Element)
| entranceReset (item : Element) (originalTransform : string).

(** The [state] objects of the modules, the variables captured by the
    typing closure, and the clock read by [performance.now()]. *)
Record World : Type := {
  now : Q;
  stats_isInitialized : bool;
  stats_observer : bool;
  animatedStats : gset nat;
  anim_isInitialized : bool;
  anim_observer : bool;
  anim_transactionObserver : bool;
  hasTransactionAnimated : bool;
  search_isInitialized : bool;
  typing_currentText : string;
  typing_index : nat;
  app_isInitialized : bool;
  app_modules : list string
}.

Definition set_now (t : Q) (w : World) : World :=
  {| now := t; stats_isInitialized := stats_isInitialized w;
     stats_observer := stats_observer w; animatedStats := animatedStats w;
     anim_isInitialized := anim_isInitialized w; anim_observer := anim_observer w;
     anim_transactionObserver := anim_transactionObserver w;
     hasTransactionAnimated := hasTransactionAnimated w;
     search_isInitialized := search_isInitialized w;
     typing_currentText := typing_currentText w; typing_index := typing_index w;
     app_isInitialized := app_isInitialized w; app_modules := app_modules w |}.

Definition set_stats_isInitialized (b : bool) (w : World) : World :=
  {| now := now w; stats_isInitialized := b;
     stats_observer := stats_observer w; animatedStats := animatedStats w;
     anim_isInitialized := anim_isInitialized w; anim_observer := anim_observer w;
     anim_transactionObserver := anim_transactionObserver w;
     hasTransactionAnimated := hasTransactionAnimated w;
     search_isInitialized := search_isInitialized w;
     typing_currentText := typing_currentText w; typing_index := typing_index w;
     app_isInitialized := app_isInitialized w; app_modules := app_modules w |}.

Definition set_stats_observer (b : bool) (w : World) : World :=
  {| now := now w; stats_isInitialized := stats_isInitialized w;
     stats_observer := b; animatedStats := animatedStats w;
     anim_isInitialized := anim_isInitialized w; anim_observer := anim_observer w;
     anim_transactionObserver := anim_transactionObserver w;
     hasTransactionAnimated := hasTransactionAnimated w;
     search_isInitialized := search_isInitialized w;
     typing_currentText := typing_currentText w; typing_index := typing_index w;
     app_isInitialized := app_isInitialized w; app_modules := app_modules w |}.

Definition set_animatedStats (s : gset nat) (w : World) : World :=
  {| now := now w; stats_isInitialized := stats_isInitialized w;
     stats_observer := stats_observer w; animatedStats := s;
     anim_isInitialized := anim_isInitialized w; anim_observer := anim_observer w;
     anim_transactionObserver := anim_transactionObserver w;
     hasTransactionAnimated := hasTransactionAnimated w;
     search_isInitialized := search_isInitialized w;
     typing_currentText := typing_currentText w; typing_index := typing_index w;
     app_isInitialized := app_isInitialized w; app_modules := app_modules w |}.

Definition set_anim_isInitialized (b : bool) (w : World) : World :=
  {| now := now w; stats_isInitialized := stats_isInitialized w;
     stats_observer := stats_observer w; animatedStats := animatedStats w;
     anim_isInitialized := b; anim_observer := anim_observer w;
     anim_transactionObserver := anim_transactionObserver w;
     hasTransactionAnimated := hasTransactionAnimated w;
     search_isInitialized := search_isInitialized w;
     typing_currentText := typing_currentText w; typing_index := typing_index w;
     app_isInitialized := app_isInitialized w; app_modules := app_modules w |}.

Definition set_anim_observer (b : bool) (w : World) : World :=
  {| now := now w; stats_isInitialized := stats_isInitialized w;
     stats_observer := stats_observer w; animatedStats := animatedStats w;
     anim_isInitialized := anim_isInitialized w; anim_observer := b;
     anim_transactionObserver := anim_transactionObserver w;
     hasTransactionAnimated := hasTransactionAnimated w;
     search_isInitialized := search_isInitialized w;
     typing_currentText := typing_currentText w; typing_index := typing_index w;
     app_isInitialized := app_isInitialized w; app_modules := app_modules w |}.

Definition set_anim_transactionObserver (b : bool) (w : World) : World :=
  {| now := now w; stats_isInitialized := stats_isInitialized w;
     stats_observer := stats_observer w; animatedStats := animatedStats w;
     anim_isInitialized := anim_isInitialized w; anim_observer := anim_observer w;
     anim_transactionObserver := b;
     hasTransactionAnimated := hasTransactionAnimated w;
     search_isInitialized := search_isInitialized w;
     typing_currentText := typing_currentText w; typing_index := typing_index w;
     app_isInitialized := app_isInitialized w; app_modules := app_modules w |}.

Definition set_hasTransactionAnimated (b : bool) (w : World) : World :=
  {| now := now w; stats_isInitialized := stats_isInitialized w;
     stats_observer := stats_observer w; animatedStats := animatedStats w;
     anim_isInitialized := anim_isInitialized w; anim_observer := anim_observer w;
     anim_transactionObserver := anim_transactionObserver w;
     hasTransactionAnimated := b;
     search_isInitialized := search_isInitialized w;
     typing_currentText := typing_currentText w; typing_index := typing_index w;
     app_isInitialized := app_isInitialized w; app_modules := app_modules w |}.

Definition set_search_isInitialized (b : bool) (w : World) : World :=
  {| now := now w; stats_isInitialized := stats_isInitialized w;
     stats_observer := stats_observer w; animatedStats := animatedStats w;
     anim_isInitialized := anim_isInitialized w; anim_observer := anim_observer w;
     anim_transactionObserver := anim_transactionObserver w;
     hasTransactionAnimated := hasTransactionAnimated w;
     search_isInitialized := b;
     typing_currentText := typing_currentText w; typing_index := typing_index w;
     app_isInitialized := app_isInitialized w; app_modules := app_modules w |}.

Definition set_typing (text : string) (index : nat) (w : World) : World :=
  {| now := now w; stats_isInitialized := stats_isInitialized w;
     stats_observer := stats_observer w; animatedStats := animatedStats w;
     anim_isInitialized := anim_isInitialized w; anim_observer := anim_observer w;
     anim_transactionObserver := anim_transactionObserver w;
     hasTransactionAnimated := hasTransactionAnimated w;
     search_isInitialized := search_isInitialized w;
     typing_currentText := text; typing_index := index;
     app_isInitialized := app_isInitialized w; app_modules := app_modules w |}.

Definition set_app_isInitialized (b : bool) (w : World) : World :=
  {| now := now w; stats_isInitialized := stats_isInitialized w;
     stats_observer := stats_observer w; animatedStats := animatedStats w;
     anim_isInitialized := anim_isInitialized w; anim_observer := anim_observer w;
     anim_transactionObserver := anim_transactionObserver w;
     hasTransactionAnimated := hasTransactionAnimated w;
     search_isInitialized := search_isInitialized w;
     typing_currentText := typing_currentText w; typing_index := typing_index w;
     app_isInitialized := b; app_modules := app_modules w |}.

Definition set_app_modules (l : list string) (w : World) : World :=
  {| now := now w; stats_isInitialized := stats_isInitialized w;
     stats_observer := stats_observer w; animatedStats := animatedStats w;
     anim_isInitialized := anim_isInitialized w; anim_observer := anim_observer w;
     anim_transactionObserver := anim_transactionObserver w;
     hasTransactionAnimated := hasTransactionAnimated w;
     search_isInitialized := search_isInitialized w;
     typing_currentText := typing_currentText w; typing_index := typing_index w;
     app_isInitialized := app_isInitialized w; app_modules := l |}.

(** The state when the script is loaded, at clock [t]. *)
Definition initial (t : Q) : World :=
  {| now := t; stats_isInitialized := false; stats_observer := false;
     animatedStats := ∅; anim_isInitialized := false; anim_observer := false;
     anim_transactionObserver := false; hasTransactionAnimated := false;
     search_isInitialized := false; typing_currentText := ""; typing_index := 0;
     app_isInitialized := false; app_modules := [] |}.

Abbreviation js := (js World callback).

(** ** [StatsCounter] *)
Module StatsCounter.
Section WithDocument.
Context (doc : Document).

(** The body of the closure [updateCounter], called with the frame's
    timestamp. *)
Definition run_updateCounter (element : Element) (target : number)
    (duration decimals : integer) (prefix suffix : string) (startTime startValue : Q)
    (currentTime : Q) : js unit :=
  let elapsed := number_sub (Fin currentTime) (Fin startTime) in
  let progress := Math_min (number_div elapsed (of_integer duration)) (Fin 1%Q) in
  let easeOutQuart :=
    number_sub (Fin 1%Q)
      (Math_pow (pow_approximated doc) (number_sub (Fin 1%Q) progress) (Fin 4%Q)) in
  let currentValue :=
    number_add (Fin startValue)
      (number_mul (number_sub target (Fin startValue)) easeOutQuart) in
  formattedValue <-
    (if positive_integer decimals
     then match toFixed currentValue decimals with
          | inr s => ret s
          | inl e => throw e
          end
     else ret (toString (Math_floor currentValue))) ;;
  emit (set_textContent element (prefix +:+ formattedValue +:+ suffix)) ;;;
  if number_lt progress (Fin 1%Q) then
    emit (requestAnimationFrame
            (updateCounter element target duration decimals prefix suffix
               startTime startValue))
  else
    emit (classList_remove element "counting") ;;;
    emit (classList_add element "completed") ;;;
    emit (console "log") ;;;
    emit (setTimeout (removeCompleted element) 600).

Definition animateCounter (element : Element) : js unit :=
  emit (enter "animateCounter" (Some element)) ;;;
  let target := parseFloat (ToString (dataset doc element "target")) in
  let duration := or_number (parseInt (ToString (dataset doc element "duration"))) 2000 in
  let decimals := or_number (parseInt (ToString (dataset doc element "decimals"))) 0 in
  let prefix := or_empty (dataset doc element "prefix") in
  let suffix := or_empty (dataset doc element "suffix") in
  if isNaN target then emit (console "error")
  else
    w <- get ;;
    let startTime := now w in
    let startValue := 0%Q in
    emit (classList_add element "counting") ;;;
    emit (console "log") ;;;
    emit (requestAnimationFrame
            (updateCounter element target duration decimals prefix suffix
               startTime startValue)).

Definition fallbackAnimation : js unit :=
  let statsValues := querySelectorAll doc ".stats-value[data-target]" in
  forEach statsValues (λ stat index,
    emit (setTimeout (fallbackCounter stat) (500 + Z.of_nat index * 200))).

(** The callback of the observer built by [setupObserver]. *)
Definition onIntersect (entries : list IntersectionObserverEntry) : js unit :=
  forEach entries (λ entry _,
    w <- get ;;
    if isIntersecting entry
       && negb (bool_decide (entry_target entry ∈ animatedStats w))
    then
      animateCounter (entry_target entry) ;;;
      modify (λ w, set_animatedStats ({[entry_target entry]} ∪ animatedStats w) w)
    else skip).

Definition setupObserver : js unit :=
  if negb (IntersectionObserver_supported doc) then
    emit (console "warn") ;;;
    fallbackAnimation
  else
    emit (new_IntersectionObserver "stats") ;;;
    modify (set_stats_observer true) ;;;
    let statsValues := querySelectorAll doc ".stats-value[data-target]" in
    when (0 <? length statsValues)%nat
      (forEach statsValues (λ stat _, emit (observe "stats" stat)) ;;;
       emit (console "log")).

Definition init : js unit :=
  w <- get ;;
  if stats_isInitialized w then skip
  else
    try_catch
      (setupObserver ;;;
       modify (set_stats_isInitialized true) ;;;
       emit (console "log"))
      (λ _, emit (console "error")).
End WithDocument.
End StatsCounter.

(** ** [AnimationModule] *)
Module AnimationModule.
Section WithDocument.
Context (doc : Document).

Definition animateTransactionSection (section : option Element) : js unit :=
  emit (enter "animateTransactionSection" section) ;;;
  emit (console "log") ;;;
  let transactionItems := querySelectorAll doc ".transaction-item" in
  forEach transactionItems (λ item index,
    emit (setTimeout (itemAppear item) (Z.of_nat index * 200))) ;;;
  emit (setTimeout circlesStart (Z.of_nat (length transactionItems) * 200 + 500)) ;;;
  emit (setTimeout scrollStart (Z.of_nat (length transactionItems) * 200 + 2000)).

Definition run_itemAppear (item : Element) : js unit :=
  emit (set_style item "animationPlayState" "running") ;;;
  emit (setTimeout (itemPulse item) 400).

Definition run_itemPulse (item : Element) : js unit :=
  emit (set_style item "transform" "scale(1.02)") ;;;
  emit (setTimeout (itemSettle item) 150).

Definition run_itemSettle (item : Element) : js unit :=
  emit (set_style item "transform" "scale(1)").

Definition run_scrollStart : js unit :=
  match querySelector doc ".transaction-list" with
  | Some transactionList =>
      emit (set_style transactionList "animationPlayState" "running") ;;;
      emit (console "log")
  | None => skip
  end.

Definition addCircleInteractions (circle : Element) (index : nat) : js unit :=
  emit (addEventListener circle "click") ;;;
  emit (addEventListener circle "mouseenter") ;;;
  emit (addEventListener circle "dblclick").

Definition animateCircles : js unit :=
  let circles := querySelectorAll doc ".circle" in
  forEach circles (λ circle index,
    emit (setTimeout (circleAppear circle index) (Z.of_nat index * 200))) ;;;
  emit (console "log").

Definition run_circleAppear (circle : Element) (index : nat) : js unit :=
  emit (set_style circle "animationPlayState" "running") ;;;
  when (classList_contains doc circle "active")
    (emit (setTimeout (circleGlow circle) 800)) ;;;
  addCircleInteractions circle index.

(** [circle.querySelector('::after')] matches no element. *)
Definition run_circleGlow (circle : Element) : js unit :=
  emit (append_style circle "animation"
          ", activeGlow 2s ease-in-out infinite alternate").

Definition animateElement (element : Element) : js unit :=
  emit (classList_add element "animate-in") ;;;
  w <- get ;;
  when (anim_observer w) (emit (unobserve "animations" element)).

Definition onIntersect (entries : list IntersectionObserverEntry) : js unit :=
  forEach entries (λ entry _,
    when (isIntersecting entry) (animateElement (entry_target entry))).

Definition fallbackAnimation : js unit :=
  let elements := querySelectorAll doc animateElements in
  forEach elements (λ element index,
    emit (setTimeout (fallbackAnimateIn element) (Z.of_nat index * STAGGER_DELAY))) ;;;
  emit (setTimeout fallbackTransaction 2000).

Definition run_fallbackAnimateIn (element : Element) : js unit :=
  emit (classList_add element "animate-in").

Definition setupIntersectionObserver : js unit :=
  if negb (IntersectionObserver_supported doc) then
    emit (console "warn") ;;;
    fallbackAnimation
  else
    emit (new_IntersectionObserver "animations") ;;;
    modify (set_anim_observer true).

(** The callback of the observer built by [setupTransactionObserver]. *)
Definition onTransactionIntersect (entries : list IntersectionObserverEntry)
  : js unit :=
  forEach entries (λ entry _,
    w <- get ;;
    if isIntersecting entry && negb (hasTransactionAnimated w) then
      animateTransactionSection (Some (entry_target entry)) ;;;
      modify (set_hasTransactionAnimated true)
    else skip).

Definition setupTransactionObserver : js unit :=
  if negb (IntersectionObserver_supported doc) then skip
  else
    emit (new_IntersectionObserver "transaction") ;;;
    modify (set_anim_transactionObserver true) ;;;
    match querySelector doc ".expense-sec-right" with
    | Some transactionSection => emit (observe "transaction" transactionSection)
    | None => skip
    end.

Definition observeElements : js unit :=
  let elements := querySelectorAll doc animateElements in
  forEach elements (λ element index,
    emit (set_style element "animationDelay" (ms (Z.of_nat index * STAGGER_DELAY))) ;;;
    w <- get ;;
    when (anim_observer w) (emit (observe "animations" element))).

Definition init : js unit :=
  w <- get ;;
  if anim_isInitialized w then skip
  else
    setupIntersectionObserver ;;;
    setupTransactionObserver ;;;
    observeElements ;;;
    modify (set_anim_isInitialized true) ;;;
    emit (console "log").

Definition restartTransactionAnimation : js unit :=
  modify (set_hasTransactionAnimated false) ;;;
  match querySelector doc ".expense-sec-right" with
  | Some transactionSection => animateTransactionSection (Some transactionSection)
  | None => skip
  end.
End WithDocument.
End AnimationModule.

(** ** [SearchInterface] *)
Module SearchInterface.
Section WithDocument.
Context (doc : Document).

Definition showPhase (phaseId : string) : js unit :=
  match getElementById doc phaseId with
  | Some phase => emit (set_style phase "display" "block")
  | None => skip
  end.

Definition hidePhase (phaseId : string) : js unit :=
  match getElementById doc phaseId with
  | Some phase => emit (setTimeout (hideNow phase) 500)
  | None => skip
  end.

Definition run_hideNow (phase : Element) : js unit :=
  emit (set_style phase "display" "none").

Definition targetText : string := "Jack I".

(** The variables [currentText] and [index] of the one typing run are
    kept in the state. *)
Definition startTypingAnimation : js unit :=
  modify (set_typing "" 0) ;;;
  match getElementById doc "searchInput" with
  | Some searchInput => emit (setInterval (typeTick searchInput) 200)
  | None => skip
  end.

Definition run_typeTick (searchInput : Element) : js unit :=
  w <- get ;;
  let index := typing_index w in
  match String.get index targetText with
  | Some c =>
      let currentText := typing_currentText w +:+ String c EmptyString in
      modify (set_typing currentText (S index)) ;;;
      emit (set_value searchInput currentText)
  | None => emit (clearInterval (typeTick searchInput))
  end.

Definition addEntranceEffect (item : Element) (originalTransform : string)
  : js unit :=
  emit (set_style item "transform" (originalTransform +:+ " scale(1.05)")) ;;;
  emit (set_style item "boxShadow" "0 8px 25px rgba(139, 92, 246, 0.3)") ;;;
  emit (setTimeout (entranceReset item originalTransform) 300).

Definition run_entranceReset (item : Element) (originalTransform : string)
  : js unit :=
  emit (set_style item "transform" originalTransform) ;;;
  emit (set_style item "boxShadow" "").

Definition run_suggestionReveal (item : Element) : js unit :=
  emit (set_style item "opacity" "1") ;;;
  emit (set_style item "transform" "translateX(0)") ;;;
  addEntranceEffect item (style_readback doc "translateX(0)").

Definition showSuggestions : js unit :=
  forEach (querySelectorAll doc ".suggestion-item") (λ item index,
    emit (setTimeout (suggestionReveal item) (800 + Z.of_nat index * 300))).

Definition startAnimationSequence : js unit :=
  showPhase "phaseIcon" ;;;
  emit (setTimeout phaseInput 3000) ;;;
  emit (setTimeout phaseProcessing 5500) ;;;
  emit (setTimeout phaseResults 7500).

Definition run_phaseInput : js unit :=
  hidePhase "phaseIcon" ;;;
  showPhase "phaseInput" ;;;
  startTypingAnimation.

Definition run_phaseProcessing : js unit :=
  hidePhase "phaseInput" ;;;
  showPhase "phaseProcessing".

Definition run_phaseResults : js unit :=
  hidePhase "phaseProcessing" ;;;
  showPhase "phaseResults" ;;;
  showSuggestions.

(** [this.elements.searchInput.addEventListener] is reached without a
    check: a page without [#searchInput] makes it a [TypeError]. *)
Definition bindEvents : js unit :=
  match querySelector doc "#searchInput" with
  | None => throw TypeError
  | Some searchInput =>
      emit (addEventListener searchInput "input") ;;;
      emit (addEventListener searchInput "focus") ;;;
      emit (addEventListener searchInput "blur") ;;;
      forEach (querySelectorAll doc ".suggestion-item") (λ item _,
        emit (addEventListener item "click") ;;;
        emit (addEventListener item "mouseenter")) ;;;
      match querySelector doc ".search-input-wrapper" with
      | Some searchWrapper => emit (addEventListener searchWrapper "click")
      | None => skip
      end
  end.

Definition init : js unit :=
  w <- get ;;
  if search_isInitialized w then skip
  else
    match querySelector doc "#searchInterface", querySelector doc "#searchSuggestions" with
    | Some _, Some _ =>
        bindEvents ;;;
        startAnimationSequence ;;;
        modify (set_search_isInitialized true) ;;;
        emit (console "log")
    | _, _ => skip
    end.
End WithDocument.
End SearchInterface.

(** ** [ZOQQApp] *)
Module ZOQQApp.
(** [initModules] over a table of named [init] functions. *)
Definition initModules (modules : list (string * js unit)) : js unit :=
  forEach modules (λ '(name, init) _,
    try_catch
      (emit (enter name None) ;;;
       init ;;;
       modify (λ w, set_app_modules (app_modules w ++ [name]) w))
      (λ _, emit (console "error"))).

(** The table of the script; the five modules that are not embedded
    here are arguments. *)
Definition modules (doc : Document)
    (MobileNavigation ScrollEffects SmoothScroll NavigationStates ButtonHandlers
       : js unit) : list (string * js unit) :=
  [ ("MobileNavigation", MobileNavigation);
    ("ScrollEffects", ScrollEffects);
    ("StatsCounter", StatsCounter.init doc);
    ("AnimationModule", AnimationModule.init doc);
    ("SmoothScroll", SmoothScroll);
    ("NavigationStates", NavigationStates);
    ("SearchInterface", SearchInterface.init doc);
    ("ButtonHandlers", ButtonHandlers) ].

Definition init (modules : list (string * js unit)) : js unit :=
  w <- get ;;
  if app_isInitialized w then skip
  else
    try_catch
      (initModules modules ;;;
       modify (set_app_isInitialized true) ;;;
       emit (console "log"))
      (λ _, emit (console "error")).
End ZOQQApp.

(** What each closure does when the host calls it; [arg] is the
    timestamp an animation frame passes. *)
Definition run_callback (doc : Document) (cb : callback) (arg : Q) : js unit :=
  match cb with
  | updateCounter element target duration decimals prefix suffix startTime startValue =>
      StatsCounter.run_updateCounter doc element target duration decimals prefix suffix
        startTime startValue arg
  | removeCompleted element => emit (classList_remove element "completed")
  | fallbackCounter stat => StatsCounter.animateCounter doc stat
  | itemAppear item => AnimationModule.run_itemAppear item
  | itemPulse item => AnimationModule.run_itemPulse item
  | itemSettle item => AnimationModule.run_itemSettle item
  | circlesStart => AnimationModule.animateCircles doc
  | scrollStart => AnimationModule.run_scrollStart doc
  | circleAppear circle index => AnimationModule.run_circleAppear doc circle index
  | circleGlow circle => AnimationModule.run_circleGlow circle
  | fallbackAnimateIn element => AnimationModule.run_fallbackAnimateIn element
  | fallbackTransaction => AnimationModule.animateTransactionSection doc None
  | phaseInput => SearchInterface.run_phaseInput doc
  | phaseProcessing => SearchInterface.run_phaseProcessing doc
  | phaseResults => SearchInterface.run_phaseResults doc
  | hideNow phase => SearchInterface.run_hideNow phase
  | typeTick searchInput => SearchInterface.run_typeTick searchInput
  | suggestionReveal item => SearchInterface.run_suggestionReveal doc item
  | entranceReset item originalTransform =>
      SearchInterface.run_entranceReset item originalTransform
  end.

End Verbose.

(** * The production variant *)

Module Production.

Inductive callback : Type :=
| update (el : Element) (target : number) (duration decimals : integer)
    (prefix suffix : string) (start : Q)
| fallbackAnimate (el : Element)
| itemRun (item : Element)
| circlesStart
| scrollStart
| circleRun (circle : Element)
| fallbackAnimateIn (el : Element)
| fallbackTransactions
| phase (phaseId : string) (i : nat)
| type (input : Element)
| suggestionReveal (item : Element)
| idleInit.

(** The variables of the module closures, the text of the search input
    (read back by [input.value += ...]) and the clock. *)
Record World : Type := {
  now : Q;
  animated : gset nat;
  stats_observer : bool;
  anim_observer : bool;
  transactionObserver : bool;
  transactionAnimated : bool;
  type_i : nat;
  input_value : string
}.

Definition set_now (t : Q) (w : World) : World :=
  {| now := t; animated := animated w; stats_observer := stats_observer w;
     anim_observer := anim_observer w; transactionObserver := transactionObserver w;
     transactionAnimated := transactionAnimated w;
     type_i := type_i w; input_value := input_value w |}.

Definition set_animated (s : gset nat) (w : World) : World :=
  {| now := now w; animated := s; stats_observer := stats_observer w;
     anim_observer := anim_observer w; transactionObserver := transactionObserver w;
     transactionAnimated := transactionAnimated w;
     type_i := type_i w; input_value := input_value w |}.

Definition set_stats_observer (b : bool) (w : World) : World :=
  {| now := now w; animated := animated w; stats_observer := b;
     anim_observer := anim_observer w; transactionObserver := transactionObserver w;
     transactionAnimated := transactionAnimated w;
     type_i := type_i w; input_value := input_value w |}.

Definition set_anim_observer (b : bool) (w : World) : World :=
  {| now := now w; animated := animated w; stats_observer := stats_observer w;
     anim_observer := b; transactionObserver := transactionObserver w;
     transactionAnimated := transactionAnimated w;
     type_i := type_i w; input_value := input_value w |}.

Definition set_transactionObserver (b : bool) (w : World) : World :=
  {| now := now w; animated := animated w; stats_observer := stats_observer w;
     anim_observer := anim_observer w; transactionObserver := b;
     transactionAnimated := transactionAnimated w;
     type_i := type_i w; input_value := input_value w |}.

Definition set_transactionAnimated (b : bool) (w : World) : World :=
  {| now := now w; animated := animated w; stats_observer := stats_observer w;
     anim_observer := anim_observer w; transactionObserver := transactionObserver w;
     transactionAnimated := b;
     type_i := type_i w; input_value := input_value w |}.

Definition set_typing (i : nat) (value : string) (w : World) : World :=
  {| now := now w; animated := animated w; stats_observer := stats_observer w;
     anim_observer := anim_observer w; transactionObserver := transactionObserver w;
     transactionAnimated := transactionAnimated w;
     type_i := i; input_value := value |}.

(** The state when the script is loaded, at clock [t], with [value] in
    the search input. *)
Definition initial (t : Q) (value : string) : World :=
  {| now := t; animated := ∅; stats_observer := false; anim_observer := false;
     transactionObserver := false; transactionAnimated := false;
     type_i := 0; input_value := value |}.

Abbreviation js := (js World callback).

(** ** [StatsCounter] *)
Module StatsCounter.
Section WithDocument.
Context (doc : Document).

(** The body of the closure [update], called with the frame's
    timestamp. *)
Definition run_update (el : Element) (target : number) (duration decimals : integer)
    (prefix suffix : string) (start : Q) (now : Q) : js unit :=
  let elapsed := number_sub (Fin now) (Fin start) in
  let progress := Math_min (number_div elapsed (of_integer duration)) (Fin 1%Q) in
  let eased :=
    number_sub (Fin 1%Q)
      (Math_pow (pow_approximated doc) (number_sub (Fin 1%Q) progress) (Fin 4%Q)) in
  let current := number_mul target eased in
  formatted <-
    (if truthy decimals
     then match toFixed current decimals with
          | inr s => ret s
          | inl e => throw e
          end
     else ret (toString (Math_floor current))) ;;
  emit (set_textContent el (prefix +:+ formatted +:+ suffix)) ;;;
  when (number_lt progress (Fin 1%Q))
    (emit (requestAnimationFrame
             (update el target duration decimals prefix suffix start))).

Definition animate (el : Element) : js unit :=
  emit (enter "animate" (Some el)) ;;;
  let target := parseFloat (ToString (dataset doc el "target")) in
  let duration := or_number (parseInt (ToString (dataset doc el "duration"))) 2000 in
  let decimals := or_number (parseInt (ToString (dataset doc el "decimals"))) 0 in
  let prefix := or_empty (dataset doc el "prefix") in
  let suffix := or_empty (dataset doc el "suffix") in
  if isNaN target then skip
  else
    w <- get ;;
    let start := now w in
    emit (requestAnimationFrame
            (update el target duration decimals prefix suffix start)).

Definition fallback : js unit :=
  forEach (querySelectorAll doc ".stats-value[data-target]") (λ el i,
    emit (setTimeout (fallbackAnimate el) (500 + Z.of_nat i * 200))).

(** The callback of the observer built by [init]. *)
Definition onIntersect (entries : list IntersectionObserverEntry) : js unit :=
  forEach entries (λ entry _,
    w <- get ;;
    if isIntersecting entry
       && negb (bool_decide (entry_target entry ∈ animated w))
    then
      animate (entry_target entry) ;;;
      modify (λ w, set_animated ({[entry_target entry]} ∪ animated w) w) ;;;
      emit (unobserve "stats" (entry_target entry))
    else skip).

Definition init : js unit :=
  if negb (IntersectionObserver_supported doc) then fallback
  else
    emit (new_IntersectionObserver "stats") ;;;
    modify (set_stats_observer true) ;;;
    forEach (querySelectorAll doc ".stats-value[data-target]") (λ el _,
      emit (observe "stats" el)).
End WithDocument.
End StatsCounter.

(** ** [Animations] *)
Module Animations.
Section WithDocument.
Context (doc : Document).

Definition animateTransactions : js unit :=
  emit (enter "animateTransactions" None) ;;;
  let items := querySelectorAll doc ".transaction-item" in
  forEach items (λ item i,
    emit (setTimeout (itemRun item) (Z.of_nat i * 200))) ;;;
  emit (setTimeout circlesStart (Z.of_nat (length items) * 200 + 500)) ;;;
  emit (setTimeout scrollStart (Z.of_nat (length items) * 200 + 2000)).

Definition run_itemRun (item : Element) : js unit :=
  emit (set_style item "animationPlayState" "running").

Definition run_scrollStart : js unit :=
  match querySelector doc ".transaction-list" with
  | Some list => emit (set_style list "animationPlayState" "running")
  | None => skip
  end.

Definition addCircleEvents (circle : Element) : js unit :=
  emit (addEventListener circle "click").

Definition animateCircles : js unit :=
  forEach (querySelectorAll doc ".circle") (λ circle i,
    emit (setTimeout (circleRun circle) (Z.of_nat i * 200))).

Definition run_circleRun (circle : Element) : js unit :=
  emit (set_style circle "animationPlayState" "running") ;;;
  addCircleEvents circle.

(** The callback of the observer built by [setupMainObserver]. *)
Definition onIntersect (entries : list IntersectionObserverEntry) : js unit :=
  forEach entries (λ entry _,
    when (isIntersecting entry)
      (emit (classList_add (entry_target entry) "animate-in") ;;;
       emit (unobserve "animations" (entry_target entry)))).

Definition setupMainObserver : js unit :=
  emit (new_IntersectionObserver "animations") ;;;
  modify (set_anim_observer true).

(** The callback of the observer built by [setupTransactionObserver]. *)
Definition onTransactionIntersect (entries : list IntersectionObserverEntry)
  : js unit :=
  forEach entries (λ entry _,
    w <- get ;;
    if isIntersecting entry && negb (transactionAnimated w) then
      animateTransactions ;;;
      modify (set_transactionAnimated true) ;;;
      emit (unobserve "transaction" (entry_target entry))
    else skip).

Definition setupTransactionObserver : js unit :=
  emit (new_IntersectionObserver "transaction") ;;;
  modify (set_transactionObserver true) ;;;
  match querySelector doc ".expense-sec-right" with
  | Some section => emit (observe "transaction" section)
  | None => skip
  end.

Definition observeElements : js unit :=
  forEach (querySelectorAll doc animateElements) (λ el i,
    emit (set_style el "animationDelay" (ms (Z.of_nat i * STAGGER_DELAY))) ;;;
    w <- get ;;
    when (anim_observer w) (emit (observe "animations" el))).

Definition fallback : js unit :=
  forEach (querySelectorAll doc animateElements) (λ el i,
    emit (setTimeout (fallbackAnimateIn el) (Z.of_nat i * STAGGER_DELAY))) ;;;
  emit (setTimeout fallbackTransactions 2000).

Definition run_fallbackAnimateIn (el : Element) : js unit :=
  emit (classList_add el "animate-in").

Definition init : js unit :=
  if negb (IntersectionObserver_supported doc) then fallback
  else
    setupMainObserver ;;;
    setupTransactionObserver ;;;
    observeElements.

Definition restart : js unit :=
  modify (set_transactionAnimated false) ;;;
  match querySelector doc ".expense-sec-right" with
  | Some section => animateTransactions
  | None => skip
  end.
End WithDocument.
End Animations.

(** ** [SearchUI] *)
Module SearchUI.
Section WithDocument.
Context (doc : Document).

Definition phases : list string :=
  ["#phaseIcon"; "#phaseInput"; "#phaseProcessing"; "#phaseResults"].

(** [$(selector)?.style.setProperty('display', value)] *)
Definition setDisplay (selector : option string) (value : string) : js unit :=
  match selector ≫= querySelector doc with
  | Some element => emit (set_style element "display" value)
  | None => skip
  end.

Definition text : string := "Jack I".

(** The closure [type] of [typeText]; its counter [i] is in the state. *)
Definition run_type (input : Element) : js unit :=
  w <- get ;;
  match String.get (type_i w) text with
  | Some c =>
      let value := input_value w +:+ String c EmptyString in
      modify (set_typing (S (type_i w)) value) ;;;
      emit (set_value input value) ;;;
      emit (setTimeout (type input) 200)
  | None => skip
  end.

Definition typeText : js unit :=
  match querySelector doc "#searchInput" with
  | None => skip
  | Some input =>
      modify (λ w, set_typing 0 (input_value w) w) ;;;
      run_type input
  end.

Definition showSuggestions : js unit :=
  forEach (querySelectorAll doc ".suggestion-item") (λ item i,
    emit (setTimeout (suggestionReveal item) (800 + Z.of_nat i * 300))).

Definition run_suggestionReveal (item : Element) : js unit :=
  emit (set_style item "opacity" "1") ;;;
  emit (set_style item "transform" "translateX(0)").

Definition startSequence : js unit :=
  forEach phases (λ phaseId i,
    emit (setTimeout (phase phaseId i) (Z.of_nat i * 2000 + 500))).

Definition run_phase (phaseId : string) (i : nat) : js unit :=
  when (0 <? i)%nat (setDisplay (phases !! (i - 1)%nat) "none") ;;;
  setDisplay (Some phaseId) "block" ;;;
  when (i =? 1)%nat typeText ;;;
  when (i =? 3)%nat showSuggestions.

Definition bindEvents : js unit :=
  match querySelector doc "#searchInput" with
  | Some input =>
      emit (addEventListener input "input") ;;;
      emit (addEventListener input "focus") ;;;
      emit (addEventListener input "blur")
  | None => skip
  end ;;;
  forEach (querySelectorAll doc ".suggestion-item") (λ item _,
    emit (addEventListener item "click")).

Definition init : js unit :=
  match querySelector doc "#searchInterface" with
  | None => skip
  | Some _ =>
      bindEvents ;;;
      startSequence
  end.
End WithDocument.
End SearchUI.

(** ** [ZOQQApp] *)
Module ZOQQApp.
(** [modules.forEach(module => module.init?.())] over a table of named
    [init] functions. *)
Definition initAll (modules : list (string * js unit)) : js unit :=
  forEach modules (λ '(name, init) _,
    emit (enter name None) ;;;
    init).

(** The table of the script; the five modules that are not embedded
    here are arguments. *)
Definition modules (doc : Document)
    (MobileNav ScrollFX SmoothScroll NavStates Buttons : js unit)
  : list (string * js unit) :=
  [ ("MobileNav", MobileNav);
    ("ScrollFX", ScrollFX);
    ("StatsCounter", StatsCounter.init doc);
    ("Animations", Animations.init doc);
    ("SmoothScroll", SmoothScroll);
    ("NavStates", NavStates);
    ("SearchUI", SearchUI.init doc);
    ("Buttons", Buttons) ].

Definition init (doc : Document) (modules : list (string * js unit)) : js unit :=
  try_catch
    (if requestIdleCallback_supported doc
     then emit (requestIdleCallback idleInit)
     else initAll modules)
    (λ error, when (reportError_supported doc) (emit (reportError error))).
End ZOQQApp.

(** What each closure does when the host calls it; [arg] is the
    timestamp an animation frame passes, [modules] the table captured by
    the idle callback. *)
Definition run_callback (doc : Document) (modules : list (string * js unit))
    (cb : callback) (arg : Q) : js unit :=
  match cb with
  | update el target duration decimals prefix suffix start =>
      StatsCounter.run_update doc el target duration decimals prefix suffix start arg
  | fallbackAnimate el => StatsCounter.animate doc el
  | itemRun item => Animations.run_itemRun item
  | circlesStart => Animations.animateCircles doc
  | scrollStart => Animations.run_scrollStart doc
  | circleRun circle => Animations.run_circleRun circle
  | fallbackAnimateIn el => Animations.run_fallbackAnimateIn el
  | fallbackTransactions => Animations.animateTransactions doc
  | phase phaseId i => SearchUI.run_phase doc phaseId i
  | type input => SearchUI.run_type input
  | suggestionReveal item => SearchUI.run_suggestionReveal item
  | idleInit => ZOQQApp.initAll modules
  end.

End Production.

(** * The host side: reading traces, animation frames, timers *)

Section Traces.
Context {C : Type}.

(** The frame callbacks a trace requested, in order. *)
Definition requested (t : list (effect C)) : list C :=
  omap (λ e, match e with requestAnimationFrame cb => Some cb | _ => None end) t.

(** The one-shot timers a trace registered: closure and delay. *)
Definition timers_of (t : list (effect C)) : list (C * Z) :=
  omap (λ e, match e with setTimeout cb d => Some (cb, d) | _ => None end) t.

(** The texts a trace wrote into elements. *)
Definition written (t : list (effect C)) : list (Element * string) :=
  omap (λ e, match e with set_textContent el s => Some (el, s) | _ => None end) t.

(** The functions a trace entered, with their argument. *)
Definition entered (t : list (effect C)) : list (string * option Element) :=
  omap (λ e, match e with enter f a => Some (f, a) | _ => None end) t.

(** How often [f] was entered. *)
Definition calls (f : string) (t : list (effect C)) : nat :=
  length (filter (λ c, c.1 = f) (entered t)).

(** A timer registered at clock [now] with delay [d] is due at
    [now + d]. *)
Definition timeline (now : Q) (t : list (effect C)) : list (Q * C) :=
  map (λ '(cb, d), ((now + inject_Z d)%Q, cb)) (timers_of t).

(** The order in which the host fires pending timers: by due time, and
    by registration among equal due times. *)
Fixpoint insert_timer (x : Q * C) (l : list (Q * C)) : list (Q * C) :=
  match l with
  | [] => [x]
  | y :: r => if Qle_bool x.1 y.1 then x :: l else y :: insert_timer x r
  end.
Definition fire_order (l : list (Q * C)) : list (Q * C) :=
  foldr insert_timer [] l.
End Traces.

Section Host.
Context {W C : Type} (run : C → Q → js W C unit).

(** One task after the other; an error that escapes a task is reported
    by the host and the next task still runs. *)
Fixpoint run_tasks (tasks : list (js W C unit)) (w : W) : W * list (effect C) :=
  match tasks with
  | [] => (w, [])
  | task :: rest =>
      match task w with
      | (w1, t1, _) =>
          match run_tasks rest w1 with (w2, t2) => (w2, t1 ++ t2) end
      end
  end.

(** One animation frame: every pending callback is called with the
    frame's timestamp. *)
Definition run_frame (pending : list C) (timestamp : Q) (w : W)
  : W * list (effect C) :=
  run_tasks (map (λ cb, run cb timestamp) pending) w.

(** Successive frames; the callbacks requested during a frame are the
    pending ones of the next.  Returns the callbacks still pending. *)
Fixpoint run_frames (pending : list C) (timestamps : list Q) (w : W)
  : W * list (effect C) * list C :=
  match timestamps with
  | [] => (w, [], pending)
  | timestamp :: rest =>
      match run_frame pending timestamp w with
      | (w1, t1) =>
          match run_frames (requested t1) rest w1 with
          | (w2, t2, p) => (w2, t1 ++ t2, p)
          end
      end
  end.
End Host.

Section Timers.
Context {W C : Type} (run : C → Q → js W C unit).
(** [set_clock] moves [performance.now()]; [same] tells whether two
    closures are the same function, for [clearInterval]. *)
Context (set_clock : Q → W → W) (same : C → C → bool).

Record timer : Type := {
  due : Q;
  period : option Z;
  closure : C
}.

(** Pending timers are kept in firing order: a new timer goes behind those
    that are due no later. *)
Fixpoint schedule (x : timer) (l : list timer) : list timer :=
  match l with
  | [] => [x]
  | y :: r => if Qle_bool (due y) (due x) then y :: schedule x r else x :: l
  end.

Definition register (now : Q) (pending : list timer) (e : effect C) : list timer :=
  match e with
  | setTimeout cb d =>
      schedule {| due := (now + inject_Z d)%Q; period := None; closure := cb |} pending
  | setInterval cb d =>
      schedule {| due := (now + inject_Z d)%Q; period := Some d; closure := cb |} pending
  | clearInterval cb =>
      List.filter (λ t, negb (match period t with Some _ => same cb (closure t) | None => false end))
        pending
  | _ => pending
  end.

(** The timer loop, for at most [fuel] tasks: the first pending timer
    fires at its due time, an interval is armed again, and the timers the
    task registers are added.  Returns what fired, when. *)
Fixpoint event_loop (fuel : nat) (pending : list timer) (w : W) : list (Q * C) :=
  match fuel, pending with
  | S n, t :: rest =>
      match run (closure t) (due t) (set_clock (due t) w) with
      | (w1, effects, _) =>
          let rearmed :=
            match period t with
            | Some d =>
                schedule {| due := (due t + inject_Z d)%Q; period := Some d;
                            closure := closure t |} rest
            | None => rest
            end in
          (due t, closure t) :: event_loop n (fold_left (register (due t)) effects rearmed) w1
      end
  | _, _ => []
  end.
End Timers.

(** * What the specification says, in its own words *)

(** [clamp(x, lo, hi)] *)
Definition clamp (x lo hi : number) : number := Math_max lo (Math_min x hi).

(** [value(t) = start + (target - start) * (1 - (1 - t)^4)], in the
    arithmetic of the script: every operation rounded to binary64, the
    power taken by [Math.pow]. *)
Definition ease_out_quart (doc : Document) (start target t : number) : number :=
  number_add start
    (number_mul (number_sub target start)
       (number_sub (Fin 1%Q)
          (Math_pow (pow_approximated doc) (number_sub (Fin 1%Q) t) (Fin 4%Q)))).

(** "The exact target formatted with the specified decimals and
    prefix/suffix" is the text written: the target printed with that many
    decimals, as [toFixed] prints it. *)
Definition exact_target_shown (el : Element) (target : number) (decimals : Z)
    (prefix suffix : string) (shown : list (Element * string)) : Prop :=
  ∃ s, toFixed target (Fin decimals) = inr s ∧ shown = [(el, prefix +:+ s +:+ suffix)].

(** * Definitions used in the statements *)

Local Open Scope Q_scope.

(** A rational that is a binary64 value: rounding leaves it as it is. *)
Definition binary64 (q : Q) : Prop :=
  match round64 q with
  | Fin r => r == q
  | _ => False
  end.

(** Equality of numbers up to the way a rational is written, and their
    order; [NaN] is below and above nothing. *)
Definition number_eq (x y : number) : Prop :=
  match x, y with
  | NaN, NaN => True
  | Infinity a, Infinity b => a = b
  | Fin p, Fin q => p == q
  | _, _ => False
  end.
Definition number_le (x y : number) : Prop :=
  match x, y with
  | NaN, _ | _, NaN => False
  | Infinity true, _ | _, Infinity false => True
  | Fin p, Fin q => p <= q
  | _, _ => False
  end.
Definition integer_le (x y : integer) : Prop :=
  match x, y with
  | NaN, _ | _, NaN => False
  | Infinity true, _ | _, Infinity false => True
  | Fin p, Fin q => (p <= q)%Z
  | _, _ => False
  end.

(** A number as the script can hold it: a finite one is a binary64
    value. *)
Definition is_number (x : number) : Prop :=
  match x with
  | Fin q => binary64 q
  | _ => True
  end.

(** The eased share [1 - Math.pow(1 - progress, 4)] of both drivers. *)
Definition eased (doc : Document) (progress : number) : number :=
  number_sub (Fin 1)
    (Math_pow (pow_approximated doc) (number_sub (Fin 1) progress) (Fin 4)).

(** The time a run has taken at the timestamp [t], and its share of the
    duration, as the drivers compute them. *)
Definition elapsed (start t : Q) : number := number_sub (Fin t) (Fin start).
Definition ratio (start : Q) (duration : integer) (t : Q) : number :=
  number_div (elapsed start t) (of_integer duration).

(** What a tick prints for the value [v] when [decimals] is in the range
    [toFixed] accepts: [v.toFixed(decimals)] for a positive [decimals],
    [Math.floor(v)] for 0. *)
Definition tick_text (decimals : Z) (v : number) : string :=
  if (0 <? decimals)%Z then
    match v with
    | NaN => "NaN"
    | Infinity false => "Infinity"
    | Infinity true => "-Infinity"
    | Fin q => toFixed_fin q (Z.to_nat decimals)
    end
  else toString (Math_floor v).

(** What the instrumented driver does after the text of the last tick. *)
Definition verbose_completion (el : Element) : list (effect Verbose.callback) :=
  [ classList_remove el "counting"; classList_add el "completed"; console "log";
    setTimeout (Verbose.removeCompleted el) 600 ].

(** "The value written equals start + (target - start) * (1 - (1 - t)^4)
    with start = 0 and t = clamp(elapsed / duration, 0, 1)", for a tick at
    the ratio [elapsed / duration]. *)
Definition clamped_value_shown (doc : Document) (el : Element) (target : Q)
    (decimals : Z) (prefix suffix : string) (ratio : number)
    (shown : list (Element * string)) : Prop :=
  shown =
    [(el, prefix +:+ tick_text decimals
                       (ease_out_quart doc (Fin 0) (Fin target)
                          (clamp ratio (Fin 0) (Fin 1)))
            +:+ suffix)].

(** A [Math.pow] that is correctly rounded at whole exponents, for the
    examples. *)
Definition correctly_rounded_pow (base exponent : Q) : number :=
  if is_integral exponent then round64 (base ^ Qfloor exponent) else NaN.

(** What some statements ask of the host's [Math.pow] at the exponent 4:
    that it does not decrease when the base grows from 0 on, and that it
    is 1 at the base 1. *)
Definition pow4_monotone (doc : Document) : Prop :=
  ∀ x y : Q, 0 <= x → x <= y →
    number_le (Math_pow (pow_approximated doc) (Fin x) (Fin 4))
              (Math_pow (pow_approximated doc) (Fin y) (Fin 4)).
Definition pow4_one (doc : Document) : Prop :=
  number_eq (Math_pow (pow_approximated doc) (Fin 1) (Fin 4)) (Fin 1).

(** A page used in the examples: three counters (the second with a target
    that is no number), two entrance elements, two transaction items in
    the section 8, and the search widget. *)
Definition sample_page (observers idle : bool) : Document :=
  {| pow_approximated := correctly_rounded_pow;
     IntersectionObserver_supported := observers;
     requestIdleCallback_supported := idle;
     reportError_supported := true;
     style_readback := λ s, s;
     querySelectorAll := λ selector,
       if String.eqb selector ".stats-value[data-target]" then [1; 2; 3]%nat
       else if String.eqb selector animateElements then [4; 5]%nat
       else if String.eqb selector ".transaction-item" then [6; 7]%nat
       else if String.eqb selector ".expense-sec-right" then [8]%nat
       else if String.eqb selector ".transaction-list" then [9]%nat
       else if String.eqb selector ".circle" then [10; 11]%nat
       else if String.eqb selector "#searchInterface" then [12]%nat
       else if String.eqb selector "#searchSuggestions" then [13]%nat
       else if String.eqb selector "#searchInput" then [14]%nat
       else if String.eqb selector ".suggestion-item" then [15; 16]%nat
       else if String.eqb selector "#phaseIcon" then [17]%nat
       else if String.eqb selector "#phaseInput" then [18]%nat
       else if String.eqb selector "#phaseProcessing" then [19]%nat
       else if String.eqb selector "#phaseResults" then [20]%nat
       else [];
     getElementById := λ id,
       if String.eqb id "searchInput" then Some 14%nat
       else if String.eqb id "phaseIcon" then Some 17%nat
       else if String.eqb id "phaseInput" then Some 18%nat
       else if String.eqb id "phaseProcessing" then Some 19%nat
       else if String.eqb id "phaseResults" then Some 20%nat
       else None;
     dataset := λ el name,
       match el with
       | 1%nat =>
           if String.eqb name "target" then Some "1234"
           else if String.eqb name "duration" then Some "2000"
           else if String.eqb name "prefix" then Some "$"
           else if String.eqb name "suffix" then Some "+"
           else None
       | 2%nat => if String.eqb name "target" then Some "abc" else None
       | 3%nat =>
           if String.eqb name "target" then Some "5"
           else if String.eqb name "decimals" then Some "-1"
           else None
       | _ => None
       end;
     classList_contains := λ el cls, (el =? 10)%nat && String.eqb cls "active" |}.

(** Every host call [m] makes, from any state, satisfies [P]. *)
Definition emits_only {W C A} (P : effect C → Prop) (m : js W C A) : Prop :=
  ∀ w e, e ∈ trace_of (m w) → P e.

(** The closures that carry a phase of the search sequence. *)
Definition verbose_phase (cb : Verbose.callback) : bool :=
  match cb with
  | Verbose.phaseInput | Verbose.phaseProcessing | Verbose.phaseResults => true
  | _ => false
  end.
Definition production_phase (cb : Production.callback) : bool :=
  match cb with
  | Production.phase _ _ => true
  | _ => false
  end.

(** A host call that registers no phase closure. *)
Definition registers_no {C} (is_phase : C → bool) (e : effect C) : Prop :=
  match e with
  | setTimeout cb _ | setInterval cb _ | requestAnimationFrame cb
  | requestIdleCallback cb => is_phase cb = false
  | _ => True
  end.

(** The timers of one run of the transaction sequence: the items one by
    one from offset 0, then the circles, then the scrolling list. *)
Definition verbose_transaction_timers (doc : Document)
  : list (Verbose.callback * Z) :=
  imap (λ i item, (Verbose.itemAppear item, (Z.of_nat i * 200)%Z))
    (querySelectorAll doc ".transaction-item")
  ++ [ (Verbose.circlesStart,
        (Z.of_nat (length (querySelectorAll doc ".transaction-item")) * 200 + 500)%Z);
       (Verbose.scrollStart,
        (Z.of_nat (length (querySelectorAll doc ".transaction-item")) * 200 + 2000)%Z) ].
Definition production_transaction_timers (doc : Document)
  : list (Production.callback * Z) :=
  imap (λ i item, (Production.itemRun item, (Z.of_nat i * 200)%Z))
    (querySelectorAll doc ".transaction-item")
  ++ [ (Production.circlesStart,
        (Z.of_nat (length (querySelectorAll doc ".transaction-item")) * 200 + 500)%Z);
       (Production.scrollStart,
        (Z.of_nat (length (querySelectorAll doc ".transaction-item")) * 200 + 2000)%Z) ].

(** The frame the driver of the counter [el] requests when it starts at
    the clock [start]: the closure with what it read from the element's
    attributes, and none when [data-target] is no number. *)
Definition verbose_counter_start (doc : Document) (el : Element) (start : Q)
  : list Verbose.callback :=
  let target := parseFloat (ToString (dataset doc el "target")) in
  if isNaN target then []
  else [ Verbose.updateCounter el target
           (or_number (parseInt (ToString (dataset doc el "duration"))) 2000)
           (or_number (parseInt (ToString (dataset doc el "decimals"))) 0)
           (or_empty (dataset doc el "prefix")) (or_empty (dataset doc el "suffix"))
           start 0 ].
Definition production_counter_start (doc : Document) (el : Element) (start : Q)
  : list Production.callback :=
  let target := parseFloat (ToString (dataset doc el "target")) in
  if isNaN target then []
  else [ Production.update el target
           (or_number (parseInt (ToString (dataset doc el "duration"))) 2000)
           (or_number (parseInt (ToString (dataset doc el "decimals"))) 0)
           (or_empty (dataset doc el "prefix")) (or_empty (dataset doc el "suffix"))
           start ].

(** The frames a trace requested for the counter [el]. *)
Definition verbose_counter_frames (el : Element) (t : list (effect Verbose.callback))
  : list Verbose.callback :=
  List.filter (λ cb, match cb with
                     | Verbose.updateCounter e _ _ _ _ _ _ _ => (e =? el)%nat
                     | _ => false
                     end) (requested t).
Definition production_counter_frames (el : Element)
    (t : list (effect Production.callback)) : list Production.callback :=
  List.filter (λ cb, match cb with
                     | Production.update e _ _ _ _ _ _ => (e =? el)%nat
                     | _ => false
                     end) (requested t).

(** An observer callback: [body] on every entry delivered. *)
Definition callback_of {W C} (body : IntersectionObserverEntry → js W C unit)
    (entries : list IntersectionObserverEntry) : js W C unit :=
  forEach entries (λ entry _, body entry).

(** An entry that reports the element [target] as intersecting. *)
Definition intersects (target : Element) (entry : IntersectionObserverEntry) : bool :=
  isIntersecting entry && bool_decide (entry_target entry = target).

(** The host delivers batches of entries to an observer callback, each
    batch as a task of its own at the clock given with it. *)
Definition deliver {W C} (set_now : Q → W → W)
    (callback : list IntersectionObserverEntry → js W C unit)
    (deliveries : list (Q * list IntersectionObserverEntry)) (w : W)
  : W * list (effect C) :=
  run_tasks (map (λ d w, callback d.2 (set_now d.1 w)) deliveries) w.

(** The clock of the first delivery with an entry that is [relevant]. *)
Definition first_seen (relevant : IntersectionObserverEntry → bool)
    (deliveries : list (Q * list IntersectionObserverEntry)) : option Q :=
  fst <$> List.find (λ d, existsb relevant d.2) deliveries.

(** Whether the tick at timestamp [t] is the last one of a run started at
    [start]: the test [progress < 1] fails. *)
Definition tick_done (start : Q) (duration : integer) (t : Q) : bool :=
  negb (number_lt (Math_min (ratio start duration t) (Fin 1)) (Fin 1)).

(** The frames a run takes part in: up to the first one that is done. *)
Fixpoint frames_used (start : Q) (duration : integer) (ts : list Q) : list Q :=
  match ts with
  | [] => []
  | t :: rest =>
      if tick_done start duration t then [t] else t :: frames_used start duration rest
  end.

(** The value of the drivers at timestamp [t]. *)
Definition counter_value (doc : Document) (target : number) (start : Q)
    (duration : integer) (t : Q) : number :=
  ease_out_quart doc (Fin 0) target (Math_min (ratio start duration t) (Fin 1)).

(** Two closures of the instrumented variant are the same interval
    callback. *)
Definition same_interval (a b : Verbose.callback) : bool :=
  match a, b with
  | Verbose.typeTick x, Verbose.typeTick y => (x =? y)%nat
  | _, _ => false
  end.

(** The timers that fire after [task] has run at clock 0 on the sample
    page, in the instrumented and in the production variant. *)
Definition verbose_fired (fuel : nat) (task : Verbose.js unit) : list (Q * Verbose.callback) :=
  let r := task (Verbose.initial 0) in
  event_loop (Verbose.run_callback (sample_page true false)) Verbose.set_now
    same_interval fuel (fold_left (register same_interval 0) (trace_of r) []) (state_of r).
Definition production_fired (fuel : nat) (task : Production.js unit)
  : list (Q * Production.callback) :=
  let r := task (Production.initial 0 "") in
  event_loop (Production.run_callback (sample_page true false) []) Production.set_now
    (λ _ _, false) fuel (fold_left (register (λ _ _, false) 0) (trace_of r) []) (state_of r).

(** * Further readings of a trace *)

(** The values a trace assigned to inputs. *)
Definition values_set {C} (t : list (effect C)) : list (Element * string) :=
  omap (λ e, match e with set_value el s => Some (el, s) | _ => None end) t.

(** The intervals a trace cleared. *)
Definition intervals_cleared {C} (t : list (effect C)) : list C :=
  omap (λ e, match e with clearInterval cb => Some cb | _ => None end) t.

(** The elements a trace handed to an observer, by the observer's name. *)
Definition observed {C} (t : list (effect C)) : list (string * Element) :=
  omap (λ e, match e with observe name el => Some (name, el) | _ => None end) t.

(** [m] ends normally from every state. *)
Definition never_throws {W C A} (m : js W C A) : Prop :=
  ∀ w, ∃ a, result_of (m w) = Normal a.
(** * [debounce] and [throttle] *)

Module Debounce.
Section WithArguments.
(** [A] is the type of the argument lists [...args]. *)
Context {A : Type}.

(** The host's pending one-shot timers, each with its id, its due time and
    the arguments its closure [later] captured; the variable [timeout] of
    the debounced function ([t] in the production variant); and the calls
    of [func] made so far, with the clock at each. *)
Record World : Type := {
  pending : list (nat * Q * A);
  next_id : nat;
  timeout : option nat;
  invoked : list (Q * A)
}.

Definition start : World :=
  {| pending := []; next_id := 0; timeout := None; invoked := [] |}.

(** [clearTimeout(id)]: an id that is not pending, or [undefined], is
    ignored. *)
Definition clearTimeout (id : option nat) (w : World) : World :=
  {| pending := List.filter (λ t, negb (bool_decide (Some t.1.1 = id))) (pending w);
     next_id := next_id w; timeout := timeout w; invoked := invoked w |}.

(** [timeout = setTimeout(later, wait)] at clock [now]. *)
Definition setTimeout_later (now wait : Q) (a : A) (w : World) : World :=
  {| pending := pending w ++ [(next_id w, (now + wait)%Q, a)];
     next_id := S (next_id w); timeout := Some (next_id w); invoked := invoked w |}.

(** The function [debounce] returns, called at clock [now]. *)
Definition executedFunction (wait now : Q) (a : A) (w : World) : World :=
  setTimeout_later now wait a (clearTimeout (timeout w) w).

(** The closure [later] of a timer, run by the host at clock [now].  The
    instrumented variant clears [timeout] first ([clears]); the production
    variant calls [fn] only. *)
Definition later (clears : bool) (now : Q) (a : A) (w : World) : World :=
  let w1 := if clears then clearTimeout (timeout w) w else w in
  {| pending := pending w1; next_id := next_id w1; timeout := timeout w1;
     invoked := invoked w1 ++ [(now, a)] |}.

(** The host fires a timer: it leaves the pending list and its closure
    runs at its due time.  A timer cleared in between does not fire. *)
Definition fire (clears : bool) (t : nat * Q * A) (w : World) : World :=
  if existsb (λ t', t'.1.1 =? t.1.1)%nat (pending w) then
    later clears t.1.2 t.2
      {| pending := List.filter (λ t', negb (t'.1.1 =? t.1.1)%nat) (pending w);
         next_id := next_id w; timeout := timeout w; invoked := invoked w |}
  else w.

(** Timers in firing order: by due time, and by registration among equal
    due times. *)
Fixpoint insert_due (x : nat * Q * A) (l : list (nat * Q * A)) : list (nat * Q * A) :=
  match l with
  | [] => [x]
  | y :: r => if Qle_bool y.1.2 x.1.2 then y :: insert_due x r else x :: l
  end.
Definition by_due (l : list (nat * Q * A)) : list (nat * Q * A) :=
  foldl (λ acc x, insert_due x acc) [] l.

(** The clock reaches [now]: every timer due by then fires.  A timer due
    at the very time of a call fires before the call. *)
Definition advance (clears : bool) (now : Q) (w : World) : World :=
  foldl (λ w t, fire clears t w) w
    (by_due (List.filter (λ t, Qle_bool t.1.2 now) (pending w))).

(** Calls of the debounced function at the given clocks, then the timers
    left run out. *)
Fixpoint run (clears : bool) (wait : Q) (calls : list (Q * A)) (w : World) : World :=
  match calls with
  | [] => foldl (λ w t, fire clears t w) w (by_due (pending w))
  | (now, a) :: rest =>
      run clears wait rest (executedFunction wait now a (advance clears now w))
  end.

(** The state between two calls: one pending timer, the one [timeout]
    names, due [wait] after the call at [t]. *)
Definition armed (t wait : Q) (a : A) (done : list (Q * A)) (w : World) : Prop :=
  ∃ id, pending w = [(id, (t + wait)%Q, a)] ∧ timeout w = Some id ∧ invoked w = done.

(** The calls that no other call follows within [wait], each at the time
    its timer is due. *)
Fixpoint quiet_after (wait : Q) (calls : list (Q * A)) : list (Q * A) :=
  match calls with
  | [] => []
  | (t, a) :: rest =>
      match rest with
      | [] => [((t + wait)%Q, a)]
      | (now, _) :: _ =>
          if Qle_bool (t + wait) now then ((t + wait)%Q, a) :: quiet_after wait rest
          else quiet_after wait rest
      end
  end.

(** Calls that start at [t] or later and follow each other by less than
    [wait]. *)
Fixpoint burst (wait t : Q) (calls : list (Q * A)) : Prop :=
  match calls with
  | [] => True
  | (now, _) :: rest => (t <= now)%Q ∧ (now < t + wait)%Q ∧ burst wait now rest
  end.
End WithArguments.
Arguments World A : clear implicits.
End Debounce.

Module Throttle.
Section WithArguments.
Context {A : Type}.

(** The variable [l] of the throttled function and the calls of [fn] made
    so far, with [Date.now()] at each. *)
Record World : Type := {
  l : Z;
  invoked : list (Z * A)
}.

Definition start : World := {| l := 0; invoked := [] |}.

(** The function [throttle] returns, called when [Date.now()] is [n]. *)
Definition throttled (ms n : Z) (a : A) (w : World) : World :=
  if (ms <=? n - l w)%Z then {| l := n; invoked := invoked w ++ [(n, a)] |}
  else w.

Definition run (ms : Z) (calls : list (Z * A)) (w : World) : World :=
  foldl (λ w c, throttled ms c.1 c.2 w) w calls.
End WithArguments.
Arguments World A : clear implicits.
End Throttle.
(** * Lemmas on numbers and formatting *)

(** * Powers of two *)

Lemma pow2_pos (k : Z) : 0 < 2 ^ k.
Proof. apply Qpower_0_lt. reflexivity. Qed.

Lemma pow2_le (k l : Z) : (k <= l)%Z → 2 ^ k <= 2 ^ l.
Proof. intros H. apply Qpower_le_compat_l; [exact H | discriminate]. Qed.

Lemma pow2_lt (k l : Z) : (k < l)%Z → 2 ^ k < 2 ^ l.
Proof. intros H. apply Qpower_lt_compat_l; [exact H | reflexivity]. Qed.

Lemma pow2_lt_inv (k l : Z) : 2 ^ k < 2 ^ l → (k < l)%Z.
Proof. intros H. apply (Qpower_lt_compat_l_inv 2); [exact H | reflexivity]. Qed.

Lemma pow2_plus (k l : Z) : 2 ^ (k + l) == 2 ^ k * 2 ^ l.
Proof. apply Qpower_plus. discriminate. Qed.

Lemma pow2_minus (k l : Z) : 2 ^ (k - l) == 2 ^ k / 2 ^ l.
Proof. apply Qpower_minus. discriminate. Qed.

Lemma pow2_succ (k : Z) : 2 ^ (k + 1) == 2 * 2 ^ k.
Proof. rewrite pow2_plus. change (2 ^ 1) with 2. ring. Qed.

Lemma pow2_inject (k : Z) : (0 <= k)%Z → inject_Z (2 ^ k) == 2 ^ k.
Proof. intros H. now apply (Zpower_Qpower 2). Qed.

(** * The binade of a positive rational *)

Lemma Q_as_fraction (a : Q) : a == inject_Z (Qnum a) / inject_Z (Z.pos (Qden a)).
Proof. destruct a as [n d]. cbn [Qnum Qden]. rewrite Qmake_Qdiv. reflexivity. Qed.

Lemma log2_bounds (n : Z) :
  (0 < n)%Z → 2 ^ Z.log2 n <= inject_Z n ∧ inject_Z n < 2 ^ (Z.log2 n + 1).
Proof.
  intros H. destruct (Z.log2_spec n H) as [L U].
  pose proof (Z.log2_nonneg n) as Hn. split.
  - rewrite <- pow2_inject by exact Hn. now rewrite <- Zle_Qle.
  - rewrite <- pow2_inject by lia. rewrite <- Zlt_Qlt.
    replace (Z.log2 n + 1)%Z with (Z.succ (Z.log2 n)) by lia. exact U.
Qed.

Lemma binade_spec (a : Q) : 0 < a → 2 ^ binade a <= a ∧ a < 2 ^ (binade a + 1).
Proof.
  intros Ha. unfold binade.
  set (n := Qnum a). set (d := Z.pos (Qden a)).
  assert (0 < n)%Z as Hn.
  { destruct a as [x y]. unfold Qlt in Ha. cbn in *. lia. }
  assert (0 < d)%Z as Hd by (unfold d; lia).
  destruct (log2_bounds n Hn) as [Ln Un]. destruct (log2_bounds d Hd) as [Ld Ud].
  assert (0 < inject_Z d) as Hdq.
  { change 0 with (inject_Z 0). rewrite <- Zlt_Qlt. exact Hd. }
  assert (a == inject_Z n / inject_Z d) as Ea by apply Q_as_fraction.
  set (k := (Z.log2 n - Z.log2 d)%Z).
  assert (2 ^ (k - 1) < a) as Lo.
  { rewrite Ea. apply Qlt_shift_div_l; [exact Hdq |].
    apply Qlt_le_trans with (2 ^ (k - 1) * 2 ^ (Z.log2 d + 1)).
    - apply Qmult_lt_l; [apply pow2_pos | exact Ud].
    - rewrite <- pow2_plus. replace (k - 1 + (Z.log2 d + 1))%Z with (Z.log2 n) by (unfold k; lia).
      exact Ln. }
  assert (a < 2 ^ (k + 1)) as Hi.
  { rewrite Ea. apply Qlt_shift_div_r; [exact Hdq |].
    apply Qlt_le_trans with (2 ^ (Z.log2 n + 1)); [exact Un |].
    replace (Z.log2 n + 1)%Z with (k + 1 + Z.log2 d)%Z by (unfold k; lia).
    rewrite pow2_plus. apply Qmult_le_l; [apply pow2_pos | exact Ld]. }
  destruct (Qle_bool (2 ^ k) a) eqn:E.
  - apply Qle_bool_iff in E. split; assumption.
  - assert (a < 2 ^ k) as Hlt.
    { apply Qnot_le_lt. intros H. apply Qle_bool_iff in H. congruence. }
    split; [now apply Qlt_le_weak |]. now replace (k - 1 + 1)%Z with k by lia.
Qed.

Lemma binade_unique (a : Q) (e : Z) : 2 ^ e <= a → a < 2 ^ (e + 1) → binade a = e.
Proof.
  intros L U.
  assert (0 < a) as Ha by (apply Qlt_le_trans with (2 ^ e); [apply pow2_pos | exact L]).
  destruct (binade_spec a Ha) as [L' U'].
  assert (binade a < e + 1)%Z.
  { apply pow2_lt_inv. apply Qle_lt_trans with a; assumption. }
  assert (e < binade a + 1)%Z.
  { apply pow2_lt_inv. apply Qle_lt_trans with a; assumption. }
  lia.
Qed.

Lemma binade_comp (a b : Q) : 0 < a → a == b → binade a = binade b.
Proof.
  intros Ha E. destruct (binade_spec a Ha) as [L U]. symmetry.
  apply binade_unique; now rewrite <- E.
Qed.

Lemma binade_mono (a b : Q) : 0 < a → a <= b → (binade a <= binade b)%Z.
Proof.
  intros Ha H. assert (0 < b) as Hb by (apply Qlt_le_trans with a; assumption).
  destruct (binade_spec a Ha) as [La Ua]. destruct (binade_spec b Hb) as [Lb Ub].
  assert (binade a < binade b + 1)%Z.
  { apply pow2_lt_inv. apply Qle_lt_trans with a; [exact La |].
    apply Qle_lt_trans with b; assumption. }
  lia.
Qed.

(** * Rounding to the nearest integer *)

Ltac Qcompare_prop :=
  repeat match goal with
         | H : (_ ?= _) = Eq |- _ => apply Qeq_alt in H
         | H : (_ ?= _) = Lt |- _ => apply Qlt_alt in H
         | H : (_ ?= _) = Gt |- _ => apply Qgt_alt in H
         end.

Lemma round_half_even_comp (a b : Q) : a == b → round_half_even a = round_half_even b.
Proof.
  intros E. unfold round_half_even. rewrite (Qfloor_comp _ _ E).
  assert ((a - inject_Z (Qfloor b) ?= 1 # 2) = (b - inject_Z (Qfloor b) ?= 1 # 2)) as ->.
  { apply Qcompare_comp; [now rewrite E | reflexivity]. }
  reflexivity.
Qed.

Lemma round_half_even_floor (a : Q) :
  round_half_even a = Qfloor a ∨ round_half_even a = (Qfloor a + 1)%Z.
Proof.
  unfold round_half_even.
  destruct (a - inject_Z (Qfloor a) ?= 1 # 2); [destruct (Z.even (Qfloor a)) | |]; auto.
Qed.

Lemma round_half_even_Z (z : Z) : round_half_even (inject_Z z) = z.
Proof.
  unfold round_half_even. rewrite Qfloor_Z.
  assert ((inject_Z z - inject_Z z ?= 1 # 2) = Lt) as ->.
  { rewrite <- Qlt_alt. lra. }
  reflexivity.
Qed.

Lemma round_half_even_mono (a b : Q) : a <= b → (round_half_even a <= round_half_even b)%Z.
Proof.
  intros H. pose proof (Qfloor_resp_le _ _ H) as Hf.
  destruct (Z.eq_dec (Qfloor a) (Qfloor b)) as [E | N].
  - unfold round_half_even. rewrite <- E.
    destruct (a - inject_Z (Qfloor a) ?= 1 # 2) eqn:Ca;
      destruct (b - inject_Z (Qfloor a) ?= 1 # 2) eqn:Cb;
      try (destruct (Z.even (Qfloor a))); try lia; exfalso;
      Qcompare_prop; lra.
  - destruct (round_half_even_floor a) as [-> | ->];
      destruct (round_half_even_floor b) as [-> | ->]; lia.
Qed.

Lemma Qfloor_unique (x : Q) (z : Z) :
  inject_Z z <= x → x < inject_Z (z + 1) → Qfloor x = z.
Proof.
  intros L U. pose proof (Qfloor_le x) as L'. pose proof (Qlt_floor x) as U'.
  assert (inject_Z z < inject_Z (Qfloor x + 1)) as A by (apply Qle_lt_trans with x; assumption).
  assert (inject_Z (Qfloor x) < inject_Z (z + 1)) as B by (apply Qle_lt_trans with x; assumption).
  rewrite <- Zlt_Qlt in A, B. lia.
Qed.

Lemma round_half_even_small (x : Q) : 0 <= x → x < 1 # 2 → round_half_even x = 0%Z.
Proof.
  intros L U. unfold round_half_even.
  assert (Qfloor x = 0%Z) as ->.
  { apply Qfloor_unique; [exact L |]. change (inject_Z (0 + 1)) with 1. lra. }
  assert ((x - inject_Z 0 ?= 1 # 2) = Lt) as ->; [| reflexivity].
  rewrite <- Qlt_alt. change (inject_Z 0) with 0. lra.
Qed.

Lemma round_half_even_ge (a : Q) (z : Z) : inject_Z z <= a → (z <= round_half_even a)%Z.
Proof. intros H. rewrite <- (round_half_even_Z z). now apply round_half_even_mono. Qed.

Lemma round_half_even_le (a : Q) (z : Z) : a <= inject_Z z → (round_half_even a <= z)%Z.
Proof. intros H. rewrite <- (round_half_even_Z z). now apply round_half_even_mono. Qed.

(** * The nearest binary64 value of a positive rational *)

Lemma nearest64_unfold (a : Q) :
  nearest64 a = inject_Z (round_half_even (a / 2 ^ ulp_exponent a)) * 2 ^ ulp_exponent a.
Proof. reflexivity. Qed.

Lemma div_pow2_le (a b : Q) (u : Z) : a <= b → a / 2 ^ u <= b / 2 ^ u.
Proof.
  intros H. unfold Qdiv. apply Qmult_le_compat_r; [exact H |].
  apply Qinv_le_0_compat. apply Qlt_le_weak, pow2_pos.
Qed.

Lemma div_pow2 (k u : Z) : 2 ^ k / 2 ^ u == 2 ^ (k - u).
Proof. symmetry. apply pow2_minus. Qed.

Lemma mul_div_pow2 (a : Q) (u : Z) : a / 2 ^ u * 2 ^ u == a.
Proof.
  unfold Qdiv. rewrite <- Qmult_assoc, (Qmult_comm (/ _)), Qmult_inv_r, Qmult_1_r;
    [reflexivity |].
  intros E. pose proof (pow2_pos u) as H. rewrite E in H. discriminate H.
Qed.

Lemma nearest64_comp (a b : Q) : 0 < a → a == b → nearest64 a == nearest64 b.
Proof.
  intros Ha E. rewrite !nearest64_unfold. unfold ulp_exponent.
  rewrite <- (binade_comp a b Ha E).
  rewrite (round_half_even_comp (a / 2 ^ Z.max (binade a - 52) (-1074))
             (b / 2 ^ Z.max (binade a - 52) (-1074))); [reflexivity |].
  unfold Qdiv. apply Qmult_comp; [exact E | reflexivity].
Qed.

Lemma nearest64_nonneg (a : Q) : 0 < a → 0 <= nearest64 a.
Proof.
  intros Ha. rewrite nearest64_unfold. apply Qmult_le_0_compat.
  - change 0 with (inject_Z 0). rewrite <- Zle_Qle. apply round_half_even_ge.
    change (inject_Z 0) with 0. apply Qle_shift_div_l; [apply pow2_pos |].
    rewrite Qmult_0_l. now apply Qlt_le_weak.
  - apply Qlt_le_weak, pow2_pos.
Qed.

Lemma nearest64_upper (a : Q) : 0 < a → nearest64 a <= 2 ^ (binade a + 1).
Proof.
  intros Ha. destruct (binade_spec a Ha) as [_ U]. rewrite nearest64_unfold.
  set (u := ulp_exponent a).
  destruct (Z_le_gt_dec 0 (binade a + 1 - u)) as [Hk | Hk].
  - assert (round_half_even (a / 2 ^ u) <= 2 ^ (binade a + 1 - u))%Z as Hm.
    { apply round_half_even_le. rewrite pow2_inject by exact Hk.
      rewrite <- div_pow2. apply div_pow2_le. now apply Qlt_le_weak. }
    apply Qle_trans with (inject_Z (2 ^ (binade a + 1 - u)) * 2 ^ u).
    + apply Qmult_le_compat_r; [now rewrite <- Zle_Qle | apply Qlt_le_weak, pow2_pos].
    + rewrite pow2_inject by exact Hk. rewrite <- pow2_plus.
      replace (binade a + 1 - u + u)%Z with (binade a + 1)%Z by lia. apply Qle_refl.
  - assert (round_half_even (a / 2 ^ u) = 0%Z) as ->.
    { apply round_half_even_small.
      - apply Qle_shift_div_l; [apply pow2_pos |]. rewrite Qmult_0_l. now apply Qlt_le_weak.
      - apply Qlt_le_trans with (2 ^ (binade a + 1 - u)).
        + rewrite <- div_pow2. unfold Qdiv. apply Qmult_lt_compat_r; [| exact U].
          apply Qinv_lt_0_compat, pow2_pos.
        + change (1 # 2) with (2 ^ (-1)). apply pow2_le. lia. }
    rewrite Qmult_0_l. apply Qlt_le_weak, pow2_pos.
Qed.

(** In the normal range the rounded value stays in the binade. *)
Lemma nearest64_lower (a : Q) :
  0 < a → (-1022 <= binade a)%Z → 2 ^ binade a <= nearest64 a.
Proof.
  intros Ha He. destruct (binade_spec a Ha) as [L _]. rewrite nearest64_unfold.
  assert (ulp_exponent a = (binade a - 52)%Z) as -> by (unfold ulp_exponent; lia).
  assert (2 ^ 52 <= round_half_even (a / 2 ^ (binade a - 52)))%Z as Hm.
  { apply round_half_even_ge. rewrite pow2_inject by lia.
    replace 52%Z with (binade a - (binade a - 52))%Z at 1 by lia.
    rewrite <- div_pow2. now apply div_pow2_le. }
  apply Qle_trans with (inject_Z (2 ^ 52) * 2 ^ (binade a - 52)).
  - rewrite pow2_inject by lia. rewrite <- pow2_plus.
    replace (52 + (binade a - 52))%Z with (binade a) by lia. apply Qle_refl.
  - apply Qmult_le_compat_r; [now rewrite <- Zle_Qle | apply Qlt_le_weak, pow2_pos].
Qed.

Lemma ulp_exponent_mono (a b : Q) : 0 < a → a <= b → (ulp_exponent a <= ulp_exponent b)%Z.
Proof. intros Ha H. pose proof (binade_mono a b Ha H). unfold ulp_exponent. lia. Qed.

Lemma nearest64_mono (a b : Q) : 0 < a → a <= b → nearest64 a <= nearest64 b.
Proof.
  intros Ha H. assert (0 < b) as Hb by (apply Qlt_le_trans with a; assumption).
  pose proof (ulp_exponent_mono a b Ha H) as Hu.
  destruct (Z.eq_dec (ulp_exponent a) (ulp_exponent b)) as [E | N].
  - rewrite !nearest64_unfold, <- E.
    apply Qmult_le_compat_r; [| apply Qlt_le_weak, pow2_pos].
    rewrite <- Zle_Qle. apply round_half_even_mono. now apply div_pow2_le.
  - assert (binade a + 1 <= binade b ∧ -1022 <= binade b)%Z as [H1 H2]
      by (unfold ulp_exponent in *; lia).
    apply Qle_trans with (2 ^ (binade a + 1)); [now apply nearest64_upper |].
    apply Qle_trans with (2 ^ binade b); [now apply pow2_le |].
    now apply nearest64_lower.
Qed.

(** A value that is a whole number of steps of its own binade is left
    as it is. *)
Lemma nearest64_exact (a : Q) (z : Z) :
  a == inject_Z z * 2 ^ ulp_exponent a → nearest64 a == a.
Proof.
  intros E. rewrite nearest64_unfold.
  rewrite (round_half_even_comp _ (inject_Z z)).
  - rewrite round_half_even_Z. now symmetry.
  - rewrite E at 1. unfold Qdiv. rewrite <- Qmult_assoc, Qmult_inv_r, Qmult_1_r; [reflexivity |].
    intros F. pose proof (pow2_pos (ulp_exponent a)) as H. rewrite F in H. discriminate H.
Qed.

Lemma pow2_le_inv (k l : Z) : 2 ^ k <= 2 ^ l → (k <= l)%Z.
Proof.
  intros H. destruct (Z_le_gt_dec k l) as [L | G]; [exact L |].
  exfalso. apply (Qlt_not_le (2 ^ l) (2 ^ k)); [apply pow2_lt; lia | exact H].
Qed.

Lemma nearest64_idempotent (a : Q) :
  0 < a → 0 < nearest64 a → nearest64 (nearest64 a) == nearest64 a.
Proof.
  intros Ha Hr. set (r := nearest64 a) in *.
  set (m := round_half_even (a / 2 ^ ulp_exponent a)).
  assert (r == inject_Z m * 2 ^ ulp_exponent a) as Er by reflexivity.
  assert (1 <= m)%Z as Hm.
  { destruct (Z_le_gt_dec 1 m) as [L | G]; [exact L |]. exfalso.
    apply (Qlt_not_le 0 r Hr). rewrite Er.
    rewrite <- (Qmult_0_l (2 ^ ulp_exponent a)).
    apply Qmult_le_compat_r; [| apply Qlt_le_weak, pow2_pos].
    change 0 with (inject_Z 0). rewrite <- Zle_Qle. lia. }
  assert (2 ^ ulp_exponent a <= r) as Hlow.
  { rewrite Er. rewrite <- (Qmult_1_l (2 ^ ulp_exponent a)) at 1.
    apply Qmult_le_compat_r; [| apply Qlt_le_weak, pow2_pos].
    change 1 with (inject_Z 1). now rewrite <- Zle_Qle. }
  pose proof (nearest64_upper a Ha) as Hup. fold r in Hup.
  destruct (binade_spec r Hr) as [Lr Ur].
  assert (ulp_exponent a <= binade r)%Z as Hua.
  { assert (ulp_exponent a < binade r + 1)%Z; [| lia].
    apply pow2_lt_inv. apply Qle_lt_trans with r; assumption. }
  assert (binade r <= binade a + 1)%Z as Hb.
  { apply pow2_le_inv. apply Qle_trans with r; assumption. }
  destruct (Z.eq_dec (binade r) (binade a + 1)%Z) as [Eb | Nb].
  - (* the value is the power of two that ends the binade *)
    assert (r == 2 ^ (binade a + 1)) as E2.
    { apply Qle_antisym; [exact Hup |]. rewrite <- Eb. exact Lr. }
    assert (0 <= binade r - ulp_exponent r)%Z as Hk by (unfold ulp_exponent in *; lia).
    apply (nearest64_exact r (2 ^ (binade r - ulp_exponent r))).
    rewrite pow2_inject by exact Hk. rewrite <- pow2_plus.
    replace (binade r - ulp_exponent r + ulp_exponent r)%Z with (binade a + 1)%Z by lia.
    exact E2.
  - assert (ulp_exponent r <= ulp_exponent a)%Z as Hu by (unfold ulp_exponent in *; lia).
    apply (nearest64_exact r (m * 2 ^ (ulp_exponent a - ulp_exponent r))).
    rewrite inject_Z_mult, pow2_inject by lia. rewrite <- Qmult_assoc, <- pow2_plus.
    replace (ulp_exponent a - ulp_exponent r + ulp_exponent r)%Z with (ulp_exponent a) by lia.
    exact Er.
Qed.

(** * Rounding to binary64 *)

Lemma Qzero_true (q : Q) : Qzero q = true ↔ q == 0.
Proof. unfold Qzero. apply Qeq_bool_iff. Qed.

Lemma Qzero_false (q : Q) : Qzero q = false ↔ ¬ q == 0.
Proof.
  rewrite <- Qzero_true. destruct (Qzero q); split; intros H;
    try reflexivity; try discriminate; try (exfalso; now apply H).
Qed.

Lemma Qneg_true (q : Q) : Qneg q = true ↔ q < 0.
Proof.
  unfold Qneg. rewrite negb_true_iff. split; intros H.
  - apply Qnot_le_lt. intros L. apply Qle_bool_iff in L. congruence.
  - destruct (Qle_bool 0 q) eqn:E; [| reflexivity].
    apply Qle_bool_iff in E. exfalso. now apply (Qlt_not_le _ _ H).
Qed.

Lemma Qneg_false (q : Q) : Qneg q = false ↔ 0 <= q.
Proof.
  unfold Qneg. rewrite negb_false_iff. apply Qle_bool_iff.
Qed.

Lemma Qneg_comp (q q' : Q) : q == q' → Qneg q = Qneg q'.
Proof.
  intros E. destruct (Qneg q) eqn:A; symmetry.
  - apply Qneg_true. rewrite <- E. now apply Qneg_true.
  - apply Qneg_false. rewrite <- E. now apply Qneg_false.
Qed.

Lemma Qzero_comp (q q' : Q) : q == q' → Qzero q = Qzero q'.
Proof.
  intros E. destruct (Qzero q) eqn:A; symmetry.
  - apply Qzero_true. rewrite <- E. now apply Qzero_true.
  - apply Qzero_false. rewrite <- E. now apply Qzero_false.
Qed.

Lemma Qle_bool_comp (a a' q q' : Q) : a == a' → q == q' → Qle_bool a q = Qle_bool a' q'.
Proof.
  intros Ea E.
  destruct (Qle_bool a q) eqn:A, (Qle_bool a' q') eqn:B; try reflexivity.
  - apply Qle_bool_iff in A. rewrite Ea, E in A. apply Qle_bool_iff in A. congruence.
  - apply Qle_bool_iff in B. rewrite <- Ea, <- E in B. apply Qle_bool_iff in B. congruence.
Qed.

Lemma Qabs_pos_nonzero (q : Q) : ¬ q == 0 → 0 < Qabs q.
Proof.
  intros H. destruct (Qlt_le_dec 0 (Qabs q)) as [L | L]; [exact L |].
  exfalso. apply H.
  assert (Qabs q == 0) as E by (apply Qle_antisym; [exact L | apply Qabs_nonneg]).
  destruct (Qlt_le_dec q 0) as [N | P].
  - rewrite Qabs_neg in E by now apply Qlt_le_weak. lra.
  - rewrite Qabs_pos in E by exact P. exact E.
Qed.

(** The result does not depend on how the rational is written. *)
Lemma round64_comp (x y : Q) : x == y → round64 x = round64 y.
Proof.
  intros E. unfold round64. rewrite (Qzero_comp x y E).
  destruct (Qzero y) eqn:Z; [reflexivity |].
  assert (0 < Qabs x) as Hx.
  { apply Qabs_pos_nonzero. rewrite E. now apply Qzero_false. }
  assert (nearest64 (Qabs x) == nearest64 (Qabs y)) as En.
  { apply nearest64_comp; [exact Hx | now rewrite E]. }
  rewrite (Qle_bool_comp _ (2 ^ 1024) _ _ (Qeq_refl _) En), (Qneg_comp x y E).
  destruct (Qle_bool (2 ^ 1024) (nearest64 (Qabs y))); [reflexivity |].
  f_equal. apply Qred_complete. destruct (Qneg y); now rewrite En.
Qed.

Lemma round64_0 : round64 0 = Fin 0.
Proof. reflexivity. Qed.

Lemma round64_zero (q : Q) : q == 0 → round64 q = Fin 0.
Proof. intros E. now rewrite (round64_comp q 0 E). Qed.

Lemma round64_pos (q : Q) :
  0 < q →
  round64 q = if Qle_bool (2 ^ 1024) (nearest64 q) then Infinity false
              else Fin (Qred (nearest64 q)).
Proof.
  intros H. unfold round64.
  assert (Qzero q = false) as -> by (apply Qzero_false; lra).
  assert (Qneg q = false) as -> by (apply Qneg_false; lra).
  assert (Qabs q == q) as E by (apply Qabs_pos; lra).
  assert (0 < Qabs q) as Ha by (rewrite E; exact H).
  pose proof (nearest64_comp _ _ Ha E) as En.
  rewrite (Qle_bool_comp _ (2 ^ 1024) _ _ (Qeq_refl _) En).
  destruct (Qle_bool (2 ^ 1024) (nearest64 q)); [reflexivity |].
  f_equal. now apply Qred_complete.
Qed.

Lemma round64_neg (q : Q) :
  q < 0 →
  round64 q = if Qle_bool (2 ^ 1024) (nearest64 (- q)) then Infinity true
              else Fin (Qred (- nearest64 (- q))).
Proof.
  intros H. unfold round64.
  assert (Qzero q = false) as -> by (apply Qzero_false; lra).
  assert (Qneg q = true) as -> by (now apply Qneg_true).
  assert (Qabs q == - q) as E by (apply Qabs_neg; lra).
  assert (0 < Qabs q) as Ha by (rewrite E; lra).
  pose proof (nearest64_comp _ _ Ha E) as En.
  rewrite (Qle_bool_comp _ (2 ^ 1024) _ _ (Qeq_refl _) En).
  destruct (Qle_bool (2 ^ 1024) (nearest64 (- q))); [reflexivity |].
  f_equal. apply Qred_complete. now rewrite En.
Qed.

Lemma number_le_refl_fin (q : Q) : number_le (Fin q) (Fin q).
Proof. apply Qle_refl. Qed.

Lemma number_le_trans (x y z : number) : number_le x y → number_le y z → number_le x z.
Proof.
  destruct x as [| [] | p], y as [| [] | q], z as [| [] | r]; cbn; try tauto.
  apply Qle_trans.
Qed.

Lemma round64_nonneg (q : Q) : 0 <= q → number_le (Fin 0) (round64 q).
Proof.
  intros H. destruct (Qeq_dec q 0) as [E | N].
  - rewrite (round64_zero q E). apply Qle_refl.
  - assert (0 < q) as Hq by (apply Qle_lt_or_eq in H as [L | E]; [exact L | now symmetry in E]).
    rewrite (round64_pos q Hq).
    destruct (Qle_bool (2 ^ 1024) (nearest64 q)); [exact I |].
    cbn. rewrite Qred_correct. now apply nearest64_nonneg.
Qed.

Lemma round64_nonpos (q : Q) : q <= 0 → number_le (round64 q) (Fin 0).
Proof.
  intros H. destruct (Qeq_dec q 0) as [E | N].
  - rewrite (round64_zero q E). apply Qle_refl.
  - assert (q < 0) as Hq by (apply Qle_lt_or_eq in H as [L | E]; [exact L | contradiction]).
    rewrite (round64_neg q Hq).
    destruct (Qle_bool (2 ^ 1024) (nearest64 (- q))); [exact I |].
    cbn. rewrite Qred_correct.
    assert (0 <= nearest64 (- q)) by (apply nearest64_nonneg; lra). lra.
Qed.

(** Rounding keeps the order. *)
Lemma round64_mono (x y : Q) : x <= y → number_le (round64 x) (round64 y).
Proof.
  intros H. destruct (Qlt_le_dec 0 x) as [Px | Nx].
  - assert (0 < y) as Py by lra.
    rewrite (round64_pos x Px), (round64_pos y Py).
    pose proof (nearest64_mono x y Px H) as Hn.
    destruct (Qle_bool (2 ^ 1024) (nearest64 x)) eqn:Ox;
      destruct (Qle_bool (2 ^ 1024) (nearest64 y)) eqn:Oy; cbn; try exact I.
    + apply Qle_bool_iff in Ox.
      assert (Qle_bool (2 ^ 1024) (nearest64 y) = true); [| congruence].
      apply Qle_bool_iff. now apply Qle_trans with (nearest64 x).
    + now rewrite !Qred_correct.
  - destruct (Qlt_le_dec y 0) as [Ny | Py].
    + assert (x < 0) as Nx' by lra.
      rewrite (round64_neg x Nx'), (round64_neg y Ny).
      assert (0 < - y) as Hy by lra.
      assert (nearest64 (- y) <= nearest64 (- x)) as Hn by (apply nearest64_mono; lra).
      destruct (Qle_bool (2 ^ 1024) (nearest64 (- x))) eqn:Ox;
        destruct (Qle_bool (2 ^ 1024) (nearest64 (- y))) eqn:Oy; cbn; try exact I.
      * apply Qle_bool_iff in Oy.
        assert (Qle_bool (2 ^ 1024) (nearest64 (- x)) = true); [| congruence].
        apply Qle_bool_iff. now apply Qle_trans with (nearest64 (- y)).
      * rewrite !Qred_correct. lra.
    + apply number_le_trans with (Fin 0);
        [now apply round64_nonpos | now apply round64_nonneg].
Qed.

(** A rounded value is a binary64 value: rounding it again changes
    nothing. *)
Lemma round64_idempotent (q r : Q) : round64 q = Fin r → round64 r = Fin r.
Proof.
  intros H. destruct (Qeq_dec q 0) as [E | N].
  - rewrite (round64_zero q E) in H. now injection H as <-.
  - destruct (Qlt_le_dec 0 q) as [P | P'].
    + rewrite (round64_pos q P) in H.
      destruct (Qle_bool (2 ^ 1024) (nearest64 q)) eqn:O; [discriminate |].
      injection H as <-.
      destruct (Qeq_dec (nearest64 q) 0) as [Z | NZ].
      * assert (Qred (nearest64 q) == 0) as Z' by now rewrite Qred_correct.
        rewrite (round64_zero _ Z'). f_equal. symmetry.
        change 0 with (Qred 0). now apply Qred_complete.
      * assert (0 < nearest64 q) as Hr.
        { pose proof (nearest64_nonneg q P) as Hn.
          apply Qle_lt_or_eq in Hn as [L | E]; [exact L | now symmetry in E]. }
        assert (Qred (nearest64 q) == nearest64 q) as Er by apply Qred_correct.
        rewrite (round64_comp _ _ Er), (round64_pos _ Hr).
        pose proof (nearest64_idempotent q P Hr) as Hi.
        rewrite (Qle_bool_comp _ (2 ^ 1024) _ _ (Qeq_refl _) Hi), O.
        f_equal. now apply Qred_complete.
    + assert (q < 0) as Ng by (apply Qle_lt_or_eq in P' as [L | E]; [exact L | contradiction]).
      rewrite (round64_neg q Ng) in H.
      destruct (Qle_bool (2 ^ 1024) (nearest64 (- q))) eqn:O; [discriminate |].
      injection H as <-.
      assert (0 < - q) as P by lra.
      destruct (Qeq_dec (nearest64 (- q)) 0) as [Z | NZ].
      * assert (Qred (- nearest64 (- q)) == 0) as Z' by (rewrite Qred_correct; lra).
        rewrite (round64_zero _ Z'). f_equal. symmetry.
        change 0 with (Qred 0). apply Qred_complete. lra.
      * assert (0 < nearest64 (- q)) as Hr.
        { pose proof (nearest64_nonneg (- q) P) as Hn.
          apply Qle_lt_or_eq in Hn as [L | E]; [exact L | now symmetry in E]. }
        assert (Qred (- nearest64 (- q)) == - nearest64 (- q)) as Er by apply Qred_correct.
        assert (- nearest64 (- q) < 0) as Hlt by lra.
        rewrite (round64_comp _ _ Er), (round64_neg _ Hlt).
        assert (nearest64 (- - nearest64 (- q)) == nearest64 (- q)) as Hi.
        { rewrite <- (nearest64_idempotent (- q) P Hr) at 2.
          apply nearest64_comp; [lra | ring]. }
        rewrite (Qle_bool_comp _ (2 ^ 1024) _ _ (Qeq_refl _) Hi), O.
        f_equal. apply Qred_complete. now rewrite Hi.
Qed.

Lemma round64_reduced (q r : Q) : round64 q = Fin r → Qred r = r.
Proof.
  unfold round64. destruct (Qzero q); [intros [= <-]; reflexivity |].
  destruct (Qle_bool _ _); [discriminate |]. intros [= <-].
  apply Qred_complete, Qred_correct.
Qed.

Lemma binary64_round64 (q : Q) : binary64 q → round64 q = Fin (Qred q).
Proof.
  unfold binary64. intros H. destruct (round64 q) as [| s | r] eqn:E; try contradiction.
  f_equal. rewrite <- (round64_reduced q r E). now apply Qred_complete.
Qed.

Lemma round64_binary64 (q r : Q) : round64 q = Fin r → binary64 r.
Proof.
  intros H. unfold binary64. rewrite (round64_idempotent q r H). reflexivity.
Qed.

(** * Formatting *)

(** The formatters do not depend on how a rational is written. *)
Lemma toFixed_fin_comp (q q' : Q) (f : nat) : q == q' → toFixed_fin q f = toFixed_fin q' f.
Proof.
  intros E. unfold toFixed_fin.
  rewrite (Qneg_comp q q' E).
  assert (Qabs q == Qabs q') as Ea by (now rewrite E).
  rewrite (Qle_bool_comp _ (10 ^ 21) _ _ (Qeq_refl _) Ea).
  rewrite (Qfloor_comp _ _ Ea).
  assert (Qabs q * 10 ^ Z.of_nat f + (1 # 2) == Qabs q' * 10 ^ Z.of_nat f + (1 # 2)) as En
    by (now rewrite Ea).
  rewrite (Qfloor_comp _ _ En).
  reflexivity.
Qed.

Lemma tick_text_comp (decimals : Z) (v v' : Q) :
  v == v' → tick_text decimals (Fin v) = tick_text decimals (Fin v').
Proof.
  intros E. unfold tick_text. destruct (0 <? decimals)%Z.
  - now apply toFixed_fin_comp.
  - cbn. now rewrite (Qfloor_comp _ _ E).
Qed.

Lemma toFixed_in_range (x : number) (decimals : Z) :
  (0 < decimals <= 100)%Z →
  toFixed x (Fin decimals) = inr (tick_text decimals x).
Proof.
  intros [H0 H1]. unfold toFixed, tick_text.
  assert ((decimals <? 0)%Z = false) as -> by lia.
  assert ((100 <? decimals)%Z = false) as -> by lia.
  assert ((0 <? decimals)%Z = true) as -> by lia.
  destruct x as [| [] |]; reflexivity.
Qed.

Lemma toFixed_fin_in_range (q : Q) (decimals : Z) :
  (0 <= decimals <= 100)%Z →
  toFixed (Fin q) (Fin decimals) = inr (toFixed_fin q (Z.to_nat decimals)).
Proof.
  intros [H0 H1]. unfold toFixed.
  assert ((decimals <? 0)%Z = false) as -> by lia.
  assert ((100 <? decimals)%Z = false) as -> by lia.
  reflexivity.
Qed.

Lemma toFixed_out_of_range (x : number) (decimals : Z) :
  (decimals < 0 ∨ 100 < decimals)%Z → toFixed x (Fin decimals) = inl RangeError.
Proof.
  intros H. unfold toFixed.
  destruct (decimals <? 0)%Z eqn:A; [reflexivity |].
  destruct (100 <? decimals)%Z eqn:B; [reflexivity |]. lia.
Qed.

(** * Arithmetic on binary64 values *)

Lemma number_mul_comp_l (p p' : Q) (y : number) :
  p == p' → number_mul (Fin p) y = number_mul (Fin p') y.
Proof.
  intros E. destruct y as [| s | q]; cbn; [reflexivity | |].
  - now rewrite (Qzero_comp _ _ E), (Qneg_comp _ _ E).
  - apply round64_comp. now rewrite E.
Qed.

Lemma number_sub_comp_r (x : number) (q q' : Q) :
  q == q' → number_sub x (Fin q) = number_sub x (Fin q').
Proof.
  intros E. destruct x as [| s | p]; cbn; [reflexivity | reflexivity |].
  apply round64_comp. now rewrite E.
Qed.

(** Subtracting zero from a number, adding a product to zero and
    multiplying by one change nothing. *)
Lemma number_sub_0_r (q : Q) : binary64 q → number_sub (Fin q) (Fin 0) = Fin (Qred q).
Proof.
  intros H. cbn. rewrite <- (binary64_round64 q H). apply round64_comp. ring.
Qed.

Lemma number_mul_1_r (q : Q) : binary64 q → number_mul (Fin q) (Fin 1) = Fin (Qred q).
Proof.
  intros H. cbn. rewrite <- (binary64_round64 q H). apply round64_comp. ring.
Qed.

Lemma number_add_0_round64 (q : Q) : number_add (Fin 0) (round64 q) = round64 q.
Proof.
  destruct (round64 q) as [| s | r] eqn:E; [reflexivity | reflexivity |].
  cbn. rewrite <- (round64_idempotent q r E). apply round64_comp. ring.
Qed.

Lemma number_add_0_mul (x y : number) :
  number_add (Fin 0) (number_mul x y) = number_mul x y.
Proof.
  destruct x as [| a | p], y as [| b | q]; cbn; try reflexivity.
  - destruct (Qzero q); reflexivity.
  - destruct (Qzero p); reflexivity.
  - apply number_add_0_round64.
Qed.

(** The value of the instrumented driver, [0 + (target - 0) * eased], is
    the value [target * eased] of the production driver. *)
Lemma ease_out_quart_production (doc : Document) (target p : number) :
  is_number target →
  ease_out_quart doc (Fin 0) target p = number_mul target (eased doc p).
Proof.
  intros H. unfold ease_out_quart. fold (eased doc p). rewrite number_add_0_mul.
  destruct target as [| s | q]; [reflexivity | reflexivity |].
  cbn in H. rewrite (number_sub_0_r q H).
  apply number_mul_comp_l. apply Qred_correct.
Qed.

(** * One tick of a counter *)

Ltac js_unfold :=
  unfold bind, emit, ret, skip, get, modify, throw, when, try_catch,
    trace_of, state_of, result_of in *.

Lemma verbose_tick (doc : Document) (el : Element) (target : number)
    (duration : integer) (decimals : Z)
    (prefix suffix : string) (start now : Q) (w : Verbose.World) :
  (0 <= decimals <= 100)%Z →
  let p := Math_min (ratio start duration now) (Fin 1) in
  Verbose.StatsCounter.run_updateCounter doc el target duration (Fin decimals)
    prefix suffix start 0 now w
  = (w,
     set_textContent el
       (prefix +:+ tick_text decimals (ease_out_quart doc (Fin 0) target p) +:+ suffix)
       :: (if number_lt p (Fin 1)
           then [requestAnimationFrame
                   (Verbose.updateCounter el target duration (Fin decimals) prefix suffix
                      start 0)]
           else verbose_completion el),
     Normal tt).
Proof.
  intros Hd p.
  unfold Verbose.StatsCounter.run_updateCounter.
  cbv zeta. fold (elapsed start now). fold (ratio start duration now). fold p.
  fold (ease_out_quart doc (Fin 0) target p).
  cbn [positive_integer].
  destruct (0 <? decimals)%Z eqn:E.
  - rewrite toFixed_in_range by lia. js_unfold.
    destruct (number_lt p (Fin 1)); reflexivity.
  - unfold tick_text. rewrite E. js_unfold. destruct (number_lt p (Fin 1)); reflexivity.
Qed.

Lemma production_tick (doc : Document) (el : Element) (target : number)
    (duration : integer) (decimals : Z)
    (prefix suffix : string) (start now : Q) (w : Production.World) :
  (0 <= decimals <= 100)%Z →
  let p := Math_min (ratio start duration now) (Fin 1) in
  Production.StatsCounter.run_update doc el target duration (Fin decimals)
    prefix suffix start now w
  = (w,
     set_textContent el
       (prefix +:+ tick_text decimals (number_mul target (eased doc p)) +:+ suffix)
       :: (if number_lt p (Fin 1)
           then [requestAnimationFrame
                   (Production.update el target duration (Fin decimals) prefix suffix
                      start)]
           else []),
     Normal tt).
Proof.
  intros Hd p.
  unfold Production.StatsCounter.run_update.
  cbv zeta. fold (elapsed start now). fold (ratio start duration now). fold p.
  fold (eased doc p).
  assert (truthy (Fin decimals) = (0 <? decimals)%Z) as ->.
  { destruct decimals; cbn; [reflexivity | reflexivity | lia]. }
  destruct (0 <? decimals)%Z eqn:E.
  - rewrite toFixed_in_range by lia. js_unfold.
    destruct (number_lt p (Fin 1)); reflexivity.
  - unfold tick_text. rewrite E. js_unfold. destruct (number_lt p (Fin 1)); reflexivity.
Qed.

(** The progress at a ratio of 1 or more. *)
Lemma Math_min_done (x : number) :
  number_le (Fin 1) x →
  number_lt (Math_min x (Fin 1)) (Fin 1) = false
  ∧ number_sub (Fin 1) (Math_min x (Fin 1)) = Fin 0.
Proof.
  intros H. destruct x as [| [] | r]; cbn in H; try contradiction.
  - split; reflexivity.
  - unfold Math_min, number_lt.
    destruct (Qle_bool r 1) eqn:E; cbn [negb].
    + apply Qle_bool_iff in E. assert (r == 1) as E1 by lra. split.
      * apply negb_false_iff. apply Qle_bool_iff. lra.
      * cbn. apply round64_zero. lra.
    + split; reflexivity.
Qed.

Lemma eased_done (doc : Document) (p : number) :
  number_sub (Fin 1) p = Fin 0 → eased doc p = Fin 1.
Proof. intros E. unfold eased. rewrite E. reflexivity. Qed.

(** * The counter driver *)

(** C1, as stated, fails: with the target 12.75 and no decimals the tick
    at progress 1 writes "12", the floor of the target, where the target
    formatted with 0 decimals is "13". *)
Lemma final_text_truncates_counterexample :
  ¬ exact_target_shown 1 (Fin (51 # 4)) 0 "" ""
      (written (trace_of
         (Verbose.StatsCounter.run_updateCounter (sample_page true false) 1
            (Fin (51 # 4)) (Fin 2000%Z) (Fin 0%Z) "" "" 0 0 2000 (Verbose.initial 0)))).
Proof.
  intros [s [Hs Hw]]. vm_compute in Hs. injection Hs as <-.
  vm_compute in Hw. discriminate Hw.
Qed.

(** The ratio the drivers compute is 1 or more whenever the exact ratio of
    the time passed to the duration is. *)
Lemma exact_ratio_reaches_1 (start now : Q) (d : Z) :
  binary64 (inject_Z d) →
  1 <= (now - start) / inject_Z d →
  number_le (Fin 1) (ratio start (Fin d) now).
Proof.
  intros B H. unfold ratio, elapsed, of_integer. cbn [number_sub].
  pose proof (binary64_round64 _ B) as Ed.
  assert (round64 1 = Fin 1) as E1 by (vm_compute; reflexivity).
  destruct (Z.lt_trichotomy d 0) as [N | [Z | P]].
  - assert (inject_Z d < 0) as Hd by (change 0 with (inject_Z 0); now rewrite <- Zlt_Qlt).
    assert (now - start <= inject_Z d) as Hx.
    { destruct (Qlt_le_dec (inject_Z d) (now - start)) as [L | G]; [| exact G].
      exfalso.
      assert ((now - start) / inject_Z d < 1) as Hlt.
      { assert ((now - start) / inject_Z d == (- (now - start)) / (- inject_Z d)) as ->
          by (field; intros E; rewrite E in Hd; now apply Qlt_irrefl in Hd).
        apply Qlt_shift_div_r; lra. }
      lra. }
    pose proof (round64_mono _ _ Hx) as Hm. rewrite Ed in Hm. clear B Ed.
    assert (Qzero (inject_Z d) = false) as Zd by (apply Qzero_false; lra).
    assert (Qneg (inject_Z d) = true) as Nd by (now apply Qneg_true).
    revert Hm. destruct (round64 (now - start)) as [| [] | r]; intros Hm;
      cbn [number_le] in Hm; cbn [number_div]; rewrite ?Zd, ?Nd; cbn [xorb];
      try contradiction; try exact I.
    rewrite <- E1. apply round64_mono.
    rewrite (Qred_correct (inject_Z d)) in Hm.
    assert (r / inject_Z d == (- r) / (- inject_Z d)) as ->
      by (field; intros E; rewrite E in Hd; now apply Qlt_irrefl in Hd).
    apply Qle_shift_div_l; lra.
  - subst d. exfalso. unfold Qdiv in H. change (/ inject_Z 0) with 0 in H.
    rewrite Qmult_0_r in H. lra.
  - assert (0 < inject_Z d) as Hd by (change 0 with (inject_Z 0); now rewrite <- Zlt_Qlt).
    assert (inject_Z d <= now - start) as Hx.
    { destruct (Qlt_le_dec (now - start) (inject_Z d)) as [L | G]; [| exact G].
      exfalso.
      assert ((now - start) / inject_Z d < 1) as Hlt by (apply Qlt_shift_div_r; lra).
      lra. }
    pose proof (round64_mono _ _ Hx) as Hm. rewrite Ed in Hm. clear B Ed.
    assert (Qzero (inject_Z d) = false) as Zd by (apply Qzero_false; lra).
    assert (Qneg (inject_Z d) = false) as Nd by (apply Qneg_false; lra).
    revert Hm. destruct (round64 (now - start)) as [| [] | r]; intros Hm;
      cbn [number_le] in Hm; cbn [number_div]; rewrite ?Zd, ?Nd; cbn [xorb];
      try contradiction; try exact I.
    rewrite <- E1. apply round64_mono.
    rewrite (Qred_correct (inject_Z d)) in Hm.
    apply Qle_shift_div_l; lra.
Qed.

(** C1, amended: on the tick where progress reaches 1 both drivers write
    the target itself put through the formatter of every tick, with prefix
    and suffix, and request no further frame.  For 1 to 100 decimals that
    is the exact target formatted by [toFixed]; for 0 decimals it is
    [Math.floor] of the target.  The target is a binary64 value, as every
    number the script holds; the ratio is the one the drivers compute,
    which is 1 or more whenever the exact ratio is. *)
Theorem final_tick_shows_target (doc : Document) (el : Element) (q : Q)
    (duration : integer) (decimals : Z)
    (prefix suffix : string) (start now : Q)
    (wv : Verbose.World) (wp : Production.World) :
  binary64 q →
  (0 <= decimals <= 100)%Z →
  number_le (Fin 1) (ratio start duration now) →
  let rv := Verbose.StatsCounter.run_updateCounter doc el (Fin q) duration (Fin decimals)
              prefix suffix start 0 now wv in
  let rp := Production.StatsCounter.run_update doc el (Fin q) duration (Fin decimals)
              prefix suffix start now wp in
  ((0 < decimals)%Z →
     exact_target_shown el (Fin q) decimals prefix suffix (written (trace_of rv))
     ∧ exact_target_shown el (Fin q) decimals prefix suffix (written (trace_of rp)))
  ∧ (decimals = 0%Z →
       written (trace_of rv) = [(el, prefix +:+ toString (Math_floor (Fin q)) +:+ suffix)]
       ∧ written (trace_of rp) = [(el, prefix +:+ toString (Math_floor (Fin q)) +:+ suffix)])
  ∧ requested (trace_of rv) = [] ∧ requested (trace_of rp) = []
  ∧ result_of rv = Normal tt ∧ result_of rp = Normal tt.
Proof.
  intros Hq Hd Hdone rv rp.
  destruct (Math_min_done _ Hdone) as [Hb Hp].
  pose proof (eased_done doc _ Hp) as He.
  assert (number_mul (Fin q) (eased doc (Math_min (ratio start duration now) (Fin 1)))
          = Fin (Qred q)) as Ep.
  { rewrite He. now apply number_mul_1_r. }
  assert (tick_text decimals (Fin (Qred q)) = tick_text decimals (Fin q)) as Et
    by (apply tick_text_comp, Qred_correct).
  assert (written (trace_of rv) = [(el, prefix +:+ tick_text decimals (Fin q) +:+ suffix)]
          ∧ requested (trace_of rv) = [] ∧ result_of rv = Normal tt) as (Wv & Rv & Nv).
  { unfold rv. rewrite (verbose_tick _ _ _ _ _ _ _ _ _ _ Hd). cbv zeta.
    rewrite Hb, (ease_out_quart_production doc (Fin q) _ Hq), Ep, Et. repeat split. }
  assert (written (trace_of rp) = [(el, prefix +:+ tick_text decimals (Fin q) +:+ suffix)]
          ∧ requested (trace_of rp) = [] ∧ result_of rp = Normal tt) as (Wp & Rp & Np).
  { unfold rp. rewrite (production_tick _ _ _ _ _ _ _ _ _ _ Hd). cbv zeta.
    rewrite Hb, Ep, Et. repeat split. }
  split_and!; try assumption.
  - intros Hpos. split.
    + exists (toFixed_fin q (Z.to_nat decimals)). split.
      * now apply toFixed_fin_in_range.
      * rewrite Wv. unfold tick_text. assert ((0 <? decimals)%Z = true) as -> by lia.
        reflexivity.
    + exists (toFixed_fin q (Z.to_nat decimals)). split.
      * now apply toFixed_fin_in_range.
      * rewrite Wp. unfold tick_text. assert ((0 <? decimals)%Z = true) as -> by lia.
        reflexivity.
  - intros ->. split; [rewrite Wv | rewrite Wp]; reflexivity.
Qed.

Lemma final_tick_shows_target_witness :
  binary64 (51 # 4) ∧ (0 <= 2 <= 100)%Z
  ∧ number_le (Fin 1) (ratio 0 (Fin 2000%Z) 2000)
  ∧ written (trace_of
      (Verbose.StatsCounter.run_updateCounter (sample_page true false) 1 (Fin (51 # 4))
         (Fin 2000%Z) (Fin 2%Z) "$" "+" 0 0 2000 (Verbose.initial 0)))
    = [(1%nat, "$12.75+")].
Proof.
  assert (binary64 (51 # 4)) as Hq by (vm_compute; reflexivity).
  assert (0 <= 2 <= 100)%Z as Hd by lia.
  assert (number_le (Fin 1) (ratio 0 (Fin 2000%Z) 2000)) as Hr
    by (vm_compute; discriminate).
  split; [exact Hq |]. split; [exact Hd |]. split; [exact Hr |].
  destruct (final_tick_shows_target (sample_page true false) 1 (51 # 4) (Fin 2000%Z) 2
              "$" "+" 0 2000 (Verbose.initial 0) (Production.initial 0 "") Hq Hd Hr)
    as [H _].
  destruct H as [[s [Hs Hw]] _]; [lia |].
  rewrite Hw. vm_compute in Hs. injection Hs as <-. reflexivity.
Defined.

(** C2, as stated, fails: the progress is only cut off above.  With
    [data-duration="-2000"] and 1000 ms elapsed the ratio is -1/2; both
    drivers write -407 for the target 100, where the formula with the
    ratio clamped to 0 gives 0. *)
Lemma progress_not_clamped_below_counterexample :
  let doc := sample_page true false in
  written (trace_of
    (Verbose.StatsCounter.run_updateCounter doc 1 (Fin 100) (Fin (-2000)%Z) (Fin 0%Z)
       "" "" 0 0 1000 (Verbose.initial 0))) = [(1%nat, "-407")]
  ∧ written (trace_of
      (Production.StatsCounter.run_update doc 1 (Fin 100) (Fin (-2000)%Z) (Fin 0%Z)
         "" "" 0 1000 (Production.initial 0 ""))) = [(1%nat, "-407")]
  ∧ ¬ clamped_value_shown doc 1 100 0 "" "" (ratio 0 (Fin (-2000)%Z) 1000)
        (written (trace_of
           (Verbose.StatsCounter.run_updateCounter doc 1 (Fin 100) (Fin (-2000)%Z)
              (Fin 0%Z) "" "" 0 0 1000 (Verbose.initial 0)))).
Proof.
  split; [vm_compute; reflexivity |]. split; [vm_compute; reflexivity |].
  unfold clamped_value_shown. intros H. vm_compute in H. discriminate H.
Qed.

Lemma number_sub_1_comp (p p' : number) :
  number_eq p p' → number_sub (Fin 1) p = number_sub (Fin 1) p'.
Proof.
  destruct p as [| a | x], p' as [| b | y]; cbn; try contradiction; try reflexivity.
  - now intros ->.
  - intros E. apply round64_comp. now rewrite E.
Qed.

(** A ratio that is not negative is cut off as [clamp] does it. *)
Lemma clamp_nonneg (x : number) :
  number_le (Fin 0) x → number_eq (clamp x (Fin 0) (Fin 1)) (Math_min x (Fin 1)).
Proof.
  intros H. destruct x as [| [] | r]; cbn in H; try contradiction.
  - vm_compute. reflexivity.
  - unfold clamp, Math_min, Math_max, number_lt.
    destruct (Qle_bool r 1) eqn:E1; cbn [negb].
    + destruct (Qle_bool r 0) eqn:E0; cbn [negb]; [| reflexivity].
      apply Qle_bool_iff in E0. cbn. lra.
    + vm_compute. reflexivity.
Qed.

(** C2, amended: on every tick both drivers write the value
    0 + (target - 0) * (1 - (1 - t)^4), exponent 4, computed in binary64
    and formatted, where t = min(elapsed / duration, 1) is cut off above
    by 1 and not below; whenever elapsed / duration is not negative this t
    is clamp(elapsed / duration, 0, 1) and the value is the stated one. *)
Theorem tick_value_quartic_min (doc : Document) (el : Element) (q : Q)
    (duration : integer) (decimals : Z)
    (prefix suffix : string) (start now : Q)
    (wv : Verbose.World) (wp : Production.World) :
  binary64 q →
  (0 <= decimals <= 100)%Z →
  let r := ratio start duration now in
  let shown :=
    [(el, prefix +:+ tick_text decimals
                       (ease_out_quart doc (Fin 0) (Fin q) (Math_min r (Fin 1)))
            +:+ suffix)] in
  let rv := Verbose.StatsCounter.run_updateCounter doc el (Fin q) duration (Fin decimals)
              prefix suffix start 0 now wv in
  let rp := Production.StatsCounter.run_update doc el (Fin q) duration (Fin decimals)
              prefix suffix start now wp in
  written (trace_of rv) = shown
  ∧ written (trace_of rp) = shown
  ∧ (number_le (Fin 0) r →
       clamped_value_shown doc el q decimals prefix suffix r (written (trace_of rv))
       ∧ clamped_value_shown doc el q decimals prefix suffix r (written (trace_of rp))).
Proof.
  intros Hq Hd r shown rv rp.
  assert (written (trace_of rv) = shown) as Wv.
  { unfold rv, shown. rewrite (verbose_tick _ _ _ _ _ _ _ _ _ _ Hd). cbv zeta.
    fold r. destruct (number_lt (Math_min r (Fin 1)) (Fin 1)); reflexivity. }
  assert (written (trace_of rp) = shown) as Wp.
  { unfold rp, shown. rewrite (production_tick _ _ _ _ _ _ _ _ _ _ Hd). cbv zeta.
    fold r. rewrite (ease_out_quart_production doc (Fin q) _ Hq).
    destruct (number_lt (Math_min r (Fin 1)) (Fin 1)); reflexivity. }
  split; [exact Wv |]. split; [exact Wp |].
  intros Hr.
  assert (ease_out_quart doc (Fin 0) (Fin q) (clamp r (Fin 0) (Fin 1))
          = ease_out_quart doc (Fin 0) (Fin q) (Math_min r (Fin 1))) as E.
  { unfold ease_out_quart. now rewrite (number_sub_1_comp _ _ (clamp_nonneg r Hr)). }
  unfold clamped_value_shown. rewrite Wv, Wp, E. split; reflexivity.
Qed.

Lemma tick_value_quartic_min_witness :
  binary64 10000 ∧ (0 <= 0 <= 100)%Z ∧ number_le (Fin 0) (ratio 0 (Fin 2000%Z) 400)
  ∧ written (trace_of
      (Verbose.StatsCounter.run_updateCounter (sample_page true false) 1 (Fin 10000)
         (Fin 2000%Z) (Fin 0%Z) "" "" 0 0 400 (Verbose.initial 0)))
    = [(1%nat, "5903")].
Proof.
  assert (binary64 10000) as Hq by (vm_compute; reflexivity).
  assert (0 <= 0 <= 100)%Z as Hd by lia.
  assert (number_le (Fin 0) (ratio 0 (Fin 2000%Z) 400)) as Hr
    by (vm_compute; discriminate).
  split; [exact Hq |]. split; [exact Hd |]. split; [exact Hr |].
  destruct (tick_value_quartic_min (sample_page true false) 1 10000 (Fin 2000%Z) 0 "" ""
              0 400 (Verbose.initial 0) (Production.initial 0 "") Hq Hd) as (Hv & _ & _).
  rewrite Hv. vm_compute. reflexivity.
Defined.
(** * Loops that only register host calls *)

Section ForEach.
Context {W C A : Type}.

(** A loop whose body makes one host call per item. *)
Lemma forEach_from_emit (f : A → nat → effect C) (l : list A) (i : nat) (w : W) :
  forEach_from i l (λ x n, emit (f x n)) w
  = (w, imap (λ n x, f x (i + n)%nat) l, Normal tt).
Proof.
  revert i. induction l as [| x l IH]; intros i; [reflexivity |].
  cbn [forEach_from imap]. unfold bind at 1. unfold emit at 1.
  rewrite IH. cbn [app]. rewrite Nat.add_0_r. do 2 f_equal. f_equal.
  apply imap_ext. intros n y _. cbn. f_equal. lia.
Qed.

Lemma forEach_emit (f : A → nat → effect C) (l : list A) (w : W) :
  forEach l (λ x n, emit (f x n)) w = (w, imap (λ n x, f x n) l, Normal tt).
Proof. unfold forEach. now rewrite forEach_from_emit. Qed.

Lemma bind_normal {B D} (m : js W C B) (k : B → js W C D) (w w1 : W) t1 (b : B) :
  m w = (w1, t1, Normal b) →
  bind m k w = match k b w1 with (w2, t2, r) => (w2, t1 ++ t2, r) end.
Proof. intros E. unfold bind. now rewrite E. Qed.

Lemma bind_ext {B D} (m : js W C B) (k k' : B → js W C D) (w : W) :
  (∀ b w1, k b w1 = k' b w1) → bind m k w = bind m k' w.
Proof.
  intros H. unfold bind. destruct (m w) as [[w1 t1] [b | e]]; [| reflexivity].
  now rewrite H.
Qed.

Lemma bind_emit {B} (e : effect C) (k : js W C B) (w : W) :
  (emit e ;;; k) w = match k w with (w2, t2, r) => (w2, e :: t2, r) end.
Proof. reflexivity. Qed.

Lemma bind_forEach_emit {B} (f : A → nat → effect C) (l : list A)
    (k : js W C B) (w : W) :
  (forEach l (λ x n, emit (f x n)) ;;; k) w
  = match k w with (w2, t2, r) => (w2, imap (λ n x, f x n) l ++ t2, r) end.
Proof. unfold bind at 1. now rewrite forEach_emit. Qed.
End ForEach.

Lemma timers_of_app {C} (t1 t2 : list (effect C)) :
  timers_of (t1 ++ t2) = timers_of t1 ++ timers_of t2.
Proof. unfold timers_of. apply omap_app. Qed.

Lemma entered_app {C} (t1 t2 : list (effect C)) :
  entered (t1 ++ t2) = entered t1 ++ entered t2.
Proof. unfold entered. apply omap_app. Qed.

Lemma entered_cons {C} (e : effect C) (t : list (effect C)) :
  entered (e :: t)
  = match e with
    | enter f a => (f, a) :: entered t
    | _ => entered t
    end.
Proof. destruct e; reflexivity. Qed.

Lemma entered_imap_setTimeout {C A} (cb : A → nat → C) (d : nat → Z) (l : list A) :
  entered (imap (λ n x, setTimeout (cb x n) (d n)) l) = [].
Proof.
  revert cb d. induction l as [| x l IH]; intros cb d; [reflexivity |].
  unfold entered in *. cbn.
  apply (IH (λ x n, cb x (S n)) (λ n, d (S n))).
Qed.

Lemma timers_of_cons {C} (e : effect C) (t : list (effect C)) :
  timers_of (e :: t)
  = match e with
    | setTimeout cb d => (cb, d) :: timers_of t
    | _ => timers_of t
    end.
Proof. destruct e; reflexivity. Qed.

Lemma timers_of_imap_setTimeout {C A} (cb : A → nat → C) (d : nat → Z) (l : list A) :
  timers_of (imap (λ n x, setTimeout (cb x n) (d n)) l)
  = imap (λ n x, (cb x n, d n)) l.
Proof.
  revert cb d. induction l as [| x l IH]; intros cb d; [reflexivity |].
  unfold timers_of in *. cbn. f_equal.
  apply (IH (λ x n, cb x (S n)) (λ n, d (S n))).
Qed.

(** C4: when [data-target] does not parse as a number, both drivers return
    normally without requesting an animation frame, registering a timer or
    writing a text, and leave the state as it was. *)
Theorem invalid_target_schedules_nothing (doc : Document) (el : Element)
    (wv : Verbose.World) (wp : Production.World) :
  parseFloat (ToString (dataset doc el "target")) = NaN →
  let rv := Verbose.StatsCounter.animateCounter doc el wv in
  let rp := Production.StatsCounter.animate doc el wp in
  (requested (trace_of rv) = [] ∧ timers_of (trace_of rv) = []
   ∧ written (trace_of rv) = [] ∧ result_of rv = Normal tt ∧ state_of rv = wv)
  ∧ (requested (trace_of rp) = [] ∧ timers_of (trace_of rp) = []
     ∧ written (trace_of rp) = [] ∧ result_of rp = Normal tt ∧ state_of rp = wp).
Proof.
  intros H rv rp. unfold rv, rp, Verbose.StatsCounter.animateCounter,
    Production.StatsCounter.animate.
  rewrite H. cbn [isNaN]. js_unfold. cbn. repeat split.
Qed.

Lemma invalid_target_schedules_nothing_witness :
  parseFloat (ToString (dataset (sample_page true false) 2 "target")) = NaN
  ∧ trace_of (Verbose.StatsCounter.animateCounter (sample_page true false) 2
                (Verbose.initial 0))
    = [enter "animateCounter" (Some 2%nat); console "error"]
  ∧ requested (trace_of (Production.StatsCounter.animate (sample_page true false) 2
                           (Production.initial 0 ""))) = [].
Proof.
  assert (parseFloat (ToString (dataset (sample_page true false) 2 "target")) = NaN)
    as H by reflexivity.
  split; [exact H |]. split; [reflexivity |].
  destruct (invalid_target_schedules_nothing (sample_page true false) 2
              (Verbose.initial 0) (Production.initial 0 "") H) as [_ [Hr _]].
  exact Hr.
Defined.

(** C6, as stated, fails: the fallback of [AnimationModule] starts its
    first entrance animation with delay 0, not 500. *)
Lemma animation_fallback_delay_counterexample :
  timers_of (trace_of
    (Verbose.AnimationModule.setupIntersectionObserver (sample_page false false)
       (Verbose.initial 0)))
  = [ (Verbose.fallbackAnimateIn 4, 0%Z); (Verbose.fallbackAnimateIn 5, 100%Z);
      (Verbose.fallbackTransaction, 2000%Z) ]
  ∧ timers_of (trace_of
      (Verbose.AnimationModule.setupIntersectionObserver (sample_page false false)
         (Verbose.initial 0)))
    ≠ imap (λ i el, (Verbose.fallbackAnimateIn el, (500 + Z.of_nat i * 200)%Z))
        [4; 5]%nat.
Proof. split; [reflexivity | discriminate]. Qed.

(** C6, amended: without [IntersectionObserver] the counters' fallback, in
    both variants, starts the i-th counter (0-based) after exactly
    500 + 200 * i ms; the fallback of the entrance animations, in both
    variants, animates the i-th element after 100 * i ms and starts the
    transaction sequence after 2000 ms.  The timers are stated with what
    their closures do: the counter closure runs the driver, the entrance
    closure adds the class [animate-in], the last one runs the transaction
    sequence. *)
Theorem fallback_delays (doc : Document) (wv : Verbose.World) (wp : Production.World) :
  IntersectionObserver_supported doc = false →
  timers_of (trace_of (Verbose.StatsCounter.setupObserver doc wv))
  = imap (λ i stat, (Verbose.fallbackCounter stat, (500 + Z.of_nat i * 200)%Z))
      (querySelectorAll doc ".stats-value[data-target]")
  ∧ timers_of (trace_of (Production.StatsCounter.init doc wp))
    = imap (λ i el, (Production.fallbackAnimate el, (500 + Z.of_nat i * 200)%Z))
        (querySelectorAll doc ".stats-value[data-target]")
  ∧ (∀ stat t w, Verbose.run_callback doc (Verbose.fallbackCounter stat) t w
                 = Verbose.StatsCounter.animateCounter doc stat w)
  ∧ (∀ modules el t w, Production.run_callback doc modules (Production.fallbackAnimate el) t w
                       = Production.StatsCounter.animate doc el w)
  ∧ timers_of (trace_of (Verbose.AnimationModule.setupIntersectionObserver doc wv))
    = imap (λ i el, (Verbose.fallbackAnimateIn el, (Z.of_nat i * 100)%Z))
        (querySelectorAll doc animateElements)
      ++ [(Verbose.fallbackTransaction, 2000%Z)]
  ∧ timers_of (trace_of (Production.Animations.init doc wp))
    = imap (λ i el, (Production.fallbackAnimateIn el, (Z.of_nat i * 100)%Z))
        (querySelectorAll doc animateElements)
      ++ [(Production.fallbackTransactions, 2000%Z)]
  ∧ (∀ el t w, Verbose.run_callback doc (Verbose.fallbackAnimateIn el) t w
               = (w, [classList_add el "animate-in"], Normal tt))
  ∧ (∀ modules el t w,
       Production.run_callback doc modules (Production.fallbackAnimateIn el) t w
       = (w, [classList_add el "animate-in"], Normal tt))
  ∧ (∀ t w, Verbose.run_callback doc Verbose.fallbackTransaction t w
            = Verbose.AnimationModule.animateTransactionSection doc None w)
  ∧ (∀ modules t w,
       Production.run_callback doc modules Production.fallbackTransactions t w
       = Production.Animations.animateTransactions doc w).
Proof.
  intros H.
  unfold Verbose.StatsCounter.setupObserver, Production.StatsCounter.init,
    Verbose.AnimationModule.setupIntersectionObserver, Production.Animations.init,
    Verbose.StatsCounter.fallbackAnimation, Production.StatsCounter.fallback,
    Verbose.AnimationModule.fallbackAnimation, Production.Animations.fallback.
  rewrite H. cbn [negb]. unfold trace_of.
  rewrite !bind_emit.
  rewrite (forEach_emit (W := Verbose.World)
             (λ stat index, setTimeout (Verbose.fallbackCounter stat)
                              (500 + Z.of_nat index * 200)%Z)).
  rewrite (forEach_emit (W := Production.World)
             (λ el i, setTimeout (Production.fallbackAnimate el)
                        (500 + Z.of_nat i * 200)%Z)).
  rewrite (bind_forEach_emit (W := Verbose.World)
             (λ element index, setTimeout (Verbose.fallbackAnimateIn element)
                                 (Z.of_nat index * STAGGER_DELAY)%Z)).
  rewrite (bind_forEach_emit (W := Production.World)
             (λ el i, setTimeout (Production.fallbackAnimateIn el)
                        (Z.of_nat i * STAGGER_DELAY)%Z)).
  unfold emit. cbn [fst snd app].
  repeat split.
  - change (timers_of ([console "warn"] ++
      imap (λ n x, setTimeout (Verbose.fallbackCounter x) (500 + Z.of_nat n * 200)%Z)
        (querySelectorAll doc ".stats-value[data-target]")) = 
      imap (λ i stat, (Verbose.fallbackCounter stat, (500 + Z.of_nat i * 200)%Z))
        (querySelectorAll doc ".stats-value[data-target]")).
    rewrite timers_of_app.
    apply (timers_of_imap_setTimeout (λ stat _, Verbose.fallbackCounter stat)).
  - apply (timers_of_imap_setTimeout (λ el _, Production.fallbackAnimate el)).
  - change (timers_of ([console "warn"] ++
      imap (λ n x, setTimeout (Verbose.fallbackAnimateIn x) (Z.of_nat n * STAGGER_DELAY)%Z)
        (querySelectorAll doc animateElements)
      ++ [setTimeout Verbose.fallbackTransaction 2000]) =
      imap (λ i el, (Verbose.fallbackAnimateIn el, (Z.of_nat i * 100)%Z))
        (querySelectorAll doc animateElements) ++ [(Verbose.fallbackTransaction, 2000%Z)]).
    rewrite !timers_of_app.
    rewrite (timers_of_imap_setTimeout (λ el _, Verbose.fallbackAnimateIn el)
               (λ n, (Z.of_nat n * STAGGER_DELAY)%Z)).
    reflexivity.
  - rewrite !timers_of_app.
    rewrite (timers_of_imap_setTimeout (λ el _, Production.fallbackAnimateIn el)
               (λ n, (Z.of_nat n * STAGGER_DELAY)%Z)).
    reflexivity.
Qed.

Lemma fallback_delays_witness :
  IntersectionObserver_supported (sample_page false false) = false
  ∧ timers_of (trace_of (Verbose.StatsCounter.setupObserver (sample_page false false)
                           (Verbose.initial 0)))
    = [ (Verbose.fallbackCounter 1, 500%Z); (Verbose.fallbackCounter 2, 700%Z);
        (Verbose.fallbackCounter 3, 900%Z) ].
Proof.
  split; [reflexivity |].
  destruct (fallback_delays (sample_page false false) (Verbose.initial 0)
              (Production.initial 0 "") eq_refl) as [H _].
  exact H.
Defined.

(** * Properties of every host call a computation makes *)

Section EmitsOnly.
Context {W C : Type}.

Lemma emits_only_ret {A} P (a : A) : emits_only P (ret a : js W C A).
Proof. intros w e H. cbn in H. inversion H. Qed.

Lemma emits_only_skip P : emits_only P (skip : js W C unit).
Proof. apply emits_only_ret. Qed.

Lemma emits_only_get P : emits_only P (get : js W C W).
Proof. intros w e H. cbn in H. inversion H. Qed.

Lemma emits_only_modify P f : emits_only P (modify f : js W C unit).
Proof. intros w e H. cbn in H. inversion H. Qed.

Lemma emits_only_throw {A} P err : emits_only P (throw err : js W C A).
Proof. intros w e H. cbn in H. inversion H. Qed.

Lemma emits_only_emit (P : effect C → Prop) e :
  P e → emits_only P (emit e : js W C unit).
Proof.
  intros HP w e' H. cbn in H. apply list_elem_of_singleton in H. now subst.
Qed.

Lemma emits_only_bind {A B} P (m : js W C A) (k : A → js W C B) :
  emits_only P m → (∀ a, emits_only P (k a)) → emits_only P (bind m k).
Proof.
  intros Hm Hk w e. unfold bind, trace_of.
  specialize (Hm w). unfold trace_of in Hm.
  destruct (m w) as [[w1 t1] [a | err]]; cbn in *.
  - specialize (Hk a w1). unfold trace_of in Hk.
    destruct (k a w1) as [[w2 t2] r]; cbn in *.
    intros [H | H]%elem_of_app; auto.
  - auto.
Qed.

Lemma emits_only_when P b (m : js W C unit) :
  emits_only P m → emits_only P (when b m).
Proof. destruct b; [auto | intros; apply emits_only_ret]. Qed.

Lemma emits_only_forEach_from {A} P (l : list A) (f : A → nat → js W C unit) i :
  (∀ x n, emits_only P (f x n)) → emits_only P (forEach_from i l f).
Proof.
  intros Hf. revert i. induction l as [| x l IH]; intros i; cbn [forEach_from].
  - apply emits_only_ret.
  - apply emits_only_bind; [apply Hf | intros _; apply IH].
Qed.

Lemma emits_only_forEach {A} P (l : list A) (f : A → nat → js W C unit) :
  (∀ x n, emits_only P (f x n)) → emits_only P (forEach l f).
Proof. apply emits_only_forEach_from. Qed.
End EmitsOnly.

Create HintDb emits discriminated.
#[local] Hint Resolve emits_only_ret emits_only_skip emits_only_get emits_only_modify
  emits_only_throw emits_only_when emits_only_forEach : emits.
#[local] Hint Extern 2 (emits_only _ (bind _ _)) =>
  apply emits_only_bind; [| intros ?] : emits.
#[local] Hint Extern 2 (emits_only _ (emit _)) =>
  apply emits_only_emit; cbn; try reflexivity : emits.
#[local] Hint Extern 3 (emits_only _ (match ?x with _ => _ end)) => destruct x : emits.

Lemma Qle_bool_offsets (now : Q) (a b : Z) :
  Qle_bool (now + inject_Z a) (now + inject_Z b) = (a <=? b)%Z.
Proof.
  destruct (a <=? b)%Z eqn:E.
  - apply Qle_bool_iff. apply Qplus_le_r. rewrite <- Zle_Qle. lia.
  - destruct (Qle_bool (now + inject_Z a) (now + inject_Z b)) eqn:F; [| reflexivity].
    apply Qle_bool_iff in F. apply Qplus_le_r in F. rewrite <- Zle_Qle in F. lia.
Qed.

(** Timers registered by one task with delays that do not decrease fire
    in the order of their registration. *)
Lemma fire_order_sorted {C} (now : Q) (l : list (C * Z)) :
  Sorted Z.le (map snd l) →
  fire_order (map (λ '(cb, d), (now + inject_Z d, cb)) l)
  = map (λ '(cb, d), (now + inject_Z d, cb)) l.
Proof.
  induction l as [| [cb d] l IH]; intros H; [reflexivity |].
  cbn [map fire_order foldr] in *. inversion H as [| ? ? Hs Hh]; subst.
  fold (fire_order (map (λ '(cb, d), (now + inject_Z d, cb)) l)).
  rewrite (IH Hs). destruct l as [| [cb' d'] l']; [reflexivity |].
  cbn [map insert_timer fst]. rewrite Qle_bool_offsets.
  inversion Hh; subst. cbn in *. assert ((d <=? d')%Z = true) as -> by lia.
  reflexivity.
Qed.

(** * The search sequence *)

Lemma verbose_phase_not_chained (doc : Document) (cb : Verbose.callback) (t : Q) :
  verbose_phase cb = true →
  emits_only (registers_no verbose_phase) (Verbose.run_callback doc cb t).
Proof.
  destruct cb; try discriminate; intros _; cbn [Verbose.run_callback];
    unfold Verbose.SearchInterface.run_phaseInput,
      Verbose.SearchInterface.run_phaseProcessing,
      Verbose.SearchInterface.run_phaseResults,
      Verbose.SearchInterface.hidePhase, Verbose.SearchInterface.showPhase,
      Verbose.SearchInterface.startTypingAnimation,
      Verbose.SearchInterface.showSuggestions;
    auto 12 with emits.
Qed.

Lemma production_phase_not_chained (doc : Document)
    (modules : list (string * Production.js unit)) (cb : Production.callback) (t : Q) :
  production_phase cb = true →
  emits_only (registers_no production_phase) (Production.run_callback doc modules cb t).
Proof.
  destruct cb; try discriminate; intros _; cbn [Production.run_callback].
  unfold Production.SearchUI.run_phase, Production.SearchUI.setDisplay,
    Production.SearchUI.typeText, Production.SearchUI.run_type,
    Production.SearchUI.showSuggestions.
  repeat (apply emits_only_bind; [| intros ?]); auto 12 with emits.
Qed.

(** C8: every phase of the search sequence is registered by the trigger
    call itself, with a literal delay, so it is due at the trigger time
    plus its offset; the phases fire in increasing offset order; and no
    phase closure registers another phase. *)
Theorem search_sequence_absolute_offsets (doc : Document)
    (wv : Verbose.World) (wp : Production.World) :
  let tv := trace_of (Verbose.SearchInterface.startAnimationSequence doc wv) in
  let tp := trace_of (Production.SearchUI.startSequence wp) in
  timeline (Verbose.now wv) tv
  = [ (Verbose.now wv + 3000, Verbose.phaseInput);
      (Verbose.now wv + 5500, Verbose.phaseProcessing);
      (Verbose.now wv + 7500, Verbose.phaseResults) ]
  ∧ timeline (Production.now wp) tp
    = [ (Production.now wp + 500, Production.phase "#phaseIcon" 0);
        (Production.now wp + 2500, Production.phase "#phaseInput" 1);
        (Production.now wp + 4500, Production.phase "#phaseProcessing" 2);
        (Production.now wp + 6500, Production.phase "#phaseResults" 3) ]
  ∧ fire_order (timeline (Verbose.now wv) tv) = timeline (Verbose.now wv) tv
  ∧ fire_order (timeline (Production.now wp) tp) = timeline (Production.now wp) tp
  ∧ (∀ cb t, verbose_phase cb = true →
       emits_only (registers_no verbose_phase) (Verbose.run_callback doc cb t))
  ∧ (∀ modules cb t, production_phase cb = true →
       emits_only (registers_no production_phase)
         (Production.run_callback doc modules cb t)).
Proof.
  intros tv tp.
  assert (timers_of tv = [ (Verbose.phaseInput, 3000%Z);
                           (Verbose.phaseProcessing, 5500%Z);
                           (Verbose.phaseResults, 7500%Z) ]) as Ev.
  { unfold tv, Verbose.SearchInterface.startAnimationSequence,
      Verbose.SearchInterface.showPhase.
    destruct (getElementById doc "phaseIcon"); reflexivity. }
  assert (timers_of tp = [ (Production.phase "#phaseIcon" 0, 500%Z);
                           (Production.phase "#phaseInput" 1, 2500%Z);
                           (Production.phase "#phaseProcessing" 2, 4500%Z);
                           (Production.phase "#phaseResults" 3, 6500%Z) ]) as Ep
    by reflexivity.
  split_and!.
  - unfold timeline. rewrite Ev. reflexivity.
  - unfold timeline. rewrite Ep. reflexivity.
  - unfold timeline. rewrite Ev. apply fire_order_sorted.
    cbn. repeat constructor; lia.
  - unfold timeline. rewrite Ep. apply fire_order_sorted.
    cbn. repeat constructor; lia.
  - apply verbose_phase_not_chained.
  - apply production_phase_not_chained.
Qed.

Lemma search_sequence_absolute_offsets_witness :
  verbose_phase Verbose.phaseInput = true
  ∧ emits_only (registers_no verbose_phase)
      (Verbose.run_callback (sample_page true false) Verbose.phaseInput 3000)
  ∧ timers_of (trace_of
      (Verbose.run_callback (sample_page true false) Verbose.phaseInput 3000
         (Verbose.initial 3000)))
    = [(Verbose.hideNow 17, 500%Z)].
Proof.
  split; [reflexivity |]. split; [| reflexivity].
  destruct (search_sequence_absolute_offsets (sample_page true false)
              (Verbose.initial 0) (Production.initial 0 "")) as (_ & _ & _ & _ & H & _).
  apply H. reflexivity.
Defined.

(** * The transaction sequence *)

Lemma verbose_transaction_trace (doc : Document) (section : option Element)
    (w : Verbose.World) :
  Verbose.AnimationModule.animateTransactionSection doc section w
  = (w,
     enter "animateTransactionSection" section :: console "log"
       :: imap (λ i item, setTimeout (Verbose.itemAppear item) (Z.of_nat i * 200)%Z)
            (querySelectorAll doc ".transaction-item")
       ++ [ setTimeout Verbose.circlesStart
              (Z.of_nat (length (querySelectorAll doc ".transaction-item")) * 200 + 500)%Z;
            setTimeout Verbose.scrollStart
              (Z.of_nat (length (querySelectorAll doc ".transaction-item")) * 200 + 2000)%Z ],
     Normal tt).
Proof.
  unfold Verbose.AnimationModule.animateTransactionSection.
  rewrite !bind_emit.
  rewrite (bind_forEach_emit (W := Verbose.World)
             (λ item index, setTimeout (Verbose.itemAppear item) (Z.of_nat index * 200)%Z)).
  rewrite bind_emit. reflexivity.
Qed.

Lemma production_transaction_trace (doc : Document) (w : Production.World) :
  Production.Animations.animateTransactions doc w
  = (w,
     enter "animateTransactions" None
       :: imap (λ i item, setTimeout (Production.itemRun item) (Z.of_nat i * 200)%Z)
            (querySelectorAll doc ".transaction-item")
       ++ [ setTimeout Production.circlesStart
              (Z.of_nat (length (querySelectorAll doc ".transaction-item")) * 200 + 500)%Z;
            setTimeout Production.scrollStart
              (Z.of_nat (length (querySelectorAll doc ".transaction-item")) * 200 + 2000)%Z ],
     Normal tt).
Proof.
  unfold Production.Animations.animateTransactions.
  rewrite !bind_emit.
  rewrite (bind_forEach_emit (W := Production.World)
             (λ item i, setTimeout (Production.itemRun item) (Z.of_nat i * 200)%Z)).
  rewrite bind_emit. reflexivity.
Qed.

Lemma verbose_transaction_timers_of (doc : Document) (section : option Element)
    (w : Verbose.World) :
  timers_of (trace_of (Verbose.AnimationModule.animateTransactionSection doc section w))
  = verbose_transaction_timers doc.
Proof.
  rewrite verbose_transaction_trace. unfold trace_of. cbn [fst snd].
  rewrite !timers_of_cons, !timers_of_app.
  rewrite (timers_of_imap_setTimeout (λ item _, Verbose.itemAppear item)
             (λ n, (Z.of_nat n * 200)%Z)).
  reflexivity.
Qed.

Lemma production_transaction_timers_of (doc : Document) (w : Production.World) :
  timers_of (trace_of (Production.Animations.animateTransactions doc w))
  = production_transaction_timers doc.
Proof.
  rewrite production_transaction_trace. unfold trace_of. cbn [fst snd].
  rewrite !timers_of_cons, !timers_of_app.
  rewrite (timers_of_imap_setTimeout (λ item _, Production.itemRun item)
             (λ n, (Z.of_nat n * 200)%Z)).
  reflexivity.
Qed.

(** C9: with the latch set and the transaction section on the page,
    restart clears the latch and runs the whole sequence again: the same
    host calls as the run the observer started, timers from offset 0 on. *)
Theorem restart_reruns_transaction_sequence (doc : Document) (section : Element)
    (wv : Verbose.World) (wp : Production.World) :
  querySelector doc ".expense-sec-right" = Some section →
  Verbose.hasTransactionAnimated wv = true →
  Production.transactionAnimated wp = true →
  let rv := Verbose.AnimationModule.restartTransactionAnimation doc wv in
  let rp := Production.Animations.restart doc wp in
  let seen := [ {| entry_target := section; isIntersecting := true |} ] in
  (Verbose.hasTransactionAnimated (state_of rv) = false
   ∧ timers_of (trace_of rv) = verbose_transaction_timers doc
   ∧ calls "animateTransactionSection" (trace_of rv) = 1%nat
   ∧ ∀ w0, Verbose.hasTransactionAnimated w0 = false →
       trace_of (Verbose.AnimationModule.onTransactionIntersect doc seen w0)
       = trace_of rv)
  ∧ (Production.transactionAnimated (state_of rp) = false
     ∧ timers_of (trace_of rp) = production_transaction_timers doc
     ∧ calls "animateTransactions" (trace_of rp) = 1%nat
     ∧ ∀ w0, Production.transactionAnimated w0 = false →
         trace_of (Production.Animations.onTransactionIntersect doc seen w0)
         = trace_of rp ++ [unobserve "transaction" section]).
Proof.
  intros Hs Hv Hp rv rp seen.
  assert (rv = (Verbose.set_hasTransactionAnimated false wv,
                trace_of (Verbose.AnimationModule.animateTransactionSection doc
                            (Some section) wv),
                Normal tt)) as Ev.
  { unfold rv, Verbose.AnimationModule.restartTransactionAnimation.
    rewrite Hs. unfold bind, modify. rewrite !verbose_transaction_trace. reflexivity. }
  assert (rp = (Production.set_transactionAnimated false wp,
                trace_of (Production.Animations.animateTransactions doc wp),
                Normal tt)) as Ep.
  { unfold rp, Production.Animations.restart.
    rewrite Hs. unfold bind, modify. rewrite !production_transaction_trace. reflexivity. }
  rewrite Ev, Ep. unfold state_of, trace_of at 1 3 5 7. cbn [fst snd].
  split_and!.
  - reflexivity.
  - apply verbose_transaction_timers_of.
  - rewrite verbose_transaction_trace. unfold calls, trace_of. cbn [fst snd].
    rewrite !entered_cons, entered_app.
    rewrite (entered_imap_setTimeout (λ item _, Verbose.itemAppear item)
               (λ n, (Z.of_nat n * 200)%Z)).
    reflexivity.
  - intros w0 H0.
    unfold Verbose.AnimationModule.onTransactionIntersect, seen, forEach.
    cbn [forEach_from entry_target isIntersecting]. unfold bind, get.
    rewrite H0. cbn [negb andb]. rewrite !verbose_transaction_trace.
    unfold modify, ret, trace_of. cbn [fst snd app]. now rewrite !app_nil_r.
  - reflexivity.
  - apply production_transaction_timers_of.
  - rewrite production_transaction_trace. unfold calls, trace_of. cbn [fst snd].
    rewrite !entered_cons, entered_app.
    rewrite (entered_imap_setTimeout (λ item _, Production.itemRun item)
               (λ n, (Z.of_nat n * 200)%Z)).
    reflexivity.
  - intros w0 H0.
    unfold Production.Animations.onTransactionIntersect, seen, forEach.
    cbn [forEach_from entry_target isIntersecting]. unfold bind, get.
    rewrite H0. cbn [negb andb]. rewrite !production_transaction_trace.
    unfold modify, emit, ret, trace_of. cbn [fst snd app]. now rewrite !app_nil_r.
Qed.

Lemma restart_reruns_transaction_sequence_witness :
  querySelector (sample_page true false) ".expense-sec-right" = Some 8%nat
  ∧ Verbose.hasTransactionAnimated (Verbose.set_hasTransactionAnimated true (Verbose.initial 0)) = true
  ∧ Production.transactionAnimated (Production.set_transactionAnimated true (Production.initial 0 "")) = true
  ∧ timers_of (trace_of
      (Verbose.AnimationModule.restartTransactionAnimation (sample_page true false)
         (Verbose.set_hasTransactionAnimated true (Verbose.initial 0))))
    = [ (Verbose.itemAppear 6, 0%Z); (Verbose.itemAppear 7, 200%Z);
        (Verbose.circlesStart, 900%Z); (Verbose.scrollStart, 2400%Z) ].
Proof.
  split; [reflexivity |]. split; [reflexivity |]. split; [reflexivity |].
  destruct (restart_reruns_transaction_sequence (sample_page true false) 8
              (Verbose.set_hasTransactionAnimated true (Verbose.initial 0))
              (Production.set_transactionAnimated true (Production.initial 0 ""))
              eq_refl eq_refl eq_refl) as [(_ & H & _) _].
  exact H.
Defined.

(** * One-shot latches *)

Section OneShot.
Context {W C X : Type}.
(** [fired w]: the latch is set in [w].  [relevant e]: the entry passes
    the tests of the callback other than the latch.  [observed]: what a
    trace did of the kind recorded (frames requested, timers registered),
    [run s] what one run does of it at the clock [s].  [kept s w]: the
    clock of [w] is [s]. *)
Context (fired : W → bool) (relevant : IntersectionObserverEntry → bool)
        (observed : list (effect C) → list X) (run : Q → list X)
        (set_now : Q → W → W) (kept : Q → W → Prop)
        (body : IntersectionObserverEntry → js W C unit).
Hypothesis observed_nil : observed [] = [].
Hypothesis observed_app : ∀ t1 t2, observed (t1 ++ t2) = observed t1 ++ observed t2.
Hypothesis set_now_fired : ∀ s w, fired (set_now s w) = fired w.
Hypothesis set_now_kept : ∀ s w, kept s (set_now s w).
Hypothesis body_fired : ∀ s e w, kept s w → fired w = true →
  ∃ w' t, body e w = (w', t, Normal tt) ∧ observed t = [] ∧ fired w' = true ∧ kept s w'.
Hypothesis body_relevant : ∀ s e w, kept s w → fired w = false → relevant e = true →
  ∃ w' t, body e w = (w', t, Normal tt) ∧ observed t = run s ∧ fired w' = true ∧ kept s w'.
Hypothesis body_other : ∀ s e w, kept s w → fired w = false → relevant e = false →
  ∃ w' t, body e w = (w', t, Normal tt) ∧ observed t = [] ∧ fired w' = false ∧ kept s w'.

Lemma one_batch_fired (s : Q) (entries : list IntersectionObserverEntry) (i : nat) (w : W) :
  kept s w → fired w = true →
  ∃ w' t, forEach_from i entries (λ entry _, body entry) w = (w', t, Normal tt)
          ∧ observed t = [] ∧ fired w' = true ∧ kept s w'.
Proof.
  revert i w. induction entries as [| e l IH]; intros i w Kw Hw.
  - exists w, []. repeat split; assumption.
  - destruct (body_fired s e w Kw Hw) as (w1 & t1 & E1 & C1 & F1 & K1).
    destruct (IH (S i) w1 K1 F1) as (w2 & t2 & E2 & C2 & F2 & K2).
    exists w2, (t1 ++ t2). cbn [forEach_from]. unfold bind. rewrite E1, E2.
    repeat split; try assumption. now rewrite observed_app, C1, C2.
Qed.

Lemma one_batch (s : Q) (entries : list IntersectionObserverEntry) (i : nat) (w : W) :
  kept s w → fired w = false →
  ∃ w' t, forEach_from i entries (λ entry _, body entry) w = (w', t, Normal tt)
          ∧ observed t = (if existsb relevant entries then run s else [])
          ∧ fired w' = existsb relevant entries ∧ kept s w'.
Proof.
  revert i w. induction entries as [| e l IH]; intros i w Kw Hw.
  - exists w, []. repeat split; assumption.
  - cbn [existsb forEach_from]. unfold bind.
    destruct (relevant e) eqn:R; cbn [orb].
    + destruct (body_relevant s e w Kw Hw R) as (w1 & t1 & E1 & C1 & F1 & K1).
      destruct (one_batch_fired s l (S i) w1 K1 F1) as (w2 & t2 & E2 & C2 & F2 & K2).
      exists w2, (t1 ++ t2). rewrite E1, E2.
      repeat split; try assumption. now rewrite observed_app, C1, C2, app_nil_r.
    + destruct (body_other s e w Kw Hw R) as (w1 & t1 & E1 & C1 & F1 & K1).
      destruct (IH (S i) w1 K1 F1) as (w2 & t2 & E2 & C2 & F2 & K2).
      exists w2, (t1 ++ t2). rewrite E1, E2.
      repeat split; try assumption. now rewrite observed_app, C1, C2.
Qed.

Lemma deliver_fired (deliveries : list (Q * list IntersectionObserverEntry)) (w : W) :
  fired w = true →
  observed (deliver set_now (callback_of body) deliveries w).2 = []
  ∧ fired (deliver set_now (callback_of body) deliveries w).1 = true.
Proof.
  unfold deliver. revert w. induction deliveries as [| [s b] l IH]; intros w Hw.
  - split; [apply observed_nil | exact Hw].
  - cbn [map run_tasks fst snd]. unfold callback_of at 1 3, forEach.
    rewrite <- (set_now_fired s) in Hw.
    destruct (one_batch_fired s b 0 (set_now s w) (set_now_kept s w) Hw)
      as (w1 & t1 & E1 & C1 & F1 & K1).
    rewrite E1. destruct (IH w1 F1) as [C2 F2].
    destruct (run_tasks _ w1) as [w2 t2]. cbn [fst snd] in *.
    split; [| assumption]. now rewrite observed_app, C1, C2.
Qed.

(** Whatever is delivered, in however many batches and whenever: what one
    run does at the clock of the first batch with a relevant entry, and
    nothing if there is none. *)
Lemma deliver_once (deliveries : list (Q * list IntersectionObserverEntry)) (w : W) :
  fired w = false →
  observed (deliver set_now (callback_of body) deliveries w).2
  = match first_seen relevant deliveries with Some s => run s | None => [] end
  ∧ fired (deliver set_now (callback_of body) deliveries w).1
    = bool_decide (is_Some (first_seen relevant deliveries)).
Proof.
  unfold deliver, first_seen. revert w. induction deliveries as [| [s b] l IH]; intros w Hw.
  - split; [apply observed_nil | exact Hw].
  - cbn [map run_tasks List.find fst snd]. unfold callback_of at 1 3, forEach.
    rewrite <- (set_now_fired s) in Hw.
    destruct (one_batch s b 0 (set_now s w) (set_now_kept s w) Hw)
      as (w1 & t1 & E1 & C1 & F1 & K1).
    rewrite E1. destruct (existsb relevant b) eqn:R.
    + destruct (deliver_fired l w1 F1) as [C2 F2]. unfold deliver in C2, F2.
      destruct (run_tasks _ w1) as [w2 t2]. cbn [fst snd fmap option_fmap option_map] in *.
      split; [now rewrite observed_app, C1, C2, app_nil_r |].
      rewrite F2. symmetry. apply bool_decide_eq_true. now eexists.
    + destruct (IH w1 F1) as [C2 F2].
      destruct (run_tasks _ w1) as [w2 t2]. cbn [fst snd] in *.
      split; [| assumption]. now rewrite observed_app, C1, C2.
Qed.
End OneShot.

Lemma requested_app {C} (t1 t2 : list (effect C)) :
  requested (t1 ++ t2) = requested t1 ++ requested t2.
Proof. apply omap_app. Qed.

Lemma verbose_counter_frames_app (el : Element) (t1 t2 : list (effect Verbose.callback)) :
  verbose_counter_frames el (t1 ++ t2)
  = verbose_counter_frames el t1 ++ verbose_counter_frames el t2.
Proof. unfold verbose_counter_frames. now rewrite requested_app, List.filter_app. Qed.

Lemma production_counter_frames_app (el : Element)
    (t1 t2 : list (effect Production.callback)) :
  production_counter_frames el (t1 ++ t2)
  = production_counter_frames el t1 ++ production_counter_frames el t2.
Proof. unfold production_counter_frames. now rewrite requested_app, List.filter_app. Qed.

(** The driver leaves the state as it is; the frames it requests are the
    one of its first tick, and none for a target that is no number. *)
Lemma verbose_animateCounter_requests (doc : Document) (el : Element) (w : Verbose.World) :
  ∃ t, Verbose.StatsCounter.animateCounter doc el w = (w, t, Normal tt)
       ∧ requested t = verbose_counter_start doc el (Verbose.now w).
Proof.
  unfold Verbose.StatsCounter.animateCounter, verbose_counter_start.
  destruct (isNaN _); js_unfold; cbn; eexists; split; reflexivity.
Qed.

Lemma production_animate_requests (doc : Document) (el : Element) (w : Production.World) :
  ∃ t, Production.StatsCounter.animate doc el w = (w, t, Normal tt)
       ∧ requested t = production_counter_start doc el (Production.now w).
Proof.
  unfold Production.StatsCounter.animate, production_counter_start.
  destruct (isNaN _); js_unfold; cbn; eexists; split; reflexivity.
Qed.

Lemma verbose_counter_start_frames (doc : Document) (el el' : Element) (start : Q) :
  List.filter (λ cb, match cb with
                     | Verbose.updateCounter e _ _ _ _ _ _ _ => (e =? el')%nat
                     | _ => false
                     end) (verbose_counter_start doc el start)
  = if bool_decide (el = el') then verbose_counter_start doc el start else [].
Proof.
  unfold verbose_counter_start. destruct (isNaN _).
  - now destruct (bool_decide _).
  - cbn [List.filter]. case_bool_decide as H.
    + subst. now rewrite Nat.eqb_refl.
    + apply Nat.eqb_neq in H. now rewrite H.
Qed.

Lemma production_counter_start_frames (doc : Document) (el el' : Element) (start : Q) :
  List.filter (λ cb, match cb with
                     | Production.update e _ _ _ _ _ _ => (e =? el')%nat
                     | _ => false
                     end) (production_counter_start doc el start)
  = if bool_decide (el = el') then production_counter_start doc el start else [].
Proof.
  unfold production_counter_start. destruct (isNaN _).
  - now destruct (bool_decide _).
  - cbn [List.filter]. case_bool_decide as H.
    + subst. now rewrite Nat.eqb_refl.
    + apply Nat.eqb_neq in H. now rewrite H.
Qed.

(** The frames requested for [target] over any deliveries: those of one
    start of its driver, at the clock of the first delivery that reported
    it as intersecting; and then it is latched. *)
Lemma verbose_stats_latch (doc : Document) (target : Element)
    (deliveries : list (Q * list IntersectionObserverEntry)) (w : Verbose.World) :
  target ∉ Verbose.animatedStats w →
  let r := deliver Verbose.set_now (Verbose.StatsCounter.onIntersect doc) deliveries w in
  verbose_counter_frames target r.2
  = match first_seen (intersects target) deliveries with
    | Some s => verbose_counter_start doc target s
    | None => []
    end
  ∧ bool_decide (target ∈ Verbose.animatedStats r.1)
    = bool_decide (is_Some (first_seen (intersects target) deliveries)).
Proof.
  intros Hw r. unfold r. clear r.
  change (Verbose.StatsCounter.onIntersect doc) with
    (callback_of (λ entry,
       w <- get ;;
       if isIntersecting entry
          && negb (bool_decide (entry_target entry ∈ Verbose.animatedStats w))
       then
         Verbose.StatsCounter.animateCounter doc (entry_target entry) ;;;
         modify (λ w, Verbose.set_animatedStats
                        ({[entry_target entry]} ∪ Verbose.animatedStats w) w)
       else skip)).
  pose (fired := λ w0 : Verbose.World, bool_decide (target ∈ Verbose.animatedStats w0)).
  apply (deliver_once fired (intersects target) (verbose_counter_frames target)
           (verbose_counter_start doc target) Verbose.set_now
           (λ s w0, Verbose.now w0 = s)).
  - reflexivity.
  - apply verbose_counter_frames_app.
  - reflexivity.
  - reflexivity.
  - intros s e w0 K F. unfold fired in *. apply bool_decide_eq_true in F. unfold bind, get.
    destruct (isIntersecting e && negb (bool_decide (entry_target e ∈ Verbose.animatedStats w0)))
      eqn:T.
    + destruct (verbose_animateCounter_requests doc (entry_target e) w0) as (t & E & Ht).
      rewrite E. unfold modify. cbn [fst snd]. do 2 eexists. split; [reflexivity |].
      rewrite app_nil_r, ?app_nil_l. split; [| split].
      * unfold verbose_counter_frames. rewrite Ht, verbose_counter_start_frames.
        destruct (decide (entry_target e = target)) as [Heq | Hne];
          [| now rewrite bool_decide_eq_false_2].
        rewrite Heq in T. apply andb_true_iff in T as [_ T]. apply negb_true_iff in T.
        apply bool_decide_eq_false in T. contradiction.
      * apply bool_decide_eq_true. cbn. apply elem_of_union_r. exact F.
      * exact K.
    + exists w0, []. repeat split; [now apply bool_decide_eq_true | exact K].
  - intros s e w0 K F R. unfold fired in *. apply bool_decide_eq_false in F.
    unfold intersects in R. apply andb_true_iff in R as [R1 R2].
    apply bool_decide_eq_true in R2. unfold bind, get. rewrite R1, R2.
    rewrite (bool_decide_eq_false_2 _ F). cbn [negb andb].
    destruct (verbose_animateCounter_requests doc target w0) as (t & E & Ht).
    rewrite E. unfold modify. do 2 eexists. split; [reflexivity |].
    rewrite app_nil_r, ?app_nil_l. split; [| split].
    + unfold verbose_counter_frames. rewrite Ht, verbose_counter_start_frames.
      rewrite bool_decide_eq_true_2 by reflexivity. now rewrite K.
    + apply bool_decide_eq_true. cbn. apply elem_of_union_l.
      now apply elem_of_singleton.
    + exact K.
  - intros s e w0 K F R. unfold fired in *. apply bool_decide_eq_false in F. unfold bind, get.
    destruct (isIntersecting e && negb (bool_decide (entry_target e ∈ Verbose.animatedStats w0)))
      eqn:T.
    + apply andb_true_iff in T as [T1 T2].
      unfold intersects in R. rewrite T1 in R. cbn [andb] in R.
      apply bool_decide_eq_false in R.
      destruct (verbose_animateCounter_requests doc (entry_target e) w0) as (t & E & Ht).
      rewrite E. unfold modify. do 2 eexists. split; [reflexivity |].
      rewrite app_nil_r, ?app_nil_l. split; [| split].
      * unfold verbose_counter_frames. rewrite Ht, verbose_counter_start_frames.
        now rewrite bool_decide_eq_false_2.
      * apply bool_decide_eq_false. cbn. intros [H | H]%elem_of_union.
        -- apply elem_of_singleton in H. congruence.
        -- contradiction.
      * exact K.
    + exists w0, []. repeat split; [now apply bool_decide_eq_false | exact K].
  - now apply bool_decide_eq_false.
Qed.

Lemma production_stats_latch (doc : Document) (target : Element)
    (deliveries : list (Q * list IntersectionObserverEntry)) (w : Production.World) :
  target ∉ Production.animated w →
  let r := deliver Production.set_now (Production.StatsCounter.onIntersect doc)
             deliveries w in
  production_counter_frames target r.2
  = match first_seen (intersects target) deliveries with
    | Some s => production_counter_start doc target s
    | None => []
    end
  ∧ bool_decide (target ∈ Production.animated r.1)
    = bool_decide (is_Some (first_seen (intersects target) deliveries)).
Proof.
  intros Hw r. unfold r. clear r.
  change (Production.StatsCounter.onIntersect doc) with
    (callback_of (λ entry,
       w <- get ;;
       if isIntersecting entry
          && negb (bool_decide (entry_target entry ∈ Production.animated w))
       then
         Production.StatsCounter.animate doc (entry_target entry) ;;;
         modify (λ w, Production.set_animated
                        ({[entry_target entry]} ∪ Production.animated w) w) ;;;
         emit (unobserve "stats" (entry_target entry))
       else skip)).
  pose (fired := λ w0 : Production.World, bool_decide (target ∈ Production.animated w0)).
  apply (deliver_once fired (intersects target) (production_counter_frames target)
           (production_counter_start doc target) Production.set_now
           (λ s w0, Production.now w0 = s)).
  - reflexivity.
  - apply production_counter_frames_app.
  - reflexivity.
  - reflexivity.
  - intros s e w0 K F. unfold fired in *. apply bool_decide_eq_true in F. unfold bind, get.
    destruct (isIntersecting e && negb (bool_decide (entry_target e ∈ Production.animated w0)))
      eqn:T.
    + destruct (production_animate_requests doc (entry_target e) w0) as (t & E & Ht).
      rewrite E. unfold modify, emit. cbn [fst snd]. do 2 eexists. split; [reflexivity |].
      rewrite !production_counter_frames_app. split; [| split].
      * change (production_counter_frames target t)
          with (List.filter (λ cb, match cb with
                                   | Production.update e _ _ _ _ _ _ => (e =? target)%nat
                                   | _ => false
                                   end) (requested t)).
        cbn [production_counter_frames requested omap List.filter app].
        rewrite Ht, production_counter_start_frames, ?app_nil_r.
        destruct (decide (entry_target e = target)) as [Heq | Hne];
          [| now rewrite bool_decide_eq_false_2].
        rewrite Heq in T. apply andb_true_iff in T as [_ T]. apply negb_true_iff in T.
        apply bool_decide_eq_false in T. contradiction.
      * apply bool_decide_eq_true. cbn. apply elem_of_union_r. exact F.
      * exact K.
    + exists w0, []. repeat split; [now apply bool_decide_eq_true | exact K].
  - intros s e w0 K F R. unfold fired in *. apply bool_decide_eq_false in F.
    unfold intersects in R. apply andb_true_iff in R as [R1 R2].
    apply bool_decide_eq_true in R2. unfold bind, get. rewrite R1, R2.
    rewrite (bool_decide_eq_false_2 _ F). cbn [negb andb].
    destruct (production_animate_requests doc target w0) as (t & E & Ht).
    rewrite E. unfold modify, emit. do 2 eexists. split; [reflexivity |].
    rewrite !production_counter_frames_app. split; [| split].
    + change (production_counter_frames target t)
        with (List.filter (λ cb, match cb with
                                 | Production.update e _ _ _ _ _ _ => (e =? target)%nat
                                 | _ => false
                                 end) (requested t)).
      cbn [production_counter_frames requested omap List.filter app].
      rewrite Ht, production_counter_start_frames, ?app_nil_r.
      rewrite bool_decide_eq_true_2 by reflexivity. now rewrite K.
    + apply bool_decide_eq_true. cbn. apply elem_of_union_l.
      now apply elem_of_singleton.
    + exact K.
  - intros s e w0 K F R. unfold fired in *. apply bool_decide_eq_false in F. unfold bind, get.
    destruct (isIntersecting e && negb (bool_decide (entry_target e ∈ Production.animated w0)))
      eqn:T.
    + apply andb_true_iff in T as [T1 T2].
      unfold intersects in R. rewrite T1 in R. cbn [andb] in R.
      apply bool_decide_eq_false in R.
      destruct (production_animate_requests doc (entry_target e) w0) as (t & E & Ht).
      rewrite E. unfold modify, emit. do 2 eexists. split; [reflexivity |].
      rewrite !production_counter_frames_app. split; [| split].
      * change (production_counter_frames target t)
          with (List.filter (λ cb, match cb with
                                   | Production.update e _ _ _ _ _ _ => (e =? target)%nat
                                   | _ => false
                                   end) (requested t)).
        cbn [production_counter_frames requested omap List.filter app].
        rewrite Ht, production_counter_start_frames, ?app_nil_r.
        now rewrite bool_decide_eq_false_2.
      * apply bool_decide_eq_false. cbn. intros [H | H]%elem_of_union.
        -- apply elem_of_singleton in H. congruence.
        -- contradiction.
      * exact K.
    + exists w0, []. repeat split; [now apply bool_decide_eq_false | exact K].
  - now apply bool_decide_eq_false.
Qed.



(** A target that is no number is latched all the same, and no frame is
    ever requested for it. *)
Lemma non_numeric_target_latched (doc : Document) (target : Element)
    (deliveries : list (Q * list IntersectionObserverEntry))
    (wv : Verbose.World) (wp : Production.World) :
  target ∉ Verbose.animatedStats wv →
  target ∉ Production.animated wp →
  isNaN (parseFloat (ToString (dataset doc target "target"))) = true →
  is_Some (first_seen (intersects target) deliveries) →
  let rv := deliver Verbose.set_now (Verbose.StatsCounter.onIntersect doc) deliveries wv in
  let rp := deliver Production.set_now (Production.StatsCounter.onIntersect doc)
              deliveries wp in
  verbose_counter_frames target rv.2 = []
  ∧ production_counter_frames target rp.2 = []
  ∧ target ∈ Verbose.animatedStats rv.1
  ∧ target ∈ Production.animated rp.1.
Proof.
  intros Hv Hp Hnan [s E] rv rp.
  destruct (verbose_stats_latch doc target deliveries wv Hv) as [F1 L1].
  destruct (production_stats_latch doc target deliveries wp Hp) as [F2 L2].
  rewrite E in *. unfold verbose_counter_start in F1. unfold production_counter_start in F2.
  rewrite Hnan in *.
  split; [exact F1 |]. split; [exact F2 |].
  assert (bool_decide (is_Some (Some s)) = true) as Es
    by (apply bool_decide_eq_true; now eexists).
  rewrite Es in L1, L2.
  split; [now apply bool_decide_eq_true in L1 | now apply bool_decide_eq_true in L2].
Qed.



(** * Initialisation of the modules *)

Lemma verbose_try_init (name : string) (init : Verbose.js unit) (w : Verbose.World) :
  ∃ w1 t1,
    try_catch
      (emit (enter name None) ;;;
       init ;;;
       modify (λ w, Verbose.set_app_modules (Verbose.app_modules w ++ [name]) w))
      (λ _, emit (console "error")) w
    = (w1, t1, Normal tt)
    ∧ (name, None) ∈ entered t1.
Proof.
  unfold try_catch, bind, emit, modify.
  destruct (init w) as [[w' t'] [[] | err]]; cbn; do 2 eexists;
    (split; [reflexivity |]); rewrite entered_cons; apply list_elem_of_here.
Qed.

Lemma verbose_initModules_from (modules : list (string * Verbose.js unit)) (i : nat)
    (w : Verbose.World) :
  let r := forEach_from i modules (λ '(name, init) _,
             try_catch
               (emit (enter name None) ;;;
                init ;;;
                modify (λ w, Verbose.set_app_modules (Verbose.app_modules w ++ [name]) w))
               (λ _, emit (console "error"))) w in
  result_of r = Normal tt
  ∧ ∀ name init, (name, init) ∈ modules → (name, None) ∈ entered (trace_of r).
Proof.
  revert i w. induction modules as [| [name init] l IH]; intros i w; cbn zeta.
  - split; [reflexivity |]. intros ? ? H. inversion H.
  - cbn [forEach_from].
    destruct (verbose_try_init name init w) as (w1 & t1 & E1 & Hin).
    rewrite !(bind_normal _ _ _ _ _ _ E1).
    specialize (IH (S i) w1). cbn zeta in IH. destruct IH as [IHr IHe].
    destruct (forEach_from (S i) l _ w1) as [[w2 t2] r2].
    unfold result_of, trace_of in *. cbn [fst snd] in *.
    split; [exact IHr |].
    intros n f [H | H]%elem_of_cons; rewrite entered_app; apply elem_of_app.
    + injection H as -> ->. left. exact Hin.
    + right. eapply IHe. exact H.
Qed.

(** In the instrumented variant a throwing [init] is caught on the spot:
    [initModules] ends normally and enters the [init] of every module of
    the table. *)
Lemma verbose_initModules_enters_all (modules : list (string * Verbose.js unit))
    (w : Verbose.World) :
  result_of (Verbose.ZOQQApp.initModules modules w) = Normal tt
  ∧ ∀ name init, (name, init) ∈ modules →
      (name, None) ∈ entered (trace_of (Verbose.ZOQQApp.initModules modules w)).
Proof. apply (verbose_initModules_from modules 0 w). Qed.

(** C5 fails in the production variant.  On a page without
    [requestIdleCallback], with a [ScrollFX.init] that throws, the one
    [try] around the whole loop catches the error after the loop is
    abandoned: the six modules after [ScrollFX] are never initialised.
    With [requestIdleCallback] the loop runs in the idle callback, outside
    the [try], and the error escapes it.  The instrumented variant enters
    all eight modules on the same table. *)
Theorem production_init_stops_at_first_throw :
  let table doc := Production.ZOQQApp.modules doc skip (throw TypeError) skip skip skip in
  let direct := Production.ZOQQApp.init (sample_page true false)
                  (table (sample_page true false)) (Production.initial 0 "") in
  let idle := Production.run_callback (sample_page true true)
                (table (sample_page true true)) Production.idleInit 0
                (Production.initial 0 "") in
  let verbose := Verbose.ZOQQApp.init
                   (Verbose.ZOQQApp.modules (sample_page true false)
                      skip (throw TypeError) skip skip skip)
                   (Verbose.initial 0) in
  (map fst (entered (trace_of direct)) = ["MobileNav"; "ScrollFX"]
   ∧ result_of direct = Normal tt)
  ∧ (trace_of (Production.ZOQQApp.init (sample_page true true)
                (table (sample_page true true)) (Production.initial 0 ""))
     = [requestIdleCallback Production.idleInit]
     ∧ map fst (entered (trace_of idle)) = ["MobileNav"; "ScrollFX"]
     ∧ result_of idle = Throw TypeError)
  ∧ (map fst (entered (trace_of verbose))
     = [ "MobileNavigation"; "ScrollEffects"; "StatsCounter"; "AnimationModule";
         "SmoothScroll"; "NavigationStates"; "SearchInterface"; "ButtonHandlers" ]
     ∧ Verbose.app_modules (state_of verbose)
       = [ "MobileNavigation"; "StatsCounter"; "AnimationModule";
           "SmoothScroll"; "NavigationStates"; "SearchInterface"; "ButtonHandlers" ]
     ∧ result_of verbose = Normal tt).
Proof. vm_compute. repeat split. Qed.

(** * The two drivers, tick by tick *)

Lemma positive_integer_truthy (decimals : integer) :
  integer_le (Fin 0%Z) decimals → positive_integer decimals = truthy decimals.
Proof.
  destruct decimals as [| [] | z]; cbn; try contradiction; try reflexivity.
  intros H. destruct z; cbn; [reflexivity | reflexivity | lia].
Qed.

(** With decimals that are not negative the two drivers write the same
    text on every tick, end in the same way, and either both request the
    next frame or neither does, for every target. *)
Lemma drivers_agree_nonnegative_decimals (doc : Document) (el : Element) (target : number)
    (duration decimals : integer) (prefix suffix : string) (start now : Q)
    (wv : Verbose.World) (wp : Production.World) :
  is_number target →
  integer_le (Fin 0%Z) decimals →
  let rv := Verbose.StatsCounter.run_updateCounter doc el target duration decimals
              prefix suffix start 0 now wv in
  let rp := Production.StatsCounter.run_update doc el target duration decimals
              prefix suffix start now wp in
  written (trace_of rv) = written (trace_of rp)
  ∧ result_of rv = result_of rp
  ∧ length (requested (trace_of rv)) = length (requested (trace_of rp)).
Proof.
  intros Ht Hd rv rp.
  unfold rv, rp, Verbose.StatsCounter.run_updateCounter, Production.StatsCounter.run_update.
  cbv zeta. fold (elapsed start now). fold (ratio start duration now).
  set (p := Math_min (ratio start duration now) (Fin 1)).
  fold (ease_out_quart doc (Fin 0) target p). fold (eased doc p).
  rewrite (ease_out_quart_production doc target p Ht).
  rewrite (positive_integer_truthy decimals Hd).
  destruct (truthy decimals).
  - destruct (toFixed (number_mul target (eased doc p)) decimals) as [err | s]; js_unfold.
    + cbn. repeat split.
    + destruct (number_lt p (Fin 1)); cbn; repeat split.
  - js_unfold. destruct (number_lt p (Fin 1)); cbn; repeat split.
Qed.

(** C10 fails on negative decimals.  The counter 3 of the sample page has
    [data-target="5"] and [data-decimals="-1"].  On the tick 1000 ms after
    the start the instrumented driver tests [decimals > 0], takes
    [Math.floor] and writes "4"; the production driver tests [decimals]
    for truth, calls [toFixed(-1)] and ends with a [RangeError] without
    writing. *)
Theorem negative_decimals_diverge :
  let doc := sample_page true false in
  let rv := Verbose.StatsCounter.animateCounter doc 3 (Verbose.initial 0) in
  let rp := Production.StatsCounter.animate doc 3 (Production.initial 0 "") in
  requested (trace_of rv)
  = [Verbose.updateCounter 3 (Fin 5) (Fin 2000%Z) (Fin (-1)%Z) "" "" 0 0]
  ∧ requested (trace_of rp)
    = [Production.update 3 (Fin 5) (Fin 2000%Z) (Fin (-1)%Z) "" "" 0]
  ∧ (let tick := Verbose.run_callback doc
                   (Verbose.updateCounter 3 (Fin 5) (Fin 2000%Z) (Fin (-1)%Z) "" "" 0 0)
                   1000 (state_of rv) in
     written (trace_of tick) = [(3%nat, "4")] ∧ result_of tick = Normal tt)
  ∧ (let tick := Production.run_callback doc []
                   (Production.update 3 (Fin 5) (Fin 2000%Z) (Fin (-1)%Z) "" "" 0)
                   1000 (state_of rp) in
     written (trace_of tick) = [] ∧ result_of tick = Throw RangeError).
Proof. vm_compute. repeat split. Qed.
(** * A whole run of a counter *)

Lemma run_frames_idle {W C} (run : C → Q → js W C unit) (ts : list Q) (w : W) :
  run_frames run [] ts w = (w, [], []).
Proof.
  induction ts as [| t r IH]; [reflexivity |].
  cbn [run_frames run_frame map run_tasks]. cbn [requested omap list_omap]. now rewrite IH.
Qed.

(** The frames of one counter: it writes one text per frame used, stays
    pending until a frame is done, and is gone afterwards. *)
Lemma verbose_counter_run (doc : Document) (el : Element) (target : number)
    (duration : integer) (decimals : Z) (prefix suffix : string) (start : Q) (ts : list Q)
    (w : Verbose.World) :
  (0 <= decimals <= 100)%Z →
  let cb := Verbose.updateCounter el target duration (Fin decimals) prefix suffix start 0 in
  ∃ t, run_frames (Verbose.run_callback doc) [cb] ts w
       = (w, t, if existsb (tick_done start duration) ts then [] else [cb])
       ∧ written t
         = map (λ x, (el, prefix
                          +:+ tick_text decimals (counter_value doc target start duration x)
                          +:+ suffix))
             (frames_used start duration ts).
Proof.
  intros Hd cb. induction ts as [| t r IH].
  - exists []. split; reflexivity.
  - cbn [run_frames run_frame map run_tasks existsb frames_used].
    unfold cb at 1. cbn [Verbose.run_callback].
    rewrite (verbose_tick _ _ _ _ _ _ _ _ _ _ Hd). cbv zeta.
    fold (counter_value doc target start duration t).
    unfold tick_done at 1 3.
    destruct (number_lt (Math_min (ratio start duration t) (Fin 1)) (Fin 1)) eqn:D;
      cbn [negb orb app].
    + cbn [requested omap list_omap app]. fold cb.
      destruct IH as (t' & E & Hw). rewrite E. eexists. split; [reflexivity |].
      cbn [app]. unfold written in *. cbn [omap list_omap]. cbn. f_equal. exact Hw.
    + cbn [requested omap list_omap verbose_completion app].
      rewrite run_frames_idle. eexists. split; [reflexivity |]. reflexivity.
Qed.

(** ** Order is kept by every step of the value *)

Lemma round64_not_NaN (q : Q) : round64 q ≠ NaN.
Proof.
  unfold round64. destruct (Qzero q); [discriminate |].
  destruct (Qle_bool _ _); discriminate.
Qed.

Lemma number_le_defined_l (x y : number) : number_le x y → x ≠ NaN.
Proof. destruct x; [contradiction | discriminate | discriminate]. Qed.

Lemma number_le_defined_r (x y : number) : number_le x y → y ≠ NaN.
Proof. destruct x as [| [] |], y; try contradiction; discriminate. Qed.

Lemma number_le_top (x : number) : x ≠ NaN → number_le x (Infinity false).
Proof. destruct x as [| [] |]; [contradiction | | |]; intros _; exact I. Qed.

Lemma number_le_bot (x : number) : x ≠ NaN → number_le (Infinity true) x.
Proof. destruct x as [| [] |]; [contradiction | | |]; intros _; exact I. Qed.

Ltac Qle_bool_prop :=
  repeat match goal with
         | H : Qle_bool _ _ = true |- _ => apply Qle_bool_iff in H
         | H : Qle_bool ?x ?y = false |- _ =>
             assert (y < x)
               by (let L := fresh in
                   apply Qnot_le_lt; intros L; apply Qle_bool_iff in L; congruence);
             clear H
         end.

Lemma elapsed_mono (start t t' : Q) :
  t <= t' → number_le (elapsed start t) (elapsed start t').
Proof. intros H. unfold elapsed. cbn. apply round64_mono. lra. Qed.

Lemma number_div_mono (d : Q) (a b : number) :
  0 < d → number_le a b →
  number_le (number_div a (Fin d)) (number_div b (Fin d)).
Proof.
  intros Hd H.
  assert (Qzero d = false) as Z by (apply Qzero_false; lra).
  assert (Qneg d = false) as N by (apply Qneg_false; lra).
  destruct a as [| [] | p], b as [| [] | q]; cbn in H |- *; rewrite ?Z, ?N; cbn;
    try contradiction; try exact I.
  - apply number_le_bot, round64_not_NaN.
  - apply number_le_top, round64_not_NaN.
  - apply round64_mono. unfold Qdiv. apply Qmult_le_compat_r; [exact H |].
    apply Qinv_le_0_compat. lra.
Qed.

Lemma Math_min_1_mono (a b : number) :
  number_le a b → number_le (Math_min a (Fin 1)) (Math_min b (Fin 1)).
Proof.
  intros H.
  destruct a as [| [] | p], b as [| [] | q]; cbn in H |- *;
    try contradiction; try exact I.
  - destruct (Qle_bool q 1); exact I.
  - lra.
  - destruct (Qle_bool p 1) eqn:E; cbn; Qle_bool_prop; lra.
  - destruct (Qle_bool p 1) eqn:E, (Qle_bool q 1) eqn:E'; cbn; Qle_bool_prop; lra.
Qed.

Lemma Math_min_1_le (a : number) : a ≠ NaN → number_le (Math_min a (Fin 1)) (Fin 1).
Proof.
  intros H. destruct a as [| [] | p]; cbn; [contradiction | exact I | lra |].
  destruct (Qle_bool p 1) eqn:E; cbn; Qle_bool_prop; lra.
Qed.

Lemma number_sub_anti (c : Q) (a b : number) :
  number_le a b → number_le (number_sub (Fin c) b) (number_sub (Fin c) a).
Proof.
  intros H.
  destruct a as [| [] | p], b as [| [] | q]; cbn in H |- *;
    try contradiction; try exact I.
  - apply number_le_top, round64_not_NaN.
  - apply number_le_bot, round64_not_NaN.
  - apply round64_mono. lra.
Qed.

Lemma number_mul_mono (c : Q) (a b : number) :
  0 < c → number_le a b → number_le (number_mul (Fin c) a) (number_mul (Fin c) b).
Proof.
  intros Hc H.
  assert (Qzero c = false) as Z by (apply Qzero_false; lra).
  assert (Qneg c = false) as N by (apply Qneg_false; lra).
  destruct a as [| [] | p], b as [| [] | q]; cbn in H |- *; rewrite ?Z, ?N; cbn;
    try contradiction; try exact I.
  - apply number_le_bot, round64_not_NaN.
  - apply number_le_top, round64_not_NaN.
  - apply round64_mono. apply Qmult_le_l; assumption.
Qed.

Lemma Math_floor_mono (a b : number) :
  number_le a b → integer_le (Math_floor a) (Math_floor b).
Proof.
  intros H.
  destruct a as [| [] | p], b as [| [] | q]; cbn in H |- *;
    try contradiction; try exact I.
  now apply Qfloor_resp_le.
Qed.

(** With a host whose fourth power keeps the order, so does the fourth
    power of every number from 0 on. *)
Lemma Math_pow_4_mono (doc : Document) (x y : number) :
  pow4_monotone doc → number_le (Fin 0) x → number_le x y →
  number_le (Math_pow (pow_approximated doc) x (Fin 4))
            (Math_pow (pow_approximated doc) y (Fin 4)).
Proof.
  intros Hm H0 H.
  destruct x as [| [] | p], y as [| [] | q]; cbn in H0, H; try contradiction.
  - exact I.
  - apply number_le_top. apply (number_le_defined_l _ _ (Hm p p H0 (Qle_refl p))).
  - apply Hm; assumption.
Qed.

Lemma eased_mono (doc : Document) (p p' : number) :
  pow4_monotone doc → number_le p p' → number_le p' (Fin 1) →
  number_le (eased doc p) (eased doc p').
Proof.
  intros Hm H H1. unfold eased. apply number_sub_anti.
  apply Math_pow_4_mono; [exact Hm | | now apply number_sub_anti].
  apply (number_sub_anti 1) in H1.
  replace (number_sub (Fin 1) (Fin 1)) with (Fin 0 : number) in H1
    by (symmetry; apply round64_zero; reflexivity).
  exact H1.
Qed.

Lemma counter_value_1234 (doc : Document) (start : Q) (duration : integer) (t : Q) :
  counter_value doc (Fin 1234) start duration t
  = number_mul (Fin 1234) (eased doc (Math_min (ratio start duration t) (Fin 1))).
Proof.
  unfold counter_value. apply ease_out_quart_production.
  vm_compute. reflexivity.
Qed.

(** For the target 1234 and the duration 2000 the value does not decrease
    from one timestamp to a later one. *)
Lemma counter_value_mono (doc : Document) (start t t' : Q) :
  pow4_monotone doc → t <= t' →
  number_le (counter_value doc (Fin 1234) start (Fin 2000%Z) t)
            (counter_value doc (Fin 1234) start (Fin 2000%Z) t').
Proof.
  intros Hm H. rewrite !counter_value_1234.
  apply number_mul_mono; [reflexivity |].
  assert (number_le (ratio start (Fin 2000%Z) t) (ratio start (Fin 2000%Z) t')) as Hr.
  { unfold ratio, of_integer. apply number_div_mono; [reflexivity |].
    now apply elapsed_mono. }
  apply eased_mono; [exact Hm | now apply Math_min_1_mono |].
  apply Math_min_1_le. apply (number_le_defined_r _ _ Hr).
Qed.

(** ** The last tick *)

(** The binary64 values below 2000 end one unit of the last place below
    it, at 2000 - 2^-42. *)
Lemma binary64_below_2000 (r : Q) :
  binary64 r → r < 2000 → r <= 2000 - (1 # 4398046511104).
Proof.
  intros B L.
  destruct (Qlt_le_dec r 1024) as [S | G]; [lra |].
  assert (0 < r) as P by lra.
  pose proof (binary64_round64 r B) as E. rewrite (round64_pos r P) in E.
  destruct (Qle_bool (2 ^ 1024) (nearest64 r)); [discriminate |].
  injection E as E.
  assert (nearest64 r == r) as En.
  { rewrite <- (Qred_correct (nearest64 r)), E. apply Qred_correct. }
  assert (binade r = 10%Z) as Eb.
  { apply binade_unique; [exact G |]. apply Qlt_trans with 2000; [exact L | reflexivity]. }
  rewrite nearest64_unfold in En. unfold ulp_exponent in En. rewrite Eb in En.
  change (Z.max (10 - 52) (-1074)) with (-42)%Z in En.
  set (n := round_half_even (r / 2 ^ (-42))) in En.
  change (2 ^ (-42)) with (1 # 4398046511104) in En.
  assert (n < 2000 * 4398046511104)%Z as Hn.
  { rewrite Zlt_Qlt. rewrite <- En in L.
    assert (inject_Z (2000 * 4398046511104) == 2000 * 4398046511104) as -> by reflexivity.
    lra. }
  assert (inject_Z n <= inject_Z (2000 * 4398046511104 - 1)) as Hq
    by (rewrite <- Zle_Qle; lia).
  assert (inject_Z (2000 * 4398046511104 - 1) == 2000 * 4398046511104 - 1) as Eq
    by reflexivity.
  rewrite Eq in Hq. rewrite <- En. lra.
Qed.

(** The tick is the last one exactly when the time the driver computes
    for the run is 2000 ms or more. *)
Lemma tick_done_2000 (start t : Q) :
  tick_done start (Fin 2000%Z) t = true ↔ number_le (Fin 2000) (elapsed start t).
Proof.
  unfold tick_done, ratio, elapsed, of_integer. cbn [number_sub].
  pose proof (round64_binary64 (t - start)) as B.
  destruct (round64 (t - start)) as [| [] | r] eqn:E.
  - now apply round64_not_NaN in E.
  - cbn. split; [discriminate | contradiction].
  - cbn. split; reflexivity.
  - specialize (B r eq_refl).
    change (number_div (Fin r) (Fin (inject_Z 2000))) with (round64 (r / 2000)).
    cbn [number_le]. destruct (Qlt_le_dec r 2000) as [L | G].
    + split; [| intros H; lra]. intros D. exfalso.
      pose proof (binary64_below_2000 r B L) as Hr. clear B E.
      assert (number_le (round64 (r / 2000))
                (round64 ((2000 - (1 # 4398046511104)) / 2000))) as Hm.
      { apply round64_mono. unfold Qdiv. apply Qmult_le_compat_r; [exact Hr |].
        apply Qinv_le_0_compat. lra. }
      assert (round64 ((2000 - (1 # 4398046511104)) / 2000)
              = Fin (9007199254740991 # 9007199254740992)) as Ec
        by (vm_compute; reflexivity).
      rewrite Ec in Hm. clear Ec. revert Hm D.
      destruct (round64 (r / 2000)) as [| [] | p]; cbn [number_le]; intros Hm D;
        try contradiction; try discriminate.
      unfold Math_min, number_lt in D.
      destruct (Qle_bool p 1) eqn:Ep; cbn [negb] in D.
      * apply negb_true_iff, negb_false_iff in D. Qle_bool_prop.
        assert (p < 1) by (eapply Qle_lt_trans; [exact Hm | reflexivity]). lra.
      * clear D. Qle_bool_prop.
        assert (p < 1) by (eapply Qle_lt_trans; [exact Hm | reflexivity]). lra.
    + split; [intros _; exact G |]. intros _.
      assert (number_le (Fin 1) (round64 (r / 2000))) as H1.
      { replace (Fin 1 : number) with (round64 1) by (vm_compute; reflexivity).
        apply round64_mono. apply Qle_shift_div_l; [reflexivity | lra]. }
      destruct (Math_min_done _ H1) as [D _]. now rewrite D.
Qed.

Lemma counter_value_done (doc : Document) (start t : Q) :
  tick_done start (Fin 2000%Z) t = true →
  counter_value doc (Fin 1234) start (Fin 2000%Z) t = Fin 1234.
Proof.
  intros D. rewrite counter_value_1234.
  assert (number_le (Fin 1) (ratio start (Fin 2000%Z) t)) as H1.
  { unfold tick_done in D. apply negb_true_iff in D.
    destruct (ratio start (Fin 2000%Z) t) as [| [] | p] eqn:E.
    - unfold ratio, elapsed, of_integer in E. cbn [number_sub] in E.
      destruct (round64 (t - start)) as [| [] | r] eqn:Er;
        [now apply round64_not_NaN in Er | discriminate | discriminate |].
      change (number_div (Fin r) (Fin (inject_Z 2000))) with (round64 (r / 2000)) in E.
      now apply round64_not_NaN in E.
    - discriminate.
    - exact I.
    - cbn in D |- *. destruct (Qle_bool p 1) eqn:Ep; cbn in D.
      + apply negb_false_iff in D. now apply Qle_bool_iff in D.
      + Qle_bool_prop. lra. }
  destruct (Math_min_done _ H1) as [_ E0].
  rewrite (eased_done doc _ E0). vm_compute. reflexivity.
Qed.

(** On a frame at the start time itself the value is 0, with a host whose
    fourth power of 1 is 1. *)
Lemma counter_value_start (doc : Document) (start t : Q) :
  pow4_one doc → t == start →
  counter_value doc (Fin 1234) start (Fin 2000%Z) t = Fin 0.
Proof.
  intros H1 E. rewrite counter_value_1234.
  unfold ratio, elapsed, of_integer. cbn [number_sub].
  rewrite (round64_zero (t - start)) by (rewrite E; ring).
  change (Math_min (number_div (Fin 0) (Fin (inject_Z 2000))) (Fin 1)) with (Fin 0 : number).
  unfold eased.
  change (number_sub (Fin 1) (Fin 0)) with (Fin 1 : number).
  unfold pow4_one in H1.
  destruct (Math_pow (pow_approximated doc) (Fin 1) (Fin 4)) as [| s | p];
    cbn in H1; try contradiction.
  cbn [number_sub]. rewrite (round64_zero (1 - p)) by (rewrite H1; ring).
  apply round64_zero. ring.
Qed.

Lemma frames_used_hd (start : Q) (d : integer) (t : Q) (ts : list Q) :
  HdRel Qle t ts → HdRel Qle t (frames_used start d ts).
Proof.
  intros H. destruct ts as [| x r]; [constructor |].
  inversion H; subst. cbn [frames_used].
  destruct (tick_done start d x); constructor; assumption.
Qed.

Lemma frames_used_sorted (start : Q) (d : integer) (ts : list Q) :
  Sorted Qle ts → Sorted Qle (frames_used start d ts).
Proof.
  induction 1 as [| t r Hs IH Hh]; [constructor |].
  cbn [frames_used]. destruct (tick_done start d t).
  - repeat constructor.
  - constructor; [exact IH | now apply frames_used_hd].
Qed.

Lemma map_sorted (f : Q → integer) (l : list Q) :
  (∀ x y, x <= y → integer_le (f x) (f y)) → Sorted Qle l → Sorted integer_le (map f l).
Proof.
  intros Hf. induction 1 as [| t r Hs IH Hh]; [constructor |].
  cbn [map]. constructor; [exact IH |].
  destruct r as [| y r']; [constructor |]. inversion Hh; subst.
  constructor. now apply Hf.
Qed.

(** When some frame is done, the frames used are the frames before the
    first such frame, and that frame. *)
Lemma frames_used_done (start : Q) (d : integer) (ts : list Q) :
  existsb (tick_done start d) ts = true →
  ∃ before final, frames_used start d ts = before ++ [final]
    ∧ tick_done start d final = true
    ∧ Forall (λ x, tick_done start d x = false) before.
Proof.
  induction ts as [| t r IH]; [discriminate |].
  cbn [existsb frames_used]. destruct (tick_done start d t) eqn:D; cbn [orb].
  - intros _. exists [], t. repeat split; [assumption | constructor].
  - intros H. destruct (IH H) as (b & f & E & Df & Fb).
    exists (t :: b), f. rewrite E. repeat split; [assumption |].
    constructor; assumption.
Qed.

(** ** A host that rounds the fourth power correctly *)

Lemma Math_pow_4_correctly_rounded (x : Q) :
  Math_pow correctly_rounded_pow (Fin x) (Fin 4) = round64 (x * x * x * x).
Proof.
  unfold Math_pow.
  change (Qzero 4) with false. cbn match.
  destruct (Qzero x) eqn:Z.
  - change (Qneg 4) with false. cbn match. symmetry. apply round64_zero.
    apply Qzero_true in Z. rewrite Z. ring.
  - change (is_integral 4) with true. rewrite andb_false_r.
    unfold correctly_rounded_pow. change (is_integral 4) with true. cbn match.
    change (Qfloor 4) with 4%Z. apply round64_comp.
    change (x ^ 4) with (Qpower_positive x 4). cbn. ring.
Qed.

Lemma correctly_rounded_pow4_monotone (observers idle : bool) :
  pow4_monotone (sample_page observers idle).
Proof.
  intros x y H0 H. cbn [pow_approximated sample_page].
  rewrite !Math_pow_4_correctly_rounded. apply round64_mono.
  assert (x * x <= y * y) as H2 by nra.
  assert (0 <= x * x) as P2 by nra.
  nra.
Qed.

Lemma correctly_rounded_pow4_one (observers idle : bool) :
  pow4_one (sample_page observers idle).
Proof. vm_compute. reflexivity. Qed.

(** C7, as stated, fails: the driver never writes the start value; the
    first text is the eased value of the first frame.  With frames 16,
    1000 and 2000 ms after the start the run shows "$39+", "$1156+",
    "$1234+". *)
Lemma first_text_not_zero_counterexample :
  let r := run_frames (Verbose.run_callback (sample_page true false))
             [Verbose.updateCounter 1 (Fin 1234) (Fin 2000%Z) (Fin 0%Z) "$" "+" 0 0]
             [16; 1000; 2000] (Verbose.initial 0) in
  map snd (written r.1.2) = ["$39+"; "$1156+"; "$1234+"]
  ∧ head (map snd (written r.1.2)) ≠ Some "$0+".
Proof. split; [vm_compute; reflexivity | vm_compute; discriminate]. Qed.

(** The time of the run is the one the driver computes.  A run started at
    the timestamp 0.1 and called at 2000.1, both as binary64 values, is
    less than 2000 ms old, but the difference rounds to 2000: the tick
    writes "$1234+" and requests no frame. *)
Example rounded_elapsed_ends_the_run :
  let start := 3602879701896397 # 36028797018963968 in
  let frame := 4398266413429555 # 2199023255552 in
  let r := run_frames (Verbose.run_callback (sample_page true false))
             [Verbose.updateCounter 1 (Fin 1234) (Fin 2000%Z) (Fin 0%Z) "$" "+" start 0]
             [frame] (Verbose.initial 0) in
  binary64 start ∧ binary64 frame
  ∧ frame - start < 2000
  ∧ elapsed start frame = Fin 2000
  ∧ map snd (written r.1.2) = ["$1234+"]
  ∧ r.2 = [].
Proof. vm_compute. repeat split. Qed.

(** C7, amended: for target 1234, duration 2000, no decimals, prefix "$"
    and suffix "+", over frames whose timestamps do not decrease: the
    numbers shown do not decrease, when the host's fourth power keeps the
    order; the first text is "$0+" when the first frame comes at the start
    time itself, and the host's fourth power of 1 is 1; the run ends on
    the first frame for which the time the driver computes, the binary64
    difference of timestamp and start, is 2000 ms or more, and its text is
    exactly "$1234+"; and the run stays pending as long as there is no
    such frame. *)
Theorem counter_1234_sequence (doc : Document) (el : Element) (start : Q)
    (ts : list Q) (w : Verbose.World) :
  Sorted Qle ts →
  let cb := Verbose.updateCounter el (Fin 1234) (Fin 2000%Z) (Fin 0%Z) "$" "+" start 0 in
  let r := run_frames (Verbose.run_callback doc) [cb] ts w in
  let shown := map snd (written r.1.2) in
  (pow4_monotone doc →
     ∃ zs, shown = map (λ z, "$" +:+ toString z +:+ "+") zs ∧ Sorted integer_le zs)
  ∧ (pow4_one doc →
       ∀ t0 rest, ts = t0 :: rest → t0 == start → head shown = Some "$0+")
  ∧ ((∃ t1, t1 ∈ ts ∧ number_le (Fin 2000) (elapsed start t1)) →
       r.2 = []
       ∧ ∃ before final, frames_used start (Fin 2000%Z) ts = before ++ [final]
           ∧ number_le (Fin 2000) (elapsed start final)
           ∧ Forall (λ x, ¬ number_le (Fin 2000) (elapsed start x)) before
           ∧ last shown = Some "$1234+")
  ∧ ((∀ t1, t1 ∈ ts → ¬ number_le (Fin 2000) (elapsed start t1)) → r.2 = [cb]).
Proof.
  intros Hs cb r shown.
  assert (0 <= 0 <= 100)%Z as Hd by lia.
  destruct (verbose_counter_run doc el (Fin 1234) (Fin 2000%Z) 0 "$" "+" start ts w Hd)
    as (t & E & Hw).
  fold cb in E.
  assert (shown
          = map (λ x, "$" +:+ toString (Math_floor
                                          (counter_value doc (Fin 1234) start (Fin 2000%Z) x))
                        +:+ "+")
              (frames_used start (Fin 2000%Z) ts)) as Eshown.
  { unfold shown, r. rewrite E. cbn [fst snd]. rewrite Hw, map_map. reflexivity. }
  assert (r.2 = if existsb (tick_done start (Fin 2000%Z)) ts then [] else [cb]) as Ep.
  { unfold r. rewrite E. reflexivity. }
  split; [| split; [| split]].
  - intros Hm.
    exists (map (λ x, Math_floor (counter_value doc (Fin 1234) start (Fin 2000%Z) x))
              (frames_used start (Fin 2000%Z) ts)).
    split.
    + rewrite Eshown, map_map. reflexivity.
    + apply map_sorted; [| now apply frames_used_sorted].
      intros x y Hxy. apply Math_floor_mono. now apply counter_value_mono.
  - intros H1 t0 rest -> H0. rewrite Eshown. cbn [frames_used].
    assert (head (map (λ x, "$" +:+ toString (Math_floor
                                     (counter_value doc (Fin 1234) start (Fin 2000%Z) x))
                              +:+ "+")
                    (if tick_done start (Fin 2000%Z) t0 then [t0]
                     else t0 :: frames_used start (Fin 2000%Z) rest))
            = Some ("$" +:+ toString (Math_floor
                               (counter_value doc (Fin 1234) start (Fin 2000%Z) t0))
                      +:+ "+")) as ->
      by (destruct (tick_done start (Fin 2000%Z) t0); reflexivity).
    rewrite (counter_value_start doc start t0 H1 H0). reflexivity.
  - intros (t1 & Hin & Ht1).
    assert (existsb (tick_done start (Fin 2000%Z)) ts = true) as Hex.
    { apply existsb_exists. exists t1. split; [now apply list_elem_of_In |].
      now apply tick_done_2000. }
    split; [now rewrite Ep, Hex |].
    destruct (frames_used_done start (Fin 2000%Z) ts Hex) as (b & f & Ef & Df & Fb).
    exists b, f. split; [exact Ef |]. split; [now apply tick_done_2000 |]. split.
    + eapply Forall_impl; [exact Fb |]. intros x Hx Hge. cbn in Hx.
      apply tick_done_2000 in Hge. congruence.
    + rewrite Eshown, Ef, map_app. cbn [map]. rewrite last_snoc.
      rewrite (counter_value_done doc start f Df). reflexivity.
  - intros Hall. rewrite Ep.
    destruct (existsb (tick_done start (Fin 2000%Z)) ts) eqn:Hex; [| reflexivity].
    apply existsb_exists in Hex as (x & Hin & Hx).
    apply tick_done_2000 in Hx.
    exfalso. apply (Hall x); [now apply list_elem_of_In | exact Hx].
Qed.

Lemma counter_1234_sequence_witness :
  Sorted Qle [0; 16; 1000; 2004; 2020]
  ∧ pow4_monotone (sample_page true false)
  ∧ pow4_one (sample_page true false)
  ∧ (let r := run_frames (Verbose.run_callback (sample_page true false))
                [Verbose.updateCounter 1 (Fin 1234) (Fin 2000%Z) (Fin 0%Z) "$" "+" 0 0]
                [0; 16; 1000; 2004; 2020] (Verbose.initial 0) in
     (∃ zs, map snd (written r.1.2) = map (λ z, "$" +:+ toString z +:+ "+") zs
            ∧ Sorted integer_le zs)
     ∧ head (map snd (written r.1.2)) = Some "$0+"
     ∧ last (map snd (written r.1.2)) = Some "$1234+"
     ∧ r.2 = []).
Proof.
  assert (Sorted Qle [0; 16; 1000; 2004; 2020]) as Hs.
  { repeat constructor; apply Qle_bool_iff; reflexivity. }
  pose proof (correctly_rounded_pow4_monotone true false) as Hm.
  pose proof (correctly_rounded_pow4_one true false) as H1.
  assert (∃ t1, t1 ∈ [0; 16; 1000; 2004; 2020] ∧ number_le (Fin 2000) (elapsed 0 t1)) as Hex.
  { exists 2004. split; [apply list_elem_of_In; cbn; auto |].
    vm_compute. discriminate. }
  split; [exact Hs |]. split; [exact Hm |]. split; [exact H1 |].
  destruct (counter_1234_sequence (sample_page true false) 1 0 [0; 16; 1000; 2004; 2020]
              (Verbose.initial 0) Hs) as (Hz & H0 & Hdone & _).
  cbv zeta. split; [exact (Hz Hm) |]. split; [| split].
  - apply (H0 H1 0 [16; 1000; 2004; 2020] eq_refl). reflexivity.
  - destruct (Hdone Hex) as (_ & b & f & _ & _ & _ & Hl). exact Hl.
  - destruct (Hdone Hex) as (Hp & _). exact Hp.
Defined.
(** On the sample page, with the trigger at clock 0, the timer loop fires
    the phases at exactly their offsets, in order, whatever the typing,
    hiding and suggestion timers registered in between. *)
Example search_sequence_fires_in_order :
  List.filter (λ x, verbose_phase x.2)
    (verbose_fired 40
       (Verbose.SearchInterface.startAnimationSequence (sample_page true false)))
  = [(3000, Verbose.phaseInput); (5500, Verbose.phaseProcessing);
     (7500, Verbose.phaseResults)]
  ∧ List.filter (λ x, production_phase x.2)
      (production_fired 40 Production.SearchUI.startSequence)
    = [(500, Production.phase "#phaseIcon" 0); (2500, Production.phase "#phaseInput" 1);
       (4500, Production.phase "#phaseProcessing" 2);
       (6500, Production.phase "#phaseResults" 3)].
Proof. split; vm_compute; reflexivity. Qed.

(** The same loop for the counters' fallback: the drivers start at 500,
    700 and 900 ms. *)
Example fallback_fires_at_offsets :
  verbose_fired 3 (Verbose.StatsCounter.setupObserver (sample_page false false))
  = [(500, Verbose.fallbackCounter 1); (700, Verbose.fallbackCounter 2);
     (900, Verbose.fallbackCounter 3)].
Proof. vm_compute. reflexivity. Qed.

(** A restart between two deliveries clears the latch without setting
    it: the section that is seen again starts the sequence once more, and
    the timers of the sequence are registered three times. *)
Example restart_rearms_the_latch :
  let doc := sample_page true false in
  let seen := [ {| entry_target := 8%nat; isIntersecting := true |} ] in
  timers_of
    (run_tasks [ Verbose.AnimationModule.onTransactionIntersect doc seen;
                 Verbose.AnimationModule.onTransactionIntersect doc seen;
                 Verbose.AnimationModule.restartTransactionAnimation doc;
                 Verbose.AnimationModule.onTransactionIntersect doc seen ]
       (Verbose.initial 0)).2
  = verbose_transaction_timers doc ++ verbose_transaction_timers doc
    ++ verbose_transaction_timers doc.
Proof. vm_compute. reflexivity. Qed.

(** In the production variant the loop over the modules is abandoned at
    the first [init] that throws: what comes after it in the table has no
    influence on the outcome. *)
Lemma production_initAll_abandons (before after : list (string * Production.js unit))
    (name : string) (init : Production.js unit) (e : error) (w : Production.World) :
  (∀ w', result_of (init w') = Throw e) →
  Production.ZOQQApp.initAll (before ++ (name, init) :: after) w
  = Production.ZOQQApp.initAll (before ++ [(name, init)]) w.
Proof.
  intros Hthrow. unfold Production.ZOQQApp.initAll, forEach. generalize 0%nat.
  revert w. induction before as [| [n f] l IH]; intros w i.
  - cbn [app forEach_from]. unfold bind, emit.
    specialize (Hthrow w). unfold result_of in Hthrow.
    destruct (init w) as [[w1 t1] r1]. cbn in Hthrow. subst r1. reflexivity.
  - cbn [app forEach_from]. apply bind_ext. intros _ w1. apply IH.
Qed.

(** With negative decimals the production driver throws on every tick and
    writes nothing, while the instrumented driver writes the floor of the
    value. *)
Lemma negative_decimals_every_tick (doc : Document) (el : Element) (target : number)
    (duration : integer) (decimals : Z)
    (prefix suffix : string) (start now : Q)
    (wv : Verbose.World) (wp : Production.World) :
  (decimals < 0)%Z →
  let rv := Verbose.StatsCounter.run_updateCounter doc el target duration (Fin decimals)
              prefix suffix start 0 now wv in
  let rp := Production.StatsCounter.run_update doc el target duration (Fin decimals)
              prefix suffix start now wp in
  written (trace_of rv)
  = [(el, prefix
          +:+ toString (Math_floor (counter_value doc target start duration now))
          +:+ suffix)]
  ∧ result_of rv = Normal tt
  ∧ written (trace_of rp) = [] ∧ result_of rp = Throw RangeError.
Proof.
  intros Hd rv rp.
  unfold rv, rp, Verbose.StatsCounter.run_updateCounter, Production.StatsCounter.run_update.
  cbv zeta. fold (elapsed start now). fold (ratio start duration now).
  set (p := Math_min (ratio start duration now) (Fin 1)).
  fold (ease_out_quart doc (Fin 0) target p). fold (eased doc p).
  fold (counter_value doc target start duration now).
  assert (positive_integer (Fin decimals) = false) as ->
    by (destruct decimals; cbn; [reflexivity | lia | reflexivity]).
  assert (truthy (Fin decimals) = true) as ->
    by (destruct decimals; cbn; [lia | reflexivity | reflexivity]).
  rewrite toFixed_out_of_range by (left; exact Hd).
  js_unfold. destruct (number_lt p (Fin 1)); cbn; repeat split.
Qed.
(** * The start of a counter *)



(** * Whole runs of the two drivers *)

Lemma written_app {C} (t1 t2 : list (effect C)) :
  written (t1 ++ t2) = written t1 ++ written t2.
Proof. unfold written. apply omap_app. Qed.

(** A tick leaves the state alone and requests, at most, its own closure
    again. *)
Lemma verbose_tick_requests (doc : Document) (el : Element) (target : number)
    (duration decimals : integer) (prefix suffix : string) (start now : Q)
    (w : Verbose.World) :
  let cb := Verbose.updateCounter el target duration decimals prefix suffix start 0 in
  let r := Verbose.StatsCounter.run_updateCounter doc el target duration decimals
             prefix suffix start 0 now w in
  state_of r = w ∧ (requested (trace_of r) = [] ∨ requested (trace_of r) = [cb]).
Proof.
  cbv zeta. unfold Verbose.StatsCounter.run_updateCounter. cbv zeta.
  destruct (positive_integer decimals).
  - destruct (toFixed _ decimals) as [err | s]; js_unfold.
    + cbn. auto.
    + destruct (number_lt _ _); cbn; auto.
  - js_unfold. destruct (number_lt _ _); cbn; auto.
Qed.

Lemma production_tick_requests (doc : Document) (el : Element) (target : number)
    (duration decimals : integer) (prefix suffix : string) (start now : Q)
    (w : Production.World) :
  let cb := Production.update el target duration decimals prefix suffix start in
  let r := Production.StatsCounter.run_update doc el target duration decimals
             prefix suffix start now w in
  state_of r = w ∧ (requested (trace_of r) = [] ∨ requested (trace_of r) = [cb]).
Proof.
  cbv zeta. unfold Production.StatsCounter.run_update. cbv zeta.
  destruct (truthy decimals).
  - destruct (toFixed _ decimals) as [err | s]; js_unfold.
    + cbn. auto.
    + destruct (number_lt _ _); cbn; auto.
  - js_unfold. destruct (number_lt _ _); cbn; auto.
Qed.

(** X2: with decimals that are not negative, the two drivers show the
    same texts over any sequence of frames, for every target, and are still
    pending or finished together. *)
Theorem drivers_agree_over_frames (doc : Document)
    (modules : list (string * Production.js unit)) (el : Element) (target : number)
    (duration decimals : integer) (prefix suffix : string) (start : Q) (ts : list Q)
    (wv : Verbose.World) (wp : Production.World) :
  is_number target →
  integer_le (Fin 0%Z) decimals →
  let rv := run_frames (Verbose.run_callback doc)
              [Verbose.updateCounter el target duration decimals prefix suffix start 0]
              ts wv in
  let rp := run_frames (Production.run_callback doc modules)
              [Production.update el target duration decimals prefix suffix start]
              ts wp in
  written rv.1.2 = written rp.1.2 ∧ length rv.2 = length rp.2.
Proof.
  intros Ht Hd. cbv zeta. revert wv wp. induction ts as [| t r IH]; intros wv wp.
  - split; reflexivity.
  - cbn [run_frames run_frame map run_tasks Verbose.run_callback Production.run_callback].
    destruct (drivers_agree_nonnegative_decimals doc el target duration decimals
                prefix suffix start t wv wp Ht Hd) as (Hw & _ & Hl).
    destruct (verbose_tick_requests doc el target duration decimals prefix suffix
                start t wv) as [Sv Rv].
    destruct (production_tick_requests doc el target duration decimals prefix suffix
                start t wp) as [Sp Rp].
    cbv zeta in *.
    destruct (Verbose.StatsCounter.run_updateCounter doc el target duration decimals prefix
                suffix start 0 t wv) as [[wv1 tv] resv].
    destruct (Production.StatsCounter.run_update doc el target duration decimals prefix
                suffix start t wp) as [[wp1 tp] resp].
    unfold state_of, trace_of in *. cbn [fst snd] in *. subst wv1 wp1.
    rewrite !app_nil_r.
    destruct Rv as [Rv | Rv], Rp as [Rp | Rp]; rewrite Rv, Rp in *; try discriminate.
    + rewrite !run_frames_idle. cbn [fst snd]. rewrite !app_nil_r.
      split; [exact Hw | reflexivity].
    + specialize (IH wv wp).
      destruct (run_frames (Verbose.run_callback doc) _ r wv) as [[wv2 tv2] pv].
      destruct (run_frames (Production.run_callback doc modules) _ r wp) as [[wp2 tp2] pp].
      cbn [fst snd] in *. destruct IH as [IHw IHl].
      rewrite !written_app, Hw, IHw. split; [reflexivity | exact IHl].
Qed.

Lemma drivers_agree_over_frames_witness :
  is_number (Fin (51 # 4)) ∧ integer_le (Fin 0%Z) (Fin 2%Z)
  ∧ (let rp := run_frames (Production.run_callback (sample_page true false) [])
                 [Production.update 1 (Fin (51 # 4)) (Fin 1000%Z) (Fin 2%Z) "" "%" 0]
                 [0; 500; 1000; 1016] (Production.initial 0 "") in
     map snd (written rp.1.2) = ["0.00%"; "11.95%"; "12.75%"])
  ∧ (let rv := run_frames (Verbose.run_callback (sample_page true false))
                 [Verbose.updateCounter 1 (Fin (51 # 4)) (Fin 1000%Z) (Fin 2%Z) "" "%" 0 0]
                 [0; 500; 1000; 1016] (Verbose.initial 0) in
     map snd (written rv.1.2) = ["0.00%"; "11.95%"; "12.75%"]).
Proof.
  assert (is_number (Fin (51 # 4))) as Ht by (vm_compute; reflexivity).
  assert (integer_le (Fin 0%Z) (Fin 2%Z)) as Hd by (cbn; lia).
  split; [exact Ht |]. split; [exact Hd |].
  assert (let rp := run_frames (Production.run_callback (sample_page true false) [])
                 [Production.update 1 (Fin (51 # 4)) (Fin 1000%Z) (Fin 2%Z) "" "%" 0]
                 [0; 500; 1000; 1016] (Production.initial 0 "") in
          map snd (written rp.1.2) = ["0.00%"; "11.95%"; "12.75%"]) as Hp
    by (vm_compute; reflexivity).
  split; [exact Hp |]. cbv zeta in *.
  destruct (drivers_agree_over_frames (sample_page true false) [] 1 (Fin (51 # 4))
              (Fin 1000%Z) (Fin 2%Z) "" "%" 0 [0; 500; 1000; 1016]
              (Verbose.initial 0) (Production.initial 0 "") Ht Hd) as [Hw _].
  rewrite Hw. exact Hp.
Defined.

Lemma production_counter_run (doc : Document)
    (modules : list (string * Production.js unit)) (el : Element) (target : number)
    (duration : integer) (decimals : Z) (prefix suffix : string) (start : Q) (ts : list Q)
    (w : Production.World) :
  is_number target →
  (0 <= decimals <= 100)%Z →
  let cb := Production.update el target duration (Fin decimals) prefix suffix start in
  ∃ t, run_frames (Production.run_callback doc modules) [cb] ts w
       = (w, t, if existsb (tick_done start duration) ts then [] else [cb])
       ∧ written t
         = map (λ x, (el, prefix
                          +:+ tick_text decimals (counter_value doc target start duration x)
                          +:+ suffix))
             (frames_used start duration ts).
Proof.
  intros Ht Hd cb. induction ts as [| t r IH].
  - exists []. split; reflexivity.
  - cbn [run_frames run_frame map run_tasks existsb frames_used].
    unfold cb at 1. cbn [Production.run_callback].
    rewrite (production_tick _ _ _ _ _ _ _ _ _ _ Hd). cbv zeta.
    rewrite <- (ease_out_quart_production doc target _ Ht).
    fold (counter_value doc target start duration t).
    unfold tick_done at 1 3.
    destruct (number_lt (Math_min (ratio start duration t) (Fin 1)) (Fin 1)) eqn:D;
      cbn [negb orb app].
    + cbn [requested omap list_omap app]. fold cb.
      destruct IH as (t' & E & Hw). rewrite E. eexists. split; [reflexivity |].
      cbn [app]. unfold written in *. cbn. f_equal. exact Hw.
    + cbn [requested omap list_omap app].
      rewrite run_frames_idle. eexists. split; [reflexivity |]. reflexivity.
Qed.

(** With a negative duration the ratio of a frame at or after the start is
    0 or less. *)
Lemma tick_done_negative (start : Q) (d : Z) (t : Q) :
  (d < 0)%Z → start <= t → tick_done start (Fin d) t = false.
Proof.
  intros Hd Ht. unfold tick_done, ratio, elapsed, of_integer. cbn [number_sub].
  assert (inject_Z d < 0) as Hq by (change 0 with (inject_Z 0); now rewrite <- Zlt_Qlt).
  assert (Qzero (inject_Z d) = false) as Zd by (apply Qzero_false; lra).
  assert (Qneg (inject_Z d) = true) as Nd by (now apply Qneg_true).
  pose proof (round64_nonneg (t - start)) as H0.
  destruct (round64 (t - start)) as [| [] | r];
    cbn [number_le] in H0; cbn [number_div]; rewrite ?Zd, ?Nd; cbn [xorb].
  - exfalso. apply H0. lra.
  - exfalso. apply H0. lra.
  - reflexivity.
  - assert (0 <= r) as Hr by (apply H0; lra).
    assert (r / inject_Z d <= 0) as Hle.
    { assert (r / inject_Z d == - (r / - inject_Z d)) as ->
        by (field; intros E; rewrite E in Hq; now apply Qlt_irrefl in Hq).
      assert (0 <= r / - inject_Z d) by (apply Qle_shift_div_l; lra). lra. }
    pose proof (round64_nonpos _ Hle) as Hn.
    destruct (round64 (r / inject_Z d)) as [| [] | p]; cbn [number_le] in Hn;
      try contradiction; try reflexivity.
    unfold Math_min, number_lt.
    destruct (Qle_bool p 1) eqn:E; cbn [negb]; Qle_bool_prop.
    + apply negb_false_iff. apply negb_true_iff.
      destruct (Qle_bool 1 p) eqn:E1; [| reflexivity]. Qle_bool_prop. lra.
    + lra.
Qed.

Lemma frames_used_all (start : Q) (d : integer) (ts : list Q) :
  existsb (tick_done start d) ts = false → frames_used start d ts = ts.
Proof.
  induction ts as [| t r IH]; [reflexivity |]. cbn [existsb frames_used].
  destruct (tick_done start d t); cbn [orb]; [discriminate |].
  intros H. now rewrite IH.
Qed.

(** X3: a negative duration never lets the progress reach 1.  Over frames
    that come at or after the start, both drivers write on every frame and
    are still pending after the last one, however many frames there are. *)
Theorem negative_duration_never_ends (doc : Document)
    (modules : list (string * Production.js unit)) (el : Element) (target : number)
    (duration decimals : Z) (prefix suffix : string) (start : Q) (ts : list Q)
    (wv : Verbose.World) (wp : Production.World) :
  is_number target →
  (duration < 0)%Z → (0 <= decimals <= 100)%Z → Forall (λ t, start <= t) ts →
  let cbv := Verbose.updateCounter el target (Fin duration) (Fin decimals)
               prefix suffix start 0 in
  let cbp := Production.update el target (Fin duration) (Fin decimals)
               prefix suffix start in
  let rv := run_frames (Verbose.run_callback doc) [cbv] ts wv in
  let rp := run_frames (Production.run_callback doc modules) [cbp] ts wp in
  rv.2 = [cbv] ∧ rp.2 = [cbp]
  ∧ length (written rv.1.2) = length ts ∧ length (written rp.1.2) = length ts.
Proof.
  intros Ht Hneg Hd Hts cbv cbp rv rp.
  assert (existsb (tick_done start (Fin duration)) ts = false) as Hex.
  { induction Hts as [| t r Hst _ IH]; [reflexivity |]. cbn [existsb].
    now rewrite (tick_done_negative start duration t Hneg Hst), IH. }
  destruct (verbose_counter_run doc el target (Fin duration) decimals prefix suffix
              start ts wv Hd) as (tv & Ev & Wv).
  destruct (production_counter_run doc modules el target (Fin duration) decimals
              prefix suffix start ts wp Ht Hd) as (tp & Ep & Wp).
  unfold rv, rp, cbv, cbp. rewrite Ev, Ep, Hex. cbn [fst snd].
  rewrite Wv, Wp, (frames_used_all _ _ _ Hex), !length_map. repeat split.
Qed.

Lemma negative_duration_never_ends_witness :
  is_number (Fin 100) ∧ (-2000 < 0)%Z ∧ (0 <= 0 <= 100)%Z
  ∧ Forall (λ t, 0 <= t) [16; 4000; 1000000]
  ∧ (run_frames (Verbose.run_callback (sample_page true false))
       [Verbose.updateCounter 1 (Fin 100) (Fin (-2000)%Z) (Fin 0%Z) "" "" 0 0]
       [16; 4000; 1000000] (Verbose.initial 0)).2
    = [Verbose.updateCounter 1 (Fin 100) (Fin (-2000)%Z) (Fin 0%Z) "" "" 0 0].
Proof.
  assert (is_number (Fin 100)) as Ht by (vm_compute; reflexivity).
  assert (-2000 < 0)%Z as Hn by lia.
  assert (0 <= 0 <= 100)%Z as Hd by lia.
  assert (Forall (λ t, 0 <= t) [16; 4000; 1000000]) as Hf.
  { repeat constructor; apply Qle_bool_iff; reflexivity. }
  split; [exact Ht |]. split; [exact Hn |]. split; [exact Hd |]. split; [exact Hf |].
  destruct (negative_duration_never_ends (sample_page true false) [] 1 (Fin 100) (-2000) 0
              "" "" 0 [16; 4000; 1000000] (Verbose.initial 0) (Production.initial 0 "")
              Ht Hn Hd Hf) as [H _].
  exact H.
Defined.

(** ** The value stays between 0 and the target *)

Lemma number_between_fin (a b : Q) (x : number) :
  number_le (Fin a) x → number_le x (Fin b) → ∃ r, x = Fin r ∧ a <= r ∧ r <= b.
Proof.
  destruct x as [| [] | r]; cbn; try contradiction.
  intros Ha Hb. now exists r.
Qed.

Lemma ratio_nonneg (start : Q) (d : Z) (t : Q) :
  (0 < d)%Z → start <= t → number_le (Fin 0) (ratio start (Fin d) t).
Proof.
  intros Hd Ht. unfold ratio, elapsed, of_integer. cbn [number_sub].
  assert (0 < inject_Z d) as Hq by (change 0 with (inject_Z 0); now rewrite <- Zlt_Qlt).
  assert (Qzero (inject_Z d) = false) as Zd by (apply Qzero_false; lra).
  assert (Qneg (inject_Z d) = false) as Nd by (apply Qneg_false; lra).
  pose proof (round64_nonneg (t - start)) as H0.
  destruct (round64 (t - start)) as [| [] | r];
    cbn [number_le] in H0; cbn [number_div]; rewrite ?Zd, ?Nd; cbn [xorb].
  - exfalso. apply H0. lra.
  - exfalso. apply H0. lra.
  - exact I.
  - apply round64_nonneg. apply Qle_shift_div_l; [exact Hq |]. rewrite Qmult_0_l.
    apply H0. lra.
Qed.

Lemma progress_bounds (x : number) :
  number_le (Fin 0) x →
  number_le (Fin 0) (Math_min x (Fin 1)) ∧ number_le (Math_min x (Fin 1)) (Fin 1).
Proof.
  intros H. split.
  - destruct x as [| [] | r]; cbn in H |- *; try contradiction; [lra |].
    destruct (Qle_bool r 1) eqn:E; cbn; Qle_bool_prop; lra.
  - apply Math_min_1_le. apply (number_le_defined_r _ _ H).
Qed.

Lemma eased_bounds (doc : Document) (p : number) :
  pow4_monotone doc → pow4_one doc →
  number_le (Fin 0) p → number_le p (Fin 1) →
  ∃ e, eased doc p = Fin e ∧ 0 <= e ∧ e <= 1.
Proof.
  intros Hm H1 Hp0 Hp1.
  destruct (number_between_fin _ _ _ Hp0 Hp1) as (r & -> & Hr0 & Hr1).
  unfold eased. cbn [number_sub].
  assert (number_le (Fin 0) (round64 (1 - r))) as Hb0 by (apply round64_nonneg; lra).
  assert (number_le (round64 (1 - r)) (Fin 1)) as Hb1.
  { replace (Fin 1 : number) with (round64 1) by (vm_compute; reflexivity).
    apply round64_mono. lra. }
  destruct (number_between_fin _ _ _ Hb0 Hb1) as (b & -> & Hbb0 & Hbb1).
  pose proof (Hm 0 b (Qle_refl 0) Hbb0) as Hlo.
  pose proof (Hm b 1 Hbb0 Hbb1) as Hhi.
  change (Math_pow (pow_approximated doc) (Fin 0) (Fin 4)) with (Fin 0 : number) in Hlo.
  unfold pow4_one in H1.
  destruct (Math_pow (pow_approximated doc) (Fin 1) (Fin 4)) as [| s1 | one];
    cbn [number_eq] in H1; try contradiction.
  destruct (Math_pow (pow_approximated doc) (Fin b) (Fin 4)) as [| [] | y];
    cbn [number_le] in Hlo, Hhi; try contradiction.
  assert (number_le (Fin 0) (round64 (1 - y))) as He0 by (apply round64_nonneg; lra).
  assert (number_le (round64 (1 - y)) (Fin 1)) as He1.
  { replace (Fin 1 : number) with (round64 1) by (vm_compute; reflexivity).
    apply round64_mono. lra. }
  destruct (number_between_fin _ _ _ He0 He1) as (e & E & He).
  exists e. split; [exact E | exact He].
Qed.

Lemma counter_value_bounds (doc : Document) (q start : Q) (d : Z) (t : Q) :
  pow4_monotone doc → pow4_one doc → binary64 q → 0 <= q → (0 < d)%Z → start <= t →
  ∃ v, counter_value doc (Fin q) start (Fin d) t = Fin v ∧ 0 <= v ∧ v <= q.
Proof.
  intros Hm H1 Bq Hq Hd Ht. unfold counter_value.
  rewrite (ease_out_quart_production doc (Fin q) _ Bq).
  destruct (progress_bounds _ (ratio_nonneg start d t Hd Ht)) as [Hp0 Hp1].
  destruct (eased_bounds doc _ Hm H1 Hp0 Hp1) as (e & -> & He0 & He1).
  cbn [number_mul].
  assert (number_le (Fin 0) (round64 (q * e))) as Hv0.
  { apply round64_nonneg. apply Qmult_le_0_compat; assumption. }
  assert (number_le (round64 (q * e)) (Fin q)) as Hv1.
  { pose proof (round64_mono (q * e) q) as Hr.
    rewrite (binary64_round64 q Bq) in Hr.
    assert (number_le (round64 (q * e)) (Fin (Qred q))) as Hr'.
    { apply Hr. nra. }
    clear Hr Bq. revert Hr'. destruct (round64 (q * e)) as [| [] | v]; cbn [number_le];
      try contradiction; try (intros; exact I).
    intros Hr'. now rewrite (Qred_correct q) in Hr'. }
  destruct (number_between_fin _ _ _ Hv0 Hv1) as (v & E & Hv).
  exists v. split; [exact E | exact Hv].
Qed.

Lemma counter_value_mono_from_start (doc : Document) (q start : Q) (d : Z) (t t' : Q) :
  pow4_monotone doc → pow4_one doc → binary64 q → 0 <= q → (0 < d)%Z →
  start <= t → t <= t' →
  number_le (counter_value doc (Fin q) start (Fin d) t)
            (counter_value doc (Fin q) start (Fin d) t').
Proof.
  intros Hm H1 Bq Hq Hd Ht Htt. unfold counter_value.
  rewrite !(ease_out_quart_production doc (Fin q) _ Bq).
  assert (start <= t') as Ht' by lra.
  destruct (progress_bounds _ (ratio_nonneg start d t Hd Ht)) as [Hp0 Hp1].
  destruct (progress_bounds _ (ratio_nonneg start d t' Hd Ht')) as [Hp0' Hp1'].
  assert (number_le (eased doc (Math_min (ratio start (Fin d) t) (Fin 1)))
                    (eased doc (Math_min (ratio start (Fin d) t') (Fin 1)))) as He.
  { apply eased_mono; [exact Hm | | exact Hp1']. apply Math_min_1_mono.
    unfold ratio, of_integer. apply number_div_mono; [| now apply elapsed_mono].
    change 0 with (inject_Z 0). now rewrite <- Zlt_Qlt. }
  destruct (eased_bounds doc _ Hm H1 Hp0 Hp1) as (e & E & He0 & He1).
  destruct (eased_bounds doc _ Hm H1 Hp0' Hp1') as (e' & E' & He0' & He1').
  rewrite E, E' in *. cbn [number_le] in He. cbn [number_mul].
  apply round64_mono. rewrite !(Qmult_comm q). now apply Qmult_le_compat_r.
Qed.

Lemma counter_value_done_any (doc : Document) (q start : Q) (d : Z) (t : Q) :
  binary64 q → (0 < d)%Z → start <= t →
  tick_done start (Fin d) t = true →
  counter_value doc (Fin q) start (Fin d) t = Fin (Qred q).
Proof.
  intros Bq Hd Ht D. unfold counter_value.
  rewrite (ease_out_quart_production doc (Fin q) _ Bq).
  pose proof (ratio_nonneg start d t Hd Ht) as H0.
  assert (number_le (Fin 1) (ratio start (Fin d) t)) as H1.
  { unfold tick_done in D. apply negb_true_iff in D. revert H0 D.
    destruct (ratio start (Fin d) t) as [| [] | p]; cbn [number_le]; intros H0 D;
      try contradiction; try exact I.
    unfold Math_min, number_lt in D.
    destruct (Qle_bool p 1) eqn:Ep; cbn [negb] in D.
    - apply negb_false_iff in D. now apply Qle_bool_iff in D.
    - Qle_bool_prop. lra. }
  destruct (Math_min_done _ H1) as [_ E0].
  rewrite (eased_done doc _ E0). now apply number_mul_1_r.
Qed.

Lemma frames_used_Forall (P : Q → Prop) (start : Q) (d : integer) (ts : list Q) :
  Forall P ts → Forall P (frames_used start d ts).
Proof.
  induction 1 as [| t r Ht _ IH]; [constructor |]. cbn [frames_used].
  destruct (tick_done start d t); repeat constructor; assumption.
Qed.

Lemma map_sorted_from (P : Q → Prop) (f : Q → Z) (l : list Q) :
  (∀ x y, P x → x <= y → (f x <= f y)%Z) → Forall P l → Sorted Qle l →
  Sorted Z.le (map f l).
Proof.
  intros Hf HP. induction 1 as [| t r Hs IH Hh]; [constructor |].
  inversion HP; subst. cbn [map]. constructor; [now apply IH |].
  destruct r as [| y r']; [constructor |]. inversion Hh; subst.
  constructor. now apply Hf.
Qed.

(** X4: for any target that is not negative, any positive duration and
    no decimals, over frames at or after the start with timestamps that do
    not decrease, and with a host whose fourth power keeps the order from
    0 on and is 1 at 1: the integers both drivers show never decrease,
    never go below 0 and never go above the floor of the target; when the
    run has ended the last one is the floor of the target. *)
Theorem counter_stays_within_target (doc : Document)
    (modules : list (string * Production.js unit)) (el : Element) (q : Q)
    (duration : Z) (prefix suffix : string) (start : Q) (ts : list Q)
    (wv : Verbose.World) (wp : Production.World) :
  pow4_monotone doc → pow4_one doc →
  binary64 q → 0 <= q → (0 < duration)%Z →
  Sorted Qle ts → Forall (λ t, start <= t) ts →
  let rv := run_frames (Verbose.run_callback doc)
              [Verbose.updateCounter el (Fin q) (Fin duration) (Fin 0%Z) prefix suffix
                 start 0] ts wv in
  let rp := run_frames (Production.run_callback doc modules)
              [Production.update el (Fin q) (Fin duration) (Fin 0%Z) prefix suffix start]
              ts wp in
  ∃ zs,
    map snd (written rv.1.2) = map (λ z, prefix +:+ toString (Fin z) +:+ suffix) zs
    ∧ map snd (written rp.1.2) = map (λ z, prefix +:+ toString (Fin z) +:+ suffix) zs
    ∧ Sorted Z.le zs
    ∧ Forall (λ z, (0 <= z <= Qfloor q)%Z) zs
    ∧ (rv.2 = [] → last zs = Some (Qfloor q)).
Proof.
  intros Hm H1 Bq Hq Hd Hs Hf rv rp.
  assert (0 <= 0 <= 100)%Z as H0 by lia.
  destruct (verbose_counter_run doc el (Fin q) (Fin duration) 0 prefix suffix start ts wv
              H0) as (tv & Ev & Wv).
  destruct (production_counter_run doc modules el (Fin q) (Fin duration) 0 prefix suffix
              start ts wp Bq H0) as (tp & Ep & Wp).
  set (value := λ x, match counter_value doc (Fin q) start (Fin duration) x with
                     | Fin v => Qfloor v
                     | _ => 0%Z
                     end).
  assert (∀ x, start <= x →
            tick_text 0 (counter_value doc (Fin q) start (Fin duration) x)
            = toString (Fin (value x))) as Hval.
  { intros x Hx. unfold value.
    destruct (counter_value_bounds doc q start duration x Hm H1 Bq Hq Hd Hx)
      as (v & -> & _). reflexivity. }
  assert (Forall (λ x, start <= x) (frames_used start (Fin duration) ts)) as Hfu
    by now apply frames_used_Forall.
  exists (map value (frames_used start (Fin duration) ts)).
  unfold rv, rp. rewrite Ev, Ep. cbn [fst snd]. rewrite Wv, Wp, !map_map.
  assert (map (λ x, prefix
                    +:+ tick_text 0 (counter_value doc (Fin q) start (Fin duration) x)
                    +:+ suffix) (frames_used start (Fin duration) ts)
          = map (λ x, prefix +:+ toString (Fin (value x)) +:+ suffix)
              (frames_used start (Fin duration) ts)) as Emap.
  { apply map_ext_Forall. eapply Forall_impl; [exact Hfu |]. intros x Hx. cbv beta.
    now rewrite (Hval x Hx). }
  split; [exact Emap |]. split; [exact Emap |]. split; [| split].
  - apply (map_sorted_from (λ x, start <= x)); [| exact Hfu | now apply frames_used_sorted].
    intros x y Hx Hxy. unfold value.
    pose proof (counter_value_mono_from_start doc q start duration x y
                  Hm H1 Bq Hq Hd Hx Hxy) as Hle.
    assert (start <= y) as Hy by lra.
    destruct (counter_value_bounds doc q start duration x Hm H1 Bq Hq Hd Hx)
      as (vx & Ex & _).
    destruct (counter_value_bounds doc q start duration y Hm H1 Bq Hq Hd Hy)
      as (vy & Ey & _).
    rewrite Ex, Ey in *. cbn [number_le] in Hle. now apply Qfloor_resp_le.
  - apply Forall_map. eapply Forall_impl; [exact Hfu |]. intros x Hx. unfold value. cbv beta.
    destruct (counter_value_bounds doc q start duration x Hm H1 Bq Hq Hd Hx)
      as (v & -> & Hl & Hu).
    split.
    + exact (Qfloor_resp_le 0 _ Hl).
    + exact (Qfloor_resp_le _ _ Hu).
  - destruct (existsb (tick_done start (Fin duration)) ts) eqn:Hex; [| discriminate].
    intros _.
    destruct (frames_used_done start (Fin duration) ts Hex) as (b & f & Ef & Df & _).
    assert (start <= f) as Hsf.
    { rewrite Ef in Hfu. apply Forall_app in Hfu as [_ Hfu]. now inversion Hfu. }
    rewrite Ef, map_app. cbn [map]. rewrite last_snoc. unfold value.
    rewrite (counter_value_done_any doc q start duration f Bq Hd Hsf Df).
    f_equal. apply Qfloor_comp, Qred_correct.
Qed.

Lemma counter_stays_within_target_witness :
  pow4_monotone (sample_page true false) ∧ pow4_one (sample_page true false)
  ∧ binary64 (99 # 2) ∧ 0 <= 99 # 2 ∧ (0 < 1000)%Z
  ∧ Sorted Qle [5; 400; 1200] ∧ Forall (λ t, 5 <= t) [5; 400; 1200]
  ∧ ∃ zs,
      map snd (written (run_frames (Verbose.run_callback (sample_page true false))
                          [Verbose.updateCounter 1 (Fin (99 # 2)) (Fin 1000%Z) (Fin 0%Z)
                             "" "" 5 0]
                          [5; 400; 1200] (Verbose.initial 5)).1.2)
      = map (λ z, "" +:+ toString (Fin z) +:+ "") zs
      ∧ Forall (λ z, (0 <= z <= 49)%Z) zs.
Proof.
  pose proof (correctly_rounded_pow4_monotone true false) as Hm.
  pose proof (correctly_rounded_pow4_one true false) as H1.
  assert (binary64 (99 # 2)) as Bq by (vm_compute; reflexivity).
  assert (0 <= 99 # 2) as Hq by (apply Qle_bool_iff; reflexivity).
  assert (0 < 1000)%Z as Hd by lia.
  assert (Sorted Qle [5; 400; 1200]) as Hs
    by (repeat constructor; apply Qle_bool_iff; reflexivity).
  assert (Forall (λ t, 5 <= t) [5; 400; 1200]) as Hf
    by (repeat constructor; apply Qle_bool_iff; reflexivity).
  split; [exact Hm |]. split; [exact H1 |]. split; [exact Bq |].
  split; [exact Hq |]. split; [exact Hd |]. split; [exact Hs |]. split; [exact Hf |].
  destruct (counter_stays_within_target (sample_page true false) [] 1 (99 # 2) 1000 "" ""
              5 [5; 400; 1200] (Verbose.initial 5) (Production.initial 5 "")
              Hm H1 Bq Hq Hd Hs Hf) as (zs & Hv & _ & _ & Hb & _).
  exists zs. split; [exact Hv | exact Hb].
Defined.
(** * Computations that never throw *)

Section NeverThrows.
Context {W C : Type}.

Lemma never_throws_ret {A} (a : A) : never_throws (ret a : js W C A).
Proof. intros w. now exists a. Qed.

Lemma never_throws_skip : never_throws (skip : js W C unit).
Proof. apply never_throws_ret. Qed.

Lemma never_throws_get : never_throws (get : js W C W).
Proof. intros w. now exists w. Qed.

Lemma never_throws_modify f : never_throws (modify f : js W C unit).
Proof. intros w. now exists tt. Qed.

Lemma never_throws_emit e : never_throws (emit e : js W C unit).
Proof. intros w. now exists tt. Qed.

Lemma never_throws_bind {A B} (m : js W C A) (k : A → js W C B) :
  never_throws m → (∀ a, never_throws (k a)) → never_throws (bind m k).
Proof.
  intros Hm Hk w. destruct (Hm w) as [a Ha]. unfold bind, result_of in *.
  destruct (m w) as [[w1 t1] r]. cbn in Ha. subst r.
  destruct (Hk a w1) as [b Hb]. unfold result_of in Hb.
  destruct (k a w1) as [[w2 t2] r2]. cbn in *. now exists b.
Qed.

Lemma never_throws_when b (m : js W C unit) : never_throws m → never_throws (when b m).
Proof. destruct b; [auto | intros; apply never_throws_ret]. Qed.

Lemma never_throws_try (body : js W C unit) handler :
  (∀ e, never_throws (handler e)) → never_throws (try_catch body handler).
Proof.
  intros Hh w. unfold try_catch, result_of.
  destruct (body w) as [[w1 t1] [a | e]]; [now exists a |].
  destruct (Hh e w1) as [b Hb]. unfold result_of in Hb.
  destruct (handler e w1) as [[w2 t2] r2]. cbn in *. now exists b.
Qed.

Lemma never_throws_forEach_from {A} (l : list A) (f : A → nat → js W C unit) i :
  (∀ x n, never_throws (f x n)) → never_throws (forEach_from i l f).
Proof.
  intros Hf. revert i. induction l as [| x l IH]; intros i; cbn [forEach_from].
  - apply never_throws_ret.
  - apply never_throws_bind; [apply Hf | intros _; apply IH].
Qed.

Lemma never_throws_forEach {A} (l : list A) (f : A → nat → js W C unit) :
  (∀ x n, never_throws (f x n)) → never_throws (forEach l f).
Proof. apply never_throws_forEach_from. Qed.

(** After a computation that never throws, what follows it runs. *)
Lemma bind_never_throws {B} (m : js W C unit) (k : js W C B) (w : W) :
  never_throws m →
  (m ;;; k) w
  = match k (state_of (m w)) with (w2, t2, r) => (w2, trace_of (m w) ++ t2, r) end.
Proof.
  intros Hm. destruct (Hm w) as [[] Ha]. unfold bind, result_of, state_of, trace_of in *.
  destruct (m w) as [[w1 t1] r]. cbn in *. now subst r.
Qed.
End NeverThrows.

Create HintDb normal discriminated.
#[local] Hint Resolve never_throws_ret never_throws_skip never_throws_get
  never_throws_modify never_throws_emit never_throws_when never_throws_try
  never_throws_forEach : normal.
#[local] Hint Extern 2 (never_throws (bind _ _)) =>
  apply never_throws_bind; [| intros ?] : normal.
#[local] Hint Extern 3 (never_throws (match ?x with _ => _ end)) => destruct x : normal.
#[local] Hint Extern 3 (never_throws (if ?x then _ else _)) => destruct x : normal.

Lemma verbose_animateCounter_never_throws (doc : Document) (el : Element) :
  never_throws (Verbose.StatsCounter.animateCounter doc el).
Proof. unfold Verbose.StatsCounter.animateCounter. auto 10 with normal. Qed.

Lemma verbose_setupObserver_never_throws (doc : Document) :
  never_throws (Verbose.StatsCounter.setupObserver doc).
Proof.
  unfold Verbose.StatsCounter.setupObserver, Verbose.StatsCounter.fallbackAnimation.
  auto 10 with normal.
Qed.

Lemma verbose_setupIntersectionObserver_never_throws (doc : Document) :
  never_throws (Verbose.AnimationModule.setupIntersectionObserver doc).
Proof.
  unfold Verbose.AnimationModule.setupIntersectionObserver,
    Verbose.AnimationModule.fallbackAnimation.
  auto 12 with normal.
Qed.

Lemma verbose_setupTransactionObserver_never_throws (doc : Document) :
  never_throws (Verbose.AnimationModule.setupTransactionObserver doc).
Proof. unfold Verbose.AnimationModule.setupTransactionObserver. auto 12 with normal. Qed.

Lemma verbose_observeElements_never_throws (doc : Document) :
  never_throws (Verbose.AnimationModule.observeElements doc).
Proof. unfold Verbose.AnimationModule.observeElements. auto 12 with normal. Qed.

Lemma verbose_animation_init_runs (doc : Document) (w : Verbose.World) :
  Verbose.anim_isInitialized w = false →
  ∃ w' t, Verbose.AnimationModule.init doc w
          = (Verbose.set_anim_isInitialized true w', t, Normal tt).
Proof.
  intros F. unfold Verbose.AnimationModule.init, bind at 1, get. rewrite F.
  rewrite (bind_never_throws _ _ _ (verbose_setupIntersectionObserver_never_throws doc)).
  rewrite (bind_never_throws _ _ _ (verbose_setupTransactionObserver_never_throws doc)).
  rewrite (bind_never_throws _ _ _ (verbose_observeElements_never_throws doc)).
  do 2 eexists. reflexivity.
Qed.

(** * Initialising twice *)

(** X5: the [init] of the application, of the counters and of the
    animations, in the instrumented variant, always end normally with
    their [isInitialized] flag set, whatever the page and whatever the
    modules of the table do; a second call makes no host call and changes
    nothing. *)
Theorem verbose_init_idempotent (doc : Document)
    (modules : list (string * Verbose.js unit)) (w : Verbose.World) :
  let app := Verbose.ZOQQApp.init modules w in
  let stats := Verbose.StatsCounter.init doc w in
  let anim := Verbose.AnimationModule.init doc w in
  (result_of app = Normal tt
   ∧ Verbose.app_isInitialized (state_of app) = true
   ∧ Verbose.ZOQQApp.init modules (state_of app) = (state_of app, [], Normal tt))
  ∧ (result_of stats = Normal tt
     ∧ Verbose.stats_isInitialized (state_of stats) = true
     ∧ Verbose.StatsCounter.init doc (state_of stats) = (state_of stats, [], Normal tt))
  ∧ (result_of anim = Normal tt
     ∧ Verbose.anim_isInitialized (state_of anim) = true
     ∧ Verbose.AnimationModule.init doc (state_of anim) = (state_of anim, [], Normal tt)).
Proof.
  cbv zeta. split_and!.
  - unfold Verbose.ZOQQApp.init, bind at 1, get. destruct (Verbose.app_isInitialized w) eqn:F;
      [reflexivity |].
    pose proof (proj1 (verbose_initModules_enters_all modules w)) as Hn.
    unfold try_catch, bind, modify, emit, result_of in *.
    destruct (Verbose.ZOQQApp.initModules modules w) as [[w1 t1] r1]. cbn in Hn. subst r1.
    reflexivity.
  - unfold Verbose.ZOQQApp.init, bind at 1, get. destruct (Verbose.app_isInitialized w) eqn:F;
      [exact F |].
    pose proof (proj1 (verbose_initModules_enters_all modules w)) as Hn.
    unfold try_catch, bind, modify, emit, result_of, state_of in *.
    destruct (Verbose.ZOQQApp.initModules modules w) as [[w1 t1] r1]. cbn in Hn. subst r1.
    reflexivity.
  - assert (Verbose.app_isInitialized (state_of (Verbose.ZOQQApp.init modules w)) = true) as F.
    { unfold Verbose.ZOQQApp.init, bind at 1, get.
      destruct (Verbose.app_isInitialized w) eqn:F; [exact F |].
      pose proof (proj1 (verbose_initModules_enters_all modules w)) as Hn.
      unfold try_catch, bind, modify, emit, result_of, state_of in *.
      destruct (Verbose.ZOQQApp.initModules modules w) as [[w1 t1] r1]. cbn in Hn. subst r1.
      reflexivity. }
    unfold Verbose.ZOQQApp.init at 1, bind at 1, get. now rewrite F.
  - unfold Verbose.StatsCounter.init, bind at 1, get.
    destruct (Verbose.stats_isInitialized w) eqn:F; [reflexivity |].
    unfold try_catch. rewrite (bind_never_throws _ _ _ (verbose_setupObserver_never_throws doc)).
    reflexivity.
  - unfold Verbose.StatsCounter.init, bind at 1, get.
    destruct (Verbose.stats_isInitialized w) eqn:F; [exact F |].
    unfold try_catch. rewrite (bind_never_throws _ _ _ (verbose_setupObserver_never_throws doc)).
    reflexivity.
  - assert (Verbose.stats_isInitialized (state_of (Verbose.StatsCounter.init doc w)) = true) as F.
    { unfold Verbose.StatsCounter.init, bind at 1, get.
      destruct (Verbose.stats_isInitialized w) eqn:F; [exact F |].
      unfold try_catch.
      rewrite (bind_never_throws _ _ _ (verbose_setupObserver_never_throws doc)).
      reflexivity. }
    unfold Verbose.StatsCounter.init at 1, bind at 1, get. now rewrite F.
  - destruct (Verbose.anim_isInitialized w) eqn:F.
    + unfold Verbose.AnimationModule.init, bind at 1, get. now rewrite F.
    + destruct (verbose_animation_init_runs doc w F) as (w' & t & ->). reflexivity.
  - destruct (Verbose.anim_isInitialized w) eqn:F.
    + unfold Verbose.AnimationModule.init, bind at 1, get. now rewrite F.
    + destruct (verbose_animation_init_runs doc w F) as (w' & t & ->). reflexivity.
  - assert (Verbose.anim_isInitialized (state_of (Verbose.AnimationModule.init doc w)) = true)
      as F.
    { destruct (Verbose.anim_isInitialized w) eqn:F.
      - unfold Verbose.AnimationModule.init, bind at 1, get. now rewrite F.
      - destruct (verbose_animation_init_runs doc w F) as (w' & t & ->). reflexivity. }
    unfold Verbose.AnimationModule.init at 1, bind at 1, get. now rewrite F.
Qed.

(** * When the search widget fails to initialise *)

Lemma verbose_startAnimationSequence_never_throws (doc : Document) :
  never_throws (Verbose.SearchInterface.startAnimationSequence doc).
Proof.
  unfold Verbose.SearchInterface.startAnimationSequence, Verbose.SearchInterface.showPhase.
  auto 10 with normal.
Qed.

Lemma production_search_init_never_throws (doc : Document) :
  never_throws (Production.SearchUI.init doc).
Proof.
  unfold Production.SearchUI.init, Production.SearchUI.bindEvents,
    Production.SearchUI.startSequence.
  auto 12 with normal.
Qed.

Lemma verbose_search_init_cases (doc : Document) (w : Verbose.World) :
  Verbose.search_isInitialized w = false →
  match querySelector doc "#searchInterface", querySelector doc "#searchSuggestions",
        querySelector doc "#searchInput" with
  | Some _, Some _, None => Verbose.SearchInterface.init doc w = (w, [], Throw TypeError)
  | Some _, Some _, Some _ => result_of (Verbose.SearchInterface.init doc w) = Normal tt
  | _, _, _ => Verbose.SearchInterface.init doc w = (w, [], Normal tt)
  end.
Proof.
  intros F.
  assert (Verbose.SearchInterface.init doc w
          = (match querySelector doc "#searchInterface",
                   querySelector doc "#searchSuggestions" with
             | Some _, Some _ =>
                 Verbose.SearchInterface.bindEvents doc ;;;
                 Verbose.SearchInterface.startAnimationSequence doc ;;;
                 modify (Verbose.set_search_isInitialized true) ;;;
                 emit (console "log")
             | _, _ => skip
             end) w) as ->.
  { unfold Verbose.SearchInterface.init. unfold bind at 1. unfold get.
    rewrite F. cbn.
    match goal with |- (let (_, _) := ?m in _) = _ => destruct m as [[? ?] ?] end.
    reflexivity. }
  destruct (querySelector doc "#searchInterface") as [i |] eqn:Qi; [| reflexivity].
  destruct (querySelector doc "#searchSuggestions") as [s |] eqn:Qs;
    [| destruct (querySelector doc "#searchInput"); reflexivity].
  unfold Verbose.SearchInterface.bindEvents.
  destruct (querySelector doc "#searchInput") as [input |] eqn:Qn; [| reflexivity].
  assert (never_throws
            ((emit (addEventListener input "input") ;;;
              emit (addEventListener input "focus") ;;;
              emit (addEventListener input "blur") ;;;
              forEach (querySelectorAll doc ".suggestion-item") (λ item _,
                emit (addEventListener item "click") ;;;
                emit (addEventListener item "mouseenter")) ;;;
              match querySelector doc ".search-input-wrapper" with
              | Some searchWrapper => emit (addEventListener searchWrapper "click")
              | None => skip
              end) : Verbose.js unit)) as Hb by auto 12 with normal.
  rewrite (bind_never_throws _ _ _ Hb).
  rewrite (bind_never_throws _ _ _ (verbose_startAnimationSequence_never_throws doc)).
  reflexivity.
Qed.

(** X6: [SearchInterface.init] of the instrumented variant throws exactly
    on a page that has [#searchInterface] and [#searchSuggestions] but no
    [#searchInput]; the [TypeError] comes before any listener or timer, and
    the module stays uninitialised.  On every other page it ends normally.
    [SearchUI.init] of the production variant never throws. *)
Theorem search_init_throws_iff (doc : Document)
    (w : Verbose.World) (wp : Production.World) :
  Verbose.search_isInitialized w = false →
  let r := Verbose.SearchInterface.init doc w in
  (result_of r = Throw TypeError
   ↔ is_Some (querySelector doc "#searchInterface")
     ∧ is_Some (querySelector doc "#searchSuggestions")
     ∧ querySelector doc "#searchInput" = None)
  ∧ (result_of r = Throw TypeError → trace_of r = [] ∧ state_of r = w)
  ∧ (result_of r ≠ Throw TypeError → result_of r = Normal tt)
  ∧ result_of (Production.SearchUI.init doc wp) = Normal tt.
Proof.
  intros F r.
  assert (result_of (Production.SearchUI.init doc wp) = Normal tt) as Hp.
  { destruct (production_search_init_never_throws doc wp) as [[] H]. exact H. }
  pose proof (verbose_search_init_cases doc w F) as Hc. fold r in Hc.
  destruct (querySelector doc "#searchInterface") as [i |].
  2: { rewrite Hc. split_and!.
       - split; [intros [=] | intros [H _]; now apply is_Some_None in H].
       - intros [=].
       - reflexivity.
       - exact Hp. }
  destruct (querySelector doc "#searchSuggestions") as [s |].
  2: { rewrite Hc. split_and!.
       - split; [intros [=] | intros (_ & H & _); now apply is_Some_None in H].
       - intros [=].
       - reflexivity.
       - exact Hp. }
  destruct (querySelector doc "#searchInput") as [input |].
  - rewrite Hc. split_and!.
    + split; [intros [=] | intros (_ & _ & [=])].
    + intros [=].
    + reflexivity.
    + exact Hp.
  - rewrite Hc. split_and!.
    + split; [intros _; repeat split; eauto | reflexivity].
    + intros _. split; reflexivity.
    + intros H. now contradict H.
    + exact Hp.
Qed.

Lemma search_init_throws_iff_witness :
  let page := {| pow_approximated := correctly_rounded_pow;
                 IntersectionObserver_supported := true;
                 requestIdleCallback_supported := false;
                 reportError_supported := false;
                 style_readback := λ s, s;
                 querySelectorAll := λ selector,
                   if String.eqb selector "#searchInterface" then [1%nat]
                   else if String.eqb selector "#searchSuggestions" then [2%nat]
                   else [];
                 getElementById := λ _, None;
                 dataset := λ _ _, None;
                 classList_contains := λ _ _, false |} in
  Verbose.search_isInitialized (Verbose.initial 0) = false
  ∧ result_of (Verbose.SearchInterface.init page (Verbose.initial 0)) = Throw TypeError.
Proof.
  intros page. split; [reflexivity |].
  destruct (search_init_throws_iff page (Verbose.initial 0) (Production.initial 0 "")
              eq_refl) as [[_ H] _].
  apply H. repeat split; eexists; reflexivity.
Defined.
(** * The typing animation of the search widget *)

Lemma run_tasks_cons {W C} (task : js W C unit) (rest : list (js W C unit)) (w : W) :
  run_tasks (task :: rest) w
  = ((run_tasks rest (state_of (task w))).1,
     trace_of (task w) ++ (run_tasks rest (state_of (task w))).2).
Proof.
  cbn. destruct (task w) as [[w1 t1] c]. cbn.
  destruct (run_tasks rest w1) as [w2 t2]. reflexivity.
Qed.

Lemma values_set_app {C} (a b : list (effect C)) :
  values_set (a ++ b) = values_set a ++ values_set b.
Proof. apply omap_app. Qed.

Lemma intervals_cleared_app {C} (a b : list (effect C)) :
  intervals_cleared (a ++ b) = intervals_cleared a ++ intervals_cleared b.
Proof. apply omap_app. Qed.

Lemma append_assoc (a b c : string) : (a +:+ b) +:+ c = a +:+ (b +:+ c).
Proof.
  induction a as [| x a IH]; [reflexivity |].
  change (String x ((a +:+ b) +:+ c) = String x (a +:+ (b +:+ c))). now rewrite IH.
Qed.

Lemma append_empty (a : string) : a +:+ "" = a.
Proof.
  induction a as [| x a IH]; [reflexivity |].
  change (String x (a +:+ "") = String x a). now rewrite IH.
Qed.

Lemma verbose_typeTick_types (input : Element) (k : nat) (w : Verbose.World) :
  (k < 6)%nat →
  Verbose.typing_index w = k →
  Verbose.typing_currentText w = substring 0 k "Jack I" →
  Verbose.SearchInterface.run_typeTick input w
  = (Verbose.set_typing (substring 0 (S k) "Jack I") (S k) w,
     [set_value input (substring 0 (S k) "Jack I")], Normal tt).
Proof.
  intros Hk Hi Ht. unfold Verbose.SearchInterface.run_typeTick, bind at 1, get.
  rewrite Hi, Ht.
  do 6 (destruct k as [| k]; [reflexivity |]). lia.
Qed.

Lemma verbose_typeTick_clears (input : Element) (w : Verbose.World) :
  (6 <= Verbose.typing_index w)%nat →
  Verbose.SearchInterface.run_typeTick input w
  = (w, [clearInterval (Verbose.typeTick input)], Normal tt).
Proof.
  intros Hk. unfold Verbose.SearchInterface.run_typeTick, bind at 1, get.
  destruct (Verbose.typing_index w) as [| [| [| [| [| [| k]]]]]]; try lia.
  reflexivity.
Qed.

Lemma verbose_typing_from (input : Element) (n k : nat) (w : Verbose.World) :
  (k <= 6)%nat →
  Verbose.typing_index w = k →
  Verbose.typing_currentText w = substring 0 k "Jack I" →
  values_set (run_tasks (repeat (Verbose.SearchInterface.run_typeTick input) n) w).2
  = map (λ j, (input, substring 0 j "Jack I")) (seq (S k) (min (k + n) 6 - k))
  ∧ intervals_cleared (run_tasks (repeat (Verbose.SearchInterface.run_typeTick input) n) w).2
    = repeat (Verbose.typeTick input) (k + n - 6).
Proof.
  revert k w. induction n as [| n IH]; intros k w Hk Hi Ht.
  - cbn. replace (min (k + 0) 6 - k)%nat with 0%nat by lia.
    replace (k + 0 - 6)%nat with 0%nat by lia. split; reflexivity.
  - cbn [repeat]. rewrite !run_tasks_cons.
    destruct (decide (k < 6)%nat) as [Hlt | Hge].
    + rewrite (verbose_typeTick_types input k w Hlt Hi Ht). cbn [state_of trace_of fst snd].
      destruct (IH (S k) (Verbose.set_typing (substring 0 (S k) "Jack I") (S k) w))
        as [Hv Hc]; [lia | reflexivity | reflexivity |].
      rewrite values_set_app, intervals_cleared_app, Hv, Hc.
      replace (min (k + S n) 6 - k)%nat with (S (min (S k + n) 6 - S k)) by lia.
      replace (k + S n - 6)%nat with (S k + n - 6)%nat by lia.
      split; reflexivity.
    + assert (k = 6)%nat as -> by lia.
      rewrite (verbose_typeTick_clears input w) by lia. cbn [state_of trace_of fst snd].
      destruct (IH 6%nat w) as [Hv Hc]; [lia | exact Hi | exact Ht |].
      rewrite values_set_app, intervals_cleared_app, Hv, Hc.
      replace (min (6 + S n) 6 - 6)%nat with 0%nat by lia.
      replace (min (6 + n) 6 - 6)%nat with 0%nat by lia.
      replace (6 + S n - 6)%nat with (S (6 + n - 6)) by lia.
      split; reflexivity.
Qed.

Lemma production_type_types (input : Element) (v : string) (k : nat)
    (w : Production.World) :
  (k < 6)%nat →
  Production.type_i w = k →
  Production.input_value w = v +:+ substring 0 k "Jack I" →
  Production.SearchUI.run_type input w
  = (Production.set_typing (S k) (v +:+ substring 0 (S k) "Jack I") w,
     [set_value input (v +:+ substring 0 (S k) "Jack I");
      setTimeout (Production.type input) 200], Normal tt).
Proof.
  intros Hk Hi Ht. unfold Production.SearchUI.run_type, bind at 1, get.
  rewrite Hi, Ht.
  do 6 (destruct k as [| k]; [cbn [String.get Production.SearchUI.text]; rewrite append_assoc; reflexivity |]).
  lia.
Qed.

Lemma production_type_stops (input : Element) (w : Production.World) :
  (6 <= Production.type_i w)%nat →
  Production.SearchUI.run_type input w = (w, [], Normal tt).
Proof.
  intros Hk. unfold Production.SearchUI.run_type, bind at 1, get.
  destruct (Production.type_i w) as [| [| [| [| [| [| k]]]]]]; try lia.
  reflexivity.
Qed.

Lemma production_typing_from (input : Element) (v : string) (n k : nat)
    (w : Production.World) :
  (k <= 6)%nat →
  Production.type_i w = k →
  Production.input_value w = v +:+ substring 0 k "Jack I" →
  values_set (run_tasks (repeat (Production.SearchUI.run_type input) n) w).2
  = map (λ j, (input, v +:+ substring 0 j "Jack I")) (seq (S k) (min (k + n) 6 - k))
  ∧ timers_of (run_tasks (repeat (Production.SearchUI.run_type input) n) w).2
    = repeat (Production.type input, 200%Z) (min (k + n) 6 - k)
  ∧ Production.input_value (run_tasks (repeat (Production.SearchUI.run_type input) n) w).1
    = v +:+ substring 0 (min (k + n) 6) "Jack I".
Proof.
  revert k w. induction n as [| n IH]; intros k w Hk Hi Ht.
  - cbn. replace (min (k + 0) 6 - k)%nat with 0%nat by lia.
    replace (min (k + 0) 6) with k by lia. split_and!; [reflexivity | reflexivity | exact Ht].
  - cbn [repeat]. rewrite !run_tasks_cons.
    destruct (decide (k < 6)%nat) as [Hlt | Hge].
    + rewrite (production_type_types input v k w Hlt Hi Ht). cbn [state_of trace_of fst snd].
      destruct (IH (S k) (Production.set_typing (S k) (v +:+ substring 0 (S k) "Jack I") w))
        as (Hv & Hc & Hs); [lia | reflexivity | reflexivity |].
      rewrite values_set_app, timers_of_app, Hv, Hc, Hs.
      replace (min (k + S n) 6 - k)%nat with (S (min (S k + n) 6 - S k)) by lia.
      replace (min (k + S n) 6) with (min (S k + n) 6) by lia.
      split_and!; reflexivity.
    + assert (k = 6)%nat as -> by lia.
      rewrite (production_type_stops input w) by lia. cbn [state_of trace_of fst snd app].
      destruct (IH 6%nat w) as (Hv & Hc & Hs); [lia | exact Hi | exact Ht |].
      rewrite Hv, Hc, Hs.
      replace (min (6 + S n) 6 - 6)%nat with 0%nat by lia.
      replace (min (6 + n) 6 - 6)%nat with 0%nat by lia.
      replace (min (6 + S n) 6) with (min (6 + n) 6) by lia.
      split_and!; reflexivity.
Qed.

(** X7: the typing animation.  After [startTypingAnimation] and [n] ticks
    of its interval the instrumented variant has assigned the prefixes of
    "Jack I" of length 1 to [min n 6], overwriting what the input held, and
    every tick after the sixth only clears the interval.  The production
    variant types the first letter at once and appends to the value [v]
    the input already has: after [typeText] and [n] timeouts it has
    assigned [v] followed by the prefixes up to [min (n + 1) 6], and has
    registered one 200 ms timeout per letter. *)
Theorem typing_animation_prefixes (doc : Document) (input : Element) (n : nat)
    (v : string) (wv : Verbose.World) (wp : Production.World) :
  getElementById doc "searchInput" = Some input →
  querySelector doc "#searchInput" = Some input →
  Production.input_value wp = v →
  let rv := run_tasks (Verbose.SearchInterface.startTypingAnimation doc
                       :: repeat (Verbose.SearchInterface.run_typeTick input) n) wv in
  let rp := run_tasks (Production.SearchUI.typeText doc
                       :: repeat (Production.SearchUI.run_type input) n) wp in
  values_set rv.2 = map (λ j, (input, substring 0 j "Jack I")) (seq 1 (min n 6))
  ∧ intervals_cleared rv.2 = repeat (Verbose.typeTick input) (n - 6)
  ∧ values_set rp.2 = map (λ j, (input, v +:+ substring 0 j "Jack I")) (seq 1 (min (S n) 6))
  ∧ timers_of rp.2 = repeat (Production.type input, 200%Z) (min (S n) 6)
  ∧ Production.input_value rp.1 = v +:+ substring 0 (min (S n) 6) "Jack I".
Proof.
  intros Hg Hq Hv rv rp.
  assert (Verbose.SearchInterface.startTypingAnimation doc wv
          = (Verbose.set_typing "" 0 wv,
             [setInterval (Verbose.typeTick input) 200], Normal tt)) as Ev.
  { unfold Verbose.SearchInterface.startTypingAnimation. rewrite Hg. reflexivity. }
  assert (rp = run_tasks (repeat (Production.SearchUI.run_type input) (S n))
                 (Production.set_typing 0 (Production.input_value wp) wp)) as Ep.
  { unfold rp. cbn [repeat]. rewrite !run_tasks_cons.
    unfold Production.SearchUI.typeText. rewrite Hq. js_unfold.
    destruct (Production.SearchUI.run_type input _) as [[w1 t1] c1]. cbn.
    destruct c1; reflexivity. }
  destruct (verbose_typing_from input n 0 (Verbose.set_typing "" 0 wv))
    as [Hvv Hvc]; [lia | reflexivity | reflexivity |].
  destruct (production_typing_from input v (S n) 0
              (Production.set_typing 0 (Production.input_value wp) wp))
    as (Hpv & Hpt & Hps); [lia | reflexivity | cbn; now rewrite Hv, append_empty |].
  rewrite Ep. unfold rv. rewrite run_tasks_cons, Ev.
  cbn [state_of trace_of fst snd]. rewrite values_set_app, intervals_cleared_app.
  rewrite Hvv, Hvc, Hpv, Hpt, Hps.
  cbn [values_set intervals_cleared omap app Nat.add]. rewrite Nat.sub_0_r.
  split_and!; reflexivity.
Qed.

Lemma typing_animation_prefixes_witness :
  values_set
    (run_tasks (Production.SearchUI.typeText (sample_page true false)
                :: repeat (Production.SearchUI.run_type 14%nat) 9)
       (Production.initial 0 "Dr. ")).2
  = [ (14%nat, "Dr. J"); (14%nat, "Dr. Ja"); (14%nat, "Dr. Jac"); (14%nat, "Dr. Jack");
      (14%nat, "Dr. Jack "); (14%nat, "Dr. Jack I") ].
Proof.
  exact (proj1 (proj2 (proj2
    (typing_animation_prefixes (sample_page true false) 14%nat 9 "Dr. "
       (Verbose.initial 0) (Production.initial 0 "Dr. ")
       eq_refl eq_refl eq_refl)))).
Defined.
(** * Debouncing and throttling *)

Section DebounceLemmas.
Context {A : Type}.
Implicit Types (w : Debounce.World A) (a : A).

Lemma debounce_call (clears : bool) (wait t now : Q) a b done w :
  Debounce.armed t wait a done w →
  Debounce.armed now wait b
    (if Qle_bool (t + wait) now then done ++ [((t + wait)%Q, a)] else done)
    (Debounce.executedFunction wait now b (Debounce.advance clears now w)).
Proof.
  intros (id & Hp & Ht & Hi). unfold Debounce.advance. rewrite Hp.
  cbn [List.filter fst snd]. destruct (Qle_bool (t + wait) now).
  - cbn [Debounce.by_due foldl Debounce.insert_due]. unfold Debounce.fire.
    rewrite Hp. cbn [existsb fst snd List.filter]. rewrite Nat.eqb_refl.
    cbn [orb negb]. exists (Debounce.next_id w).
    unfold Debounce.executedFunction, Debounce.setTimeout_later, Debounce.later,
      Debounce.clearTimeout.
    destruct clears; cbn; rewrite ?Ht, Hi; split_and!; reflexivity.
  - cbn [Debounce.by_due foldl]. exists (Debounce.next_id w).
    unfold Debounce.executedFunction, Debounce.setTimeout_later, Debounce.clearTimeout.
    cbn. rewrite Hp, Ht. cbn [List.filter fst snd].
    rewrite bool_decide_eq_true_2 by reflexivity. cbn.
    split_and!; [reflexivity | reflexivity | exact Hi].
Qed.

Lemma debounce_run_from (clears : bool) (wait t : Q) a (calls : list (Q * A)) done w :
  Debounce.armed t wait a done w →
  Debounce.invoked (Debounce.run clears wait calls w)
  = done ++ Debounce.quiet_after wait ((t, a) :: calls)
  ∧ Debounce.pending (Debounce.run clears wait calls w) = [].
Proof.
  revert t a done w. induction calls as [| [now b] calls IH]; intros t a done w Hw.
  - destruct Hw as (id & Hp & Ht & Hi). cbn [Debounce.run Debounce.quiet_after].
    rewrite Hp. cbn [Debounce.by_due foldl Debounce.insert_due]. unfold Debounce.fire.
    rewrite Hp. cbn [existsb fst snd List.filter]. rewrite Nat.eqb_refl.
    unfold Debounce.later, Debounce.clearTimeout.
    destruct clears; cbn; rewrite Hi; split; reflexivity.
  - cbn [Debounce.run].
    destruct (IH now b _ _ (debounce_call clears wait t now a b done w Hw)) as [Hi Hp].
    rewrite Hi, Hp. split; [| reflexivity].
    change (Debounce.quiet_after wait ((t, a) :: (now, b) :: calls))
      with (if Qle_bool (t + wait) now
            then ((t + wait)%Q, a) :: Debounce.quiet_after wait ((now, b) :: calls)
            else Debounce.quiet_after wait ((now, b) :: calls)).
    destruct (Qle_bool (t + wait) now); [now rewrite <- app_assoc | reflexivity].
Qed.

Lemma debounce_run_start (clears : bool) (wait : Q) (calls : list (Q * A)) :
  Debounce.invoked (Debounce.run clears wait calls Debounce.start)
  = Debounce.quiet_after wait calls
  ∧ Debounce.pending (Debounce.run clears wait calls Debounce.start) = [].
Proof.
  destruct calls as [| [t a] calls]; [split; reflexivity |].
  cbn [Debounce.run].
  apply (debounce_run_from clears wait t a calls []).
  exists 0%nat. split_and!; reflexivity.
Qed.

Lemma quiet_after_burst (wait t : Q) a (calls : list (Q * A)) :
  Debounce.burst wait t calls →
  Debounce.quiet_after wait ((t, a) :: calls)
  = [(((List.last ((t, a) :: calls) (t, a)).1 + wait)%Q,
      (List.last ((t, a) :: calls) (t, a)).2)].
Proof.
  revert t a. induction calls as [| [now b] calls IH]; intros t a Hb; [reflexivity |].
  destruct Hb as (_ & Hlt & Hb).
  change (Debounce.quiet_after wait ((t, a) :: (now, b) :: calls))
    with (if Qle_bool (t + wait) now
          then ((t + wait)%Q, a) :: Debounce.quiet_after wait ((now, b) :: calls)
          else Debounce.quiet_after wait ((now, b) :: calls)).
  destruct (Qle_bool (t + wait) now) eqn:E.
  - apply Qle_bool_iff in E. exfalso. exact (Qlt_not_le _ _ Hlt E).
  - rewrite (IH now b Hb).
    change (List.last ((t, a) :: (now, b) :: calls) (t, a))
      with (List.last ((now, b) :: calls) (t, a)).
    assert (∀ d d' : Q * A, List.last ((now, b) :: calls) d = List.last ((now, b) :: calls) d') as Hd.
    { clear. generalize (now, b). induction calls as [| x l IHl]; intros y d d';
        [reflexivity |]. exact (IHl x d d'). }
    now rewrite (Hd (now, b) (t, a)).
Qed.
End DebounceLemmas.


(** X9: a burst of calls, each less than [wait] after the one before,
    invokes the debounced function once: [wait] after the last call, with
    the arguments of the last call. *)
Theorem debounce_burst_invokes_last {A : Type} (clears : bool) (wait t : Q) (a : A)
    (calls : list (Q * A)) :
  Debounce.burst wait t calls →
  Debounce.invoked (Debounce.run clears wait ((t, a) :: calls) Debounce.start)
  = [(((List.last ((t, a) :: calls) (t, a)).1 + wait)%Q,
      (List.last ((t, a) :: calls) (t, a)).2)].
Proof.
  intros Hb. rewrite (proj1 (debounce_run_start clears wait ((t, a) :: calls))).
  now apply quiet_after_burst.
Qed.

Lemma debounce_burst_invokes_last_witness :
  Debounce.invoked
    (Debounce.run true 250 [(0, 1024%Z); (100, 900%Z); (340, 800%Z); (500, 767%Z)]
       Debounce.start)
  = [(500 + 250, 767%Z)].
Proof.
  apply (debounce_burst_invokes_last true 250 0 1024%Z
           [(100, 900%Z); (340, 800%Z); (500, 767%Z)]).
  cbn. repeat split; try discriminate.
Defined.

Section ThrottleLemmas.
Context {A : Type}.

Lemma throttle_run_snoc (ms : Z) (calls : list (Z * A)) (c : Z * A) (w : Throttle.World A) :
  Throttle.run ms (calls ++ [c]) w
  = Throttle.throttled ms c.1 c.2 (Throttle.run ms calls w).
Proof. unfold Throttle.run. now rewrite foldl_app. Qed.

Lemma throttle_invariant (ms : Z) (calls : list (Z * A)) :
  let w := Throttle.run ms calls Throttle.start in
  Throttle.invoked w `sublist_of` calls
  ∧ (∀ i x y, Throttle.invoked w !! i = Some x → Throttle.invoked w !! S i = Some y →
       (x.1 + ms <= y.1)%Z)
  ∧ (∀ x, head (Throttle.invoked w) = Some x → (ms <= x.1)%Z)
  ∧ Throttle.l w = from_option fst 0%Z (last (Throttle.invoked w)).
Proof.
  induction calls as [| [n a] calls IH] using rev_ind.
  - cbn. split_and!; [constructor | intros ? ? ? [=] | intros ? [=] | reflexivity].
  - cbv zeta in *. rewrite throttle_run_snoc. cbn [fst snd].
    destruct IH as (Hs & Hg & Hh & Hl).
    set (w := Throttle.run ms calls Throttle.start) in *.
    unfold Throttle.throttled. destruct (ms <=? n - Throttle.l w)%Z eqn:E.
    + cbn [Throttle.invoked Throttle.l]. split_and!.
      * now apply sublist_app.
      * intros i x y Hx Hy.
        destruct (decide (S i < length (Throttle.invoked w))%nat) as [Hi | Hi].
        -- rewrite lookup_app_l in Hx by lia. rewrite lookup_app_l in Hy by lia.
           now apply (Hg i).
        -- assert (S i = length (Throttle.invoked w)) as Hi'.
           { apply lookup_lt_Some in Hy. rewrite length_app in Hy. cbn in Hy. lia. }
           rewrite lookup_app_l in Hx by lia.
           rewrite lookup_app_r in Hy by lia.
           replace (S i - length (Throttle.invoked w))%nat with 0%nat in Hy by lia.
           injection Hy as <-. cbn [fst].
           assert (last (Throttle.invoked w) = Some x) as Hlast.
           { rewrite last_lookup. rewrite <- Hi'. exact Hx. }
           rewrite Hlast in Hl. cbn in Hl. lia.
      * intros x Hx. destruct (Throttle.invoked w) as [| z r] eqn:Ei.
        -- injection Hx as <-. cbn in Hl |- *. lia.
        -- apply Hh. exact Hx.
      * now rewrite last_snoc.
    + split_and!; [now apply sublist_inserts_r | exact Hg | exact Hh | exact Hl].
Qed.
End ThrottleLemmas.

(** X10: [throttle].  Whatever values [Date.now()] takes at the calls,
    also when the clock is set back, the calls passed on to [fn] are some
    of the calls made, in order; two successive ones are at least [ms]
    apart; the first is passed on only if the clock reads [ms] or more,
    since [l] starts at 0; and [l] is the clock of the last call passed
    on. *)
Theorem throttle_spaces_calls {A : Type} (ms : Z) (calls : list (Z * A)) :
  let w := Throttle.run ms calls Throttle.start in
  Throttle.invoked w `sublist_of` calls
  ∧ (∀ i x y, Throttle.invoked w !! i = Some x → Throttle.invoked w !! S i = Some y →
       (x.1 + ms <= y.1)%Z)
  ∧ (∀ x, head (Throttle.invoked w) = Some x → (ms <= x.1)%Z)
  ∧ Throttle.l w = from_option fst 0%Z (last (Throttle.invoked w)).
Proof. exact (throttle_invariant ms calls). Qed.
